(** * Host-side driver of the Skycoin hardware wallet

    A shallow embedding of [src/skywallet/skywallet.go].  The methods of
    [Device] become functions in a state monad over the device struct and the
    outside world (the transport, the file system and standard output).  The
    outside world is a scripted mock: every call that leaves the process pops
    its outcome from a queue and is appended to a log, so that statements such
    as "no frame is written" or "the handle is closed before the next one is
    opened" are statements about the log. *)

From Stdlib Require Import ZArith List String Bool Arith Lia.
Import ListNotations.

Set Implicit Arguments.

(** ** Data *)

Definition byte := Byte.byte.

(** One [[64]byte] chunk handed to [dev.Write]; its content is opaque here. *)
Definition Frame := list byte.

(** Identity of one [usb.Device] value handed out by [Driver.GetDevice]. *)
Definition Handle := nat.

(** [messages.MessageType]: the kinds the source names, and the numeric code
    for every other one.  [wire.Message.Kind] holds the same value as uint16;
    the source only compares it with the named constants. *)
Inductive MessageType :=
| MessageType_Success
| MessageType_Failure
| MessageType_ButtonRequest
| MessageType_EntropyRequest
| MessageType_Entropy
| MessageType_Features
| MessageType_PinMatrixRequest
| MessageType_WordRequest
| MessageType_PassphraseRequest
| MessageType_code (c : nat).

(** [wire.Message] *)
Record Message := { Kind : MessageType; Data : list byte }.

(** [wire.Message{}]: kind 0, no data. *)
Definition Message_zero : Message := {| Kind := MessageType_code 0; Data := [] |}.

Inductive DeviceType := DeviceTypeInvalid | DeviceTypeEmulator | DeviceTypeUSB.

Definition DeviceType_eqb (a b : DeviceType) : bool :=
  match a, b with
  | DeviceTypeInvalid, DeviceTypeInvalid
  | DeviceTypeEmulator, DeviceTypeEmulator
  | DeviceTypeUSB, DeviceTypeUSB => true
  | _, _ => false
  end.

(** [ButtonType] is an int32. *)
Definition ButtonType := Z.
Definition ButtonLeft : ButtonType := 0%Z.
Definition ButtonRight : ButtonType := 1%Z.
Definition ButtonBoth : ButtonType := 2%Z.

(** Go [error] values: [errors.New], the three [fmt.Errorf] shapes of the
    file, and the errors of the collaborators. *)
Inductive error :=
| errors_New (text : string)
| Errorf_unexpected_message_type (k : MessageType)
| Errorf_invalid_button_type (t : ButtonType)
| Errorf_wrong_device_type (dt : DeviceType)
| Errorf_file_size (outFile : string) (current required : Z)
| io_error (text : string).

Definition ErrAddressNZero := errors_New "addresses to generate should be greater than 0".
Definition ErrUsePassPhraseNil := errors_New "usePassphrase cannot be nil".
Definition ErrRemovePinNil := errors_New "removePin cannot be nil".
Definition ErrDeviceTypeEmulator := errors_New "device type cannot be emulator".
Definition ErrInvalidWordCount := errors_New "word count must be 12 or 24".
Definition ErrNoDeviceConnected := errors_New "no device connected".
Definition ErrNotConnected := errors_New "device is not connected".

(** Errors of the transport mock. *)
Definition ErrClosedHandle := io_error "use of closed handle".
Definition ErrNilDevice := io_error "nil device".
Definition ErrEOF := io_error "EOF".
Definition ErrNotExist := io_error "file does not exist".
Definition ErrPermission := io_error "permission denied".

(** A Go result pair [(T, error)]. *)
Definition GoRet (A : Type) : Type := (A * option error)%type.

(** Outcome of a call to a collaborator that yields a value or fails. *)
Inductive outcome (A : Type) :=
| Got (a : A)
| Failed (e : error).
Arguments Failed {A} e.

Definition entropyBufferSize : Z := 32.

Definition SkycoinTransactionInput := list byte.
Definition SkycoinTransactionOutput := list byte.
Definition UsbInfo := nat.

(** The message builders and decoders live in other files of the package;
    the driver only calls them.  They are pure and taken as a parameter. *)
Record Codec := {
  MessageAddressGen : Z -> Z -> bool -> GoRet (list Frame);
  MessageApplySettings : option bool -> string -> string -> GoRet (list Frame);
  MessageBackup : GoRet (list Frame);
  MessageButtonAck : GoRet (list Frame);
  MessageCancel : GoRet (list Frame);
  MessageCheckMessageSignature : string -> string -> string -> GoRet (list Frame);
  MessageChangePin : option bool -> GoRet (list Frame);
  MessageConnected : GoRet (list Frame);
  MessageEntropyAck : Z -> GoRet (list Frame);
  MessageFirmwareErase : list byte -> GoRet (list Frame);
  MessageFirmwareUpload : list byte -> list byte -> GoRet (list Frame);
  MessageGetFeatures : GoRet (list Frame);
  MessageGenerateMnemonic : Z -> bool -> GoRet (list Frame);
  MessageInitialize : GoRet (list Frame);
  MessageRecovery : Z -> bool -> bool -> GoRet (list Frame);
  MessageSetMnemonic : string -> GoRet (list Frame);
  MessageSignMessage : Z -> string -> GoRet (list Frame);
  MessageTransactionSign :
    list SkycoinTransactionInput -> list SkycoinTransactionOutput -> GoRet (list Frame);
  MessageWipe : GoRet (list Frame);
  MessagePassphraseAck : string -> GoRet (list Frame);
  MessageWordAck : string -> GoRet (list Frame);
  MessagePinMatrixAck : string -> GoRet (list Frame);
  MessageSimulateButtonPress : ButtonType -> GoRet Frame;
  DecodeFailMsg : Message -> GoRet string;
  DecodeResponseEntropyMessage : Message -> GoRet (list byte)
}.

(** ** The outside world *)

Inductive Event :=
| EvGetDevice (r : outcome Handle)
| EvWrite (h : Handle) (f : Frame) (r : option error)
| EvRead (h : Handle) (r : outcome Message)
| EvClose (h : Handle) (r : option error)
| EvNilDevice
| EvGetDeviceInfos
| EvDriverClose
| EvSleep
| EvGetEntropyMsgBuilder (n : Z)
| EvPrint (buf : list byte)
| EvStat (path : string) (r : outcome Z)
| EvChmod (path : string) (mode : Z) (r : option error)
| EvCreate (path : string) (r : option error)
| EvFileWrite (path : string) (buf : list byte) (r : option error)
| EvFileClose (path : string).

Record File := { f_data : list byte; f_mode : Z }.

Record World := {
  w_log : list Event;                    (* newest event first *)
  w_opens : list (option error);         (* outcomes of Driver.GetDevice *)
  w_writes : list (option error);        (* outcomes of dev.Write *)
  w_reads : list (outcome Message);      (* outcomes of wire.ReadFrom *)
  w_closes : list (option error);        (* outcomes of dev.Close *)
  w_infos : outcome (list UsbInfo);      (* answer of Driver.GetDeviceInfos *)
  w_faults : list (option error);        (* faults of the file system calls *)
  w_files : string -> option File
}.

(** [Device] *)
Record Device := {
  Driver : DeviceType;
  dev : option Handle;
  simulateButtonPress : bool;
  simulateButtonType : ButtonType
}.

(** [NewDevice]; [NewDriver] is assumed to succeed. *)
Definition NewDevice (deviceType : DeviceType) : Device :=
  {| Driver := deviceType; dev := None;
     simulateButtonPress := false; simulateButtonType := (-1)%Z |}.

(** Handles that are open after the events of a log. *)
Fixpoint live (log : list Event) : list Handle :=
  match log with
  | [] => []
  | EvGetDevice (Got h) :: t => h :: live t
  | EvClose h _ :: t => filter (fun x => negb (Nat.eqb h x)) (live t)
  | _ :: t => live t
  end.

Definition is_open_event (e : Event) : bool :=
  match e with EvGetDevice (Got _) => true | _ => false end.

(** The next handle identity: one more than the number of handles handed out. *)
Definition fresh (log : list Event) : Handle := List.length (filter is_open_event log).

Definition is_live (h : Handle) (w : World) : bool :=
  existsb (Nat.eqb h) (live (w_log w)).

Definition pop {A : Type} (dflt : A) (l : list A) : A * list A :=
  match l with
  | [] => (dflt, [])
  | x :: t => (x, t)
  end.

Definition log_event (e : Event) (w : World) : World :=
  {| w_log := e :: w_log w; w_opens := w_opens w; w_writes := w_writes w;
     w_reads := w_reads w; w_closes := w_closes w; w_infos := w_infos w;
     w_faults := w_faults w; w_files := w_files w |}.

Definition set_opens (l : list (option error)) (w : World) : World :=
  {| w_log := w_log w; w_opens := l; w_writes := w_writes w;
     w_reads := w_reads w; w_closes := w_closes w; w_infos := w_infos w;
     w_faults := w_faults w; w_files := w_files w |}.

Definition set_writes (l : list (option error)) (w : World) : World :=
  {| w_log := w_log w; w_opens := w_opens w; w_writes := l;
     w_reads := w_reads w; w_closes := w_closes w; w_infos := w_infos w;
     w_faults := w_faults w; w_files := w_files w |}.

Definition set_reads (l : list (outcome Message)) (w : World) : World :=
  {| w_log := w_log w; w_opens := w_opens w; w_writes := w_writes w;
     w_reads := l; w_closes := w_closes w; w_infos := w_infos w;
     w_faults := w_faults w; w_files := w_files w |}.

Definition set_closes (l : list (option error)) (w : World) : World :=
  {| w_log := w_log w; w_opens := w_opens w; w_writes := w_writes w;
     w_reads := w_reads w; w_closes := l; w_infos := w_infos w;
     w_faults := w_faults w; w_files := w_files w |}.

Definition set_faults (l : list (option error)) (w : World) : World :=
  {| w_log := w_log w; w_opens := w_opens w; w_writes := w_writes w;
     w_reads := w_reads w; w_closes := w_closes w; w_infos := w_infos w;
     w_faults := l; w_files := w_files w |}.

Definition set_file (path : string) (f : File) (w : World) : World :=
  {| w_log := w_log w; w_opens := w_opens w; w_writes := w_writes w;
     w_reads := w_reads w; w_closes := w_closes w; w_infos := w_infos w;
     w_faults := w_faults w;
     w_files := fun q => if String.eqb path q then Some f else w_files w q |}.

(** *** Transport calls on the world.

    A write or read through a handle that is not open fails without touching
    the scripts.  [Close] releases the handle whatever it reports.  A read
    with an exhausted script fails (the mock has nothing more to say). *)

Definition world_GetDevice (w : World) : outcome Handle * World :=
  let (o, rest) := pop None (w_opens w) in
  let r := match o with
           | None => Got (fresh (w_log w))
           | Some e => Failed e
           end in
  (r, log_event (EvGetDevice r) (set_opens rest w)).

Definition world_Write (h : Handle) (f : Frame) (w : World) : option error * World :=
  if is_live h w then
    let (o, rest) := pop None (w_writes w) in
    (o, log_event (EvWrite h f o) (set_writes rest w))
  else (Some ErrClosedHandle, log_event (EvWrite h f (Some ErrClosedHandle)) w).

Definition world_Read (h : Handle) (w : World) : outcome Message * World :=
  if is_live h w then
    let (o, rest) := pop (Failed ErrEOF) (w_reads w) in
    (o, log_event (EvRead h o) (set_reads rest w))
  else (Failed ErrClosedHandle, log_event (EvRead h (Failed ErrClosedHandle)) w).

Definition world_Close (h : Handle) (w : World) : option error * World :=
  if is_live h w then
    let (o, rest) := pop None (w_closes w) in
    (o, log_event (EvClose h o) (set_closes rest w))
  else (Some ErrClosedHandle, log_event (EvClose h (Some ErrClosedHandle)) w).

(** ** The monad of the methods *)

Definition St : Type := (Device * World)%type.
Definition M (A : Type) : Type := St -> A * St.

Definition ret {A : Type} (a : A) : M A := fun s => (a, s).

Definition bind {A B : Type} (m : M A) (k : A -> M B) : M B :=
  fun s => k (fst (m s)) (snd (m s)).

Declare Scope go_scope.
Delimit Scope go_scope with go.
Notation "x <- m ;; k" := (bind m (fun x => k))
  (at level 61, m at next level, right associativity) : go_scope.
Notation "m ;; k" := (bind m (fun _ => k))
  (at level 61, right associativity) : go_scope.
Open Scope go_scope.

Definition get_device : M Device := fun s => (fst s, s).
Definition set_dev (o : option Handle) : M unit :=
  fun s => (tt, ({| Driver := Driver (fst s); dev := o;
                    simulateButtonPress := simulateButtonPress (fst s);
                    simulateButtonType := simulateButtonType (fst s) |}, snd s)).
Definition set_simulateButtonPress (b : bool) : M unit :=
  fun s => (tt, ({| Driver := Driver (fst s); dev := dev (fst s);
                    simulateButtonPress := b;
                    simulateButtonType := simulateButtonType (fst s) |}, snd s)).
Definition set_simulateButtonType (t : ButtonType) : M unit :=
  fun s => (tt, ({| Driver := Driver (fst s); dev := dev (fst s);
                    simulateButtonPress := simulateButtonPress (fst s);
                    simulateButtonType := t |}, snd s)).

Definition lift {A : Type} (f : World -> A * World) : M A :=
  fun s => (fst (f (snd s)), (fst s, snd (f (snd s)))).

Definition emit (e : Event) : M unit := lift (fun w => (tt, log_event e w)).

(** Calls through a [usb.Device] interface value.  A call through nil panics
    in Go; the model records it and hands back an error. *)
Definition dev_Write (o : option Handle) (f : Frame) : M (option error) :=
  match o with
  | Some h => lift (world_Write h f)
  | None => emit EvNilDevice ;; ret (Some ErrNilDevice)
  end.

Definition dev_Close (o : option Handle) : M (option error) :=
  match o with
  | Some h => lift (world_Close h)
  | None => emit EvNilDevice ;; ret (Some ErrNilDevice)
  end.

Definition wire_ReadFrom (o : option Handle) : M (GoRet Message) :=
  match o with
  | Some h =>
      r <- lift (world_Read h) ;;
      match r with
      | Got m => ret (m, None)
      | Failed e => ret (Message_zero, Some e)
      end
  | None => emit EvNilDevice ;; ret (Message_zero, Some ErrNilDevice)
  end.

Definition Driver_GetDevice : M (outcome Handle) := lift world_GetDevice.

(** [for _, element := range chunks { _, err = dev.Write(element[:]); if err != nil { return err } }] *)
Fixpoint write_chunks (o : option Handle) (chunks : list Frame) : M (option error) :=
  match chunks with
  | [] => ret None
  | element :: rest =>
      err <- dev_Write o element ;;
      match err with
      | Some e => ret (Some e)
      | None => write_chunks o rest
      end
  end.

(** Modelled from the spec: [Driver.SendToDevice] is declared outside this
    file; it "writes all frames then reads and reassembles one logical
    response". *)
Definition SendToDevice (o : option Handle) (chunks : list Frame) : M (GoRet Message) :=
  err <- write_chunks o chunks ;;
  match err with
  | Some e => ret (Message_zero, Some e)
  | None => wire_ReadFrom o
  end.

(** Modelled from the spec: [sendToDeviceNoAnswer] is declared outside this
    file; it sends the frames "without expecting a reply". *)
Definition sendToDeviceNoAnswer (o : option Handle) (chunks : list Frame) : M (option error) :=
  write_chunks o chunks.

Definition Driver_GetDeviceInfos : M (GoRet (list UsbInfo)) :=
  lift (fun w => (match w_infos w with
                  | Got infos => (infos, None)
                  | Failed e => ([], Some e)
                  end, log_event EvGetDeviceInfos w)).

(** Loops whose every round reads one message are run with one unit of fuel
    per scripted read, plus one: see the [*_fuel] lemmas below. *)
Definition with_fuel {A : Type} (f : nat -> M A) : M A :=
  fun s => f (S (List.length (w_reads (snd s)))) s.

(** *** File system and standard output.

    Every call pops one entry of [w_faults]; an entry [Some e] makes the call
    fail with [e].  [os.File.Write] writes the whole buffer or fails, as its
    contract says.  An open file is identified by its path. *)

Definition os_Stat (path : string) : M (outcome Z) :=
  lift (fun w =>
    let (o, rest) := pop None (w_faults w) in
    let r := match o with
             | Some e => Failed e
             | None =>
                 match w_files w path with
                 | None => Failed ErrNotExist
                 | Some f => Got (Z.of_nat (List.length (f_data f)))
                 end
             end in
    (r, log_event (EvStat path r) (set_faults rest w))).

Definition os_Chmod (path : string) (mode : Z) : M (option error) :=
  lift (fun w =>
    let (o, rest) := pop None (w_faults w) in
    match o, w_files w path with
    | Some e, _ => (Some e, log_event (EvChmod path mode (Some e)) (set_faults rest w))
    | None, None =>
        (Some ErrNotExist, log_event (EvChmod path mode (Some ErrNotExist)) (set_faults rest w))
    | None, Some f =>
        (None, log_event (EvChmod path mode None)
                 (set_file path {| f_data := f_data f; f_mode := mode |} (set_faults rest w)))
    end).

(** [os.Create]: truncates an existing file the owner may write, creates a
    missing one with mode 0666. *)
Definition os_Create (path : string) : M (option error) :=
  lift (fun w =>
    let (o, rest) := pop None (w_faults w) in
    match o, w_files w path with
    | Some e, _ => (Some e, log_event (EvCreate path (Some e)) (set_faults rest w))
    | None, None =>
        (None, log_event (EvCreate path None)
                 (set_file path {| f_data := []; f_mode := 438 |} (set_faults rest w)))
    | None, Some f =>
        if (Z.land (f_mode f) 128 =? 0)%Z
        then (Some ErrPermission,
              log_event (EvCreate path (Some ErrPermission)) (set_faults rest w))
        else (None, log_event (EvCreate path None)
                      (set_file path {| f_data := []; f_mode := f_mode f |}
                                (set_faults rest w)))
    end).

Definition file_Write (path : string) (buf : list byte) : M (nat * option error) :=
  lift (fun w =>
    let (o, rest) := pop None (w_faults w) in
    match o, w_files w path with
    | Some e, _ => ((0, Some e), log_event (EvFileWrite path buf (Some e)) (set_faults rest w))
    | None, None =>
        ((0, Some ErrNotExist),
         log_event (EvFileWrite path buf (Some ErrNotExist)) (set_faults rest w))
    | None, Some f =>
        ((List.length buf, None),
         log_event (EvFileWrite path buf None)
           (set_file path {| f_data := f_data f ++ buf; f_mode := f_mode f |}
                     (set_faults rest w)))
    end).

Definition file_Close (path : string) : M unit := emit (EvFileClose path).

Definition fmt_Print (buf : list byte) : M unit := emit (EvPrint buf).

(** ** The methods of [Device] *)

Section Methods.

Variable C : Codec.

(** [Close] *)
Definition Close : M unit := emit EvDriverClose.

(** [Connect] *)
Definition Connect : M (option error) :=
  d <- get_device ;;
  (match dev d with
   | Some _ => _ <- dev_Close (dev d) ;; set_dev None
   | None => ret tt
   end) ;;
  r <- Driver_GetDevice ;;
  match r with
  | Failed e => ret (Some e)
  | Got h => set_dev (Some h) ;; ret None
  end.

(** The goroutine of [Connected] and [ButtonAck]: build the entropy ack and
    write its chunks, logging (not returning) every error.  The caller joins
    it ([wg.Wait]) before it looks at the next message; the model runs it
    before the read it overlaps with.  The scripts of reads and writes are
    separate, so the outcomes do not depend on that choice. *)
Fixpoint write_each (o : option Handle) (chunks : list Frame) : M unit :=
  match chunks with
  | [] => ret tt
  | element :: rest => _ <- dev_Write o element ;; write_each o rest
  end.

Definition entropy_ack_goroutine : M unit :=
  d <- get_device ;;
  match snd (MessageEntropyAck C entropyBufferSize) with
  | Some _ => ret tt
  | None => write_each (dev d) (fst (MessageEntropyAck C entropyBufferSize))
  end.

(** [for msg.Kind == EntropyRequest { ... }] of [Connected] *)
Fixpoint Connected_drain (fuel : nat) (msg : Message) : M bool :=
  match Kind msg with
  | MessageType_EntropyRequest =>
      match fuel with
      | O => ret false
      | S fuel' =>
          entropy_ack_goroutine ;;
          d <- get_device ;;
          r <- wire_ReadFrom (dev d) ;;
          match snd r with
          | Some _ => ret false
          | None => Connected_drain fuel' (fst r)
          end
      end
  | MessageType_Success => ret true
  | _ => ret false
  end.

(** [Connected] *)
Definition Connected : M bool :=
  d <- get_device ;;
  match dev d with
  | None => ret false
  | Some _ =>
      match snd (MessageConnected C) with
      | Some _ => ret false
      | None =>
          err <- write_chunks (dev d) (fst (MessageConnected C)) ;;
          match err with
          | Some _ => ret false
          | None =>
              r <- wire_ReadFrom (dev d) ;;
              match snd r with
              | Some _ => ret false
              | None => with_fuel (fun fuel => Connected_drain fuel (fst r))
              end
          end
      end
  end.

(** [Disconnect] *)
Definition Disconnect : M (option error) :=
  c <- Connected ;;
  if negb c then ret (Some ErrNotConnected)
  else d <- get_device ;; dev_Close (dev d).

(** [Available] *)
Definition Available : M bool :=
  r <- Driver_GetDeviceInfos ;;
  match snd r with
  | Some _ => ret false
  | None => ret (negb (Nat.leb (List.length (fst r)) 0))
  end.

(** [GetUsbInfo] *)
Definition GetUsbInfo : M (GoRet (list UsbInfo)) :=
  d <- get_device ;;
  r <- (if DeviceType_eqb (Driver d) DeviceTypeUSB then
          err <- Connect ;;
          match err with
          | Some e => ret (Some e)
          | None => Disconnect
          end
        else ret None) ;;
  match r with
  | Some e => ret ([], Some e)
  | None =>
      i <- Driver_GetDeviceInfos ;;
      match snd i with
      | Some e => ret ([], Some e)
      | None => ret (fst i, None)
      end
  end.

(** The shape shared by [AddressGen], [ApplySettings], [Cancel],
    [CheckMessageSignature], [GetFeatures], [TransactionSign],
    [PassphraseAck], [WordAck] and [PinMatrixAck]: [Connect], defer
    [d.dev.Close(false)], check the argument (if the method has such a check),
    build the chunks, [SendToDevice]. *)
Definition plain_request (invalid : option error) (build : GoRet (list Frame))
  : M (GoRet Message) :=
  err <- Connect ;;
  match err with
  | Some e => ret (Message_zero, Some e)
  | None =>
      d <- get_device ;;
      r <- match invalid with
           | Some e => ret (Message_zero, Some e)
           | None =>
               match snd build with
               | Some e => ret (Message_zero, Some e)
               | None => SendToDevice (dev d) (fst build)
               end
           end ;;
      _ <- dev_Close (dev d) ;;
      ret r
  end.

(** [AddressGen]; [addressN] and [startIndex] are uint32. *)
Definition AddressGen (addressN startIndex : Z) (confirmAddress : bool) : M (GoRet Message) :=
  plain_request (if (addressN =? 0)%Z then Some ErrAddressNZero else None)
                (MessageAddressGen C addressN startIndex confirmAddress).

(** [ApplySettings]; [usePassphrase] is a [*bool]. *)
Definition ApplySettings (usePassphrase : option bool) (label language : string)
  : M (GoRet Message) :=
  plain_request (match usePassphrase with None => Some ErrUsePassPhraseNil | Some _ => None end)
                (MessageApplySettings C usePassphrase label language).

Definition Cancel : M (GoRet Message) := plain_request None (MessageCancel C).

Definition CheckMessageSignature (message signature address : string) : M (GoRet Message) :=
  plain_request None (MessageCheckMessageSignature C message signature address).

Definition GetFeatures : M (GoRet Message) := plain_request None (MessageGetFeatures C).

Definition TransactionSign (inputs : list SkycoinTransactionInput)
           (outputs : list SkycoinTransactionOutput) : M (GoRet Message) :=
  plain_request None (MessageTransactionSign C inputs outputs).

Definition PassphraseAck (passphrase : string) : M (GoRet Message) :=
  plain_request None (MessagePassphraseAck C passphrase).

Definition WordAck (word : string) : M (GoRet Message) :=
  plain_request None (MessageWordAck C word).

Definition PinMatrixAck (p : string) : M (GoRet Message) :=
  emit EvSleep ;; plain_request None (MessagePinMatrixAck C p).

(** [SimulateButtonPress] *)
Definition SimulateButtonPress : M (option error) :=
  d <- get_device ;;
  if negb (DeviceType_eqb (Driver d) DeviceTypeEmulator)
  then ret (Some (Errorf_wrong_device_type (Driver d)))
  else
    match snd (MessageSimulateButtonPress C (simulateButtonType d)) with
    | Some e => ret (Some e)
    | None =>
        dev_Write (dev d) (fst (MessageSimulateButtonPress C (simulateButtonType d)))
    end.

(** [for msg.Kind == EntropyRequest { ... }] of [ButtonAck] *)
Fixpoint ButtonAck_drain (fuel : nat) (msg : Message) : M (GoRet Message) :=
  match Kind msg with
  | MessageType_EntropyRequest =>
      match fuel with
      | O => ret (Message_zero, Some ErrEOF)
      | S fuel' =>
          entropy_ack_goroutine ;;
          d <- get_device ;;
          r <- wire_ReadFrom (dev d) ;;
          match snd r with
          | Some e => ret (Message_zero, Some e)
          | None => ButtonAck_drain fuel' (fst r)
          end
      end
  | _ => ret (msg, None)
  end.

(** [ButtonAck] *)
Definition ButtonAck : M (GoRet Message) :=
  err <- Connect ;;
  match err with
  | Some e => ret (Message_zero, Some e)
  | None =>
      d <- get_device ;;
      r <- match snd (MessageButtonAck C) with
           | Some e => ret (Message_zero, Some e)
           | None =>
               err <- sendToDeviceNoAnswer (dev d) (fst (MessageButtonAck C)) ;;
               match err with
               | Some e => ret (Message_zero, Some e)
               | None =>
                   err <- (if simulateButtonPress d then SimulateButtonPress else ret None) ;;
                   match err with
                   | Some e => ret (Message_zero, Some e)
                   | None =>
                       r <- wire_ReadFrom (dev d) ;;
                       match snd r with
                       | Some e => ret (Message_zero, Some e)
                       | None => with_fuel (fun fuel => ButtonAck_drain fuel (fst r))
                       end
                   end
               end
           end ;;
      _ <- dev_Close (dev d) ;;
      ret r
  end.

(** The deferred closure [if !disconnected { d.dev.Close(disconnected) }]. *)
Definition close_unless {A : Type} (rd : A * bool) : M A :=
  (if negb (snd rd) then d <- get_device ;; _ <- dev_Close (dev d) ;; ret tt else ret tt) ;;
  ret (fst rd).

(** [for msg.Kind == ButtonRequest { disconnected = true; msg, err = d.ButtonAck(); ... }] *)
Fixpoint Backup_loop (fuel : nat) (msg : Message) (disconnected : bool)
  : M (GoRet Message * bool) :=
  match Kind msg with
  | MessageType_ButtonRequest =>
      match fuel with
      | O => ret ((Message_zero, Some ErrEOF), true)
      | S fuel' =>
          r <- ButtonAck ;;
          match snd r with
          | Some e => ret ((Message_zero, Some e), true)
          | None => Backup_loop fuel' (fst r) true
          end
      end
  | _ => ret ((msg, None), disconnected)
  end.

(** [Backup] *)
Definition Backup : M (GoRet Message) :=
  err <- Connect ;;
  match err with
  | Some e => ret (Message_zero, Some e)
  | None =>
      rd <- match snd (MessageBackup C) with
            | Some e => ret ((Message_zero, Some e), false)
            | None =>
                d <- get_device ;;
                r <- SendToDevice (dev d) (fst (MessageBackup C)) ;;
                match snd r with
                | Some e => ret ((Message_zero, Some e), false)
                | None => with_fuel (fun fuel => Backup_loop fuel (fst r) false)
                end
            end ;;
      close_unless rd
  end.

(** The shape shared by [ChangePin], [GenerateMnemonic], [Recovery],
    [SetMnemonic], [SignMessage] and [Wipe]: [Connect], defer the closure that
    closes unless [disconnected], check the argument (if the method has such a
    check), build, [SendToDevice], and on a [ButtonRequest] set [disconnected]
    and return [d.ButtonAck()].  When the exchange fails [GenerateMnemonic]
    returns [msg, err] ([keep_msg]), the others [wire.Message{}, err]. *)
Definition confirmed_request (keep_msg : bool) (invalid : option error)
           (build : GoRet (list Frame)) : M (GoRet Message) :=
  err <- Connect ;;
  match err with
  | Some e => ret (Message_zero, Some e)
  | None =>
      rd <- match invalid with
            | Some e => ret ((Message_zero, Some e), false)
            | None =>
                match snd build with
                | Some e => ret ((Message_zero, Some e), false)
                | None =>
                    d <- get_device ;;
                    r <- SendToDevice (dev d) (fst build) ;;
                    match snd r with
                    | Some e =>
                        ret ((if keep_msg then fst r else Message_zero, Some e), false)
                    | None =>
                        match Kind (fst r) with
                        | MessageType_ButtonRequest =>
                            a <- ButtonAck ;; ret (a, true)
                        | _ => ret ((fst r, None), false)
                        end
                    end
                end
            end ;;
      close_unless rd
  end.

Definition invalid_word_count (wordCount : Z) : option error :=
  if (negb (wordCount =? 12) && negb (wordCount =? 24))%Z%bool
  then Some ErrInvalidWordCount else None.

(** [ChangePin]; [removePin] is a [*bool]. *)
Definition ChangePin (removePin : option bool) : M (GoRet Message) :=
  confirmed_request false
    (match removePin with None => Some ErrRemovePinNil | Some _ => None end)
    (MessageChangePin C removePin).

Definition GenerateMnemonic (wordCount : Z) (usePassphrase : bool) : M (GoRet Message) :=
  confirmed_request true (invalid_word_count wordCount)
    (MessageGenerateMnemonic C wordCount usePassphrase).

Definition Recovery (wordCount : Z) (usePassphrase dryRun : bool) : M (GoRet Message) :=
  confirmed_request false (invalid_word_count wordCount)
    (MessageRecovery C wordCount usePassphrase dryRun).

Definition SetMnemonic (mnemonic : string) : M (GoRet Message) :=
  confirmed_request false None (MessageSetMnemonic C mnemonic).

Definition SignMessage (addressIndex : Z) (message : string) : M (GoRet Message) :=
  confirmed_request false None (MessageSignMessage C addressIndex message).

Definition Wipe : M (GoRet Message) :=
  confirmed_request false None (MessageWipe C).

(** [DecodeFailMsg] followed by [errors.New(msg)], as every [Failure] case
    of the file does it. *)
Definition failure_error (m : Message) : error :=
  match snd (DecodeFailMsg C m) with
  | Some e => e
  | None => errors_New (fst (DecodeFailMsg C m))
  end.

(** Modelled from the spec: [Initialize] is declared outside this file; it
    "runs a low-level initialization request", an exchange whose reply is
    dropped. *)
Definition Initialize (o : option Handle) : M (option error) :=
  match snd (MessageInitialize C) with
  | Some e => ret (Some e)
  | None => r <- SendToDevice o (fst (MessageInitialize C)) ;; ret (snd r)
  end.

(** The inner [switch resp.Kind] of [FirmwareUpload], after the ButtonAck. *)
Definition FirmwareUpload_confirm (resp : Message) : option error :=
  match Kind resp with
  | MessageType_Success => None
  | MessageType_Failure => Some (failure_error resp)
  | _ => Some (errors_New "unknown response")
  end.

(** [switch uploadmsg.Kind] of [FirmwareUpload] *)
Definition FirmwareUpload_upload (erasemsg uploadmsg : Message) : M (option error) :=
  match Kind uploadmsg with
  | MessageType_ButtonRequest =>
      match snd (MessageButtonAck C) with
      | Some e => ret (Some e)
      | None =>
          d <- get_device ;;
          resp <- SendToDevice (dev d) (fst (MessageButtonAck C)) ;;
          match snd resp with
          | Some e => ret (Some e)
          | None => ret (FirmwareUpload_confirm (fst resp))
          end
      end
  | MessageType_Failure => ret (Some (failure_error erasemsg))
  | _ => ret (Some (Errorf_unexpected_message_type (Kind erasemsg)))
  end.

(** [FirmwareUpload]; [hash] is a [[32]byte]. *)
Definition FirmwareUpload (payload : list byte) (hash : list byte) : M (option error) :=
  d0 <- get_device ;;
  if negb (DeviceType_eqb (Driver d0) DeviceTypeUSB) then ret (Some ErrDeviceTypeEmulator)
  else
    err <- Connect ;;
    match err with
    | Some e => ret (Some e)
    | None =>
        d <- get_device ;;
        r <- (err <- Initialize (dev d) ;;
              match err with
              | Some e => ret (Some e)
              | None =>
                  match snd (MessageFirmwareErase C payload) with
                  | Some e => ret (Some e)
                  | None =>
                      erase <- SendToDevice (dev d) (fst (MessageFirmwareErase C payload)) ;;
                      match snd erase with
                      | Some e => ret (Some e)
                      | None =>
                          match Kind (fst erase) with
                          | MessageType_Success =>
                              match snd (MessageFirmwareUpload C payload hash) with
                              | Some e => ret (Some e)
                              | None =>
                                  upload <- SendToDevice (dev d)
                                              (fst (MessageFirmwareUpload C payload hash)) ;;
                                  match snd upload with
                                  | Some e => ret (Some e)
                                  | None => FirmwareUpload_upload (fst erase) (fst upload)
                                  end
                              end
                          | MessageType_Failure => ret (Some (failure_error (fst erase)))
                          | k => ret (Some (Errorf_unexpected_message_type k))
                          end
                      end
                  end
              end) ;;
        _ <- dev_Close (dev d) ;;
        ret r
    end.

(** [SetAutoPressButton] *)
Definition SetAutoPressButton (press : bool) (simulateButtonType' : ButtonType)
  : M (option error) :=
  d <- get_device ;;
  if DeviceType_eqb (Driver d) DeviceTypeEmulator then
    set_simulateButtonPress press ;;
    if press then
      if ((simulateButtonType' =? ButtonLeft) || (simulateButtonType' =? ButtonRight)
          || (simulateButtonType' =? ButtonBoth))%Z%bool
      then set_simulateButtonType simulateButtonType' ;; ret None
      else ret (Some (Errorf_invalid_button_type simulateButtonType'))
    else set_simulateButtonType 3%Z ;; ret None
  else ret None.

(** *** [SaveDeviceEntropyInFile] *)

Definition uint32 (z : Z) : Z := (z mod 4294967296)%Z.

Section Entropy.

Variable outFile : string.
Variable entropyBytes : Z.
(** The caller's [getEntropyMsgBuilder]; each call is logged. *)
Variable getEntropyMsgBuilder : Z -> GoRet (list Frame).

Definition usingStdout : bool := String.eqb outFile "-".

(** [processGetEntropyResponse].  [err] is the variable of the enclosing
    function that the closure captures: it is nil at every call, because each
    assignment of a non-nil value to it is followed by a return of the
    enclosing function.  A nil [*messages.Entropy] and [&messages.Entropy{}]
    both give an empty [GetEntropy()]. *)
Fixpoint processGetEntropyResponse (fuel : nat) (err : option error) (msg : Message)
  : M (GoRet (list byte)) :=
  match err with
  | Some e => ret ([], Some e)
  | None =>
      match Kind msg with
      | MessageType_Entropy =>
          match snd (DecodeResponseEntropyMessage C msg) with
          | Some e => ret ([], Some e)
          | None => ret (fst (DecodeResponseEntropyMessage C msg), None)
          end
      | MessageType_ButtonRequest =>
          match fuel with
          | O => ret ([], Some ErrEOF)
          | S fuel' =>
              match snd (MessageButtonAck C) with
              | Some e => ret ([], Some e)
              | None =>
                  d <- get_device ;;
                  e1 <- sendToDeviceNoAnswer (dev d) (fst (MessageButtonAck C)) ;;
                  match e1 with
                  | Some e => ret ([], Some e)
                  | None =>
                      e2 <- (if simulateButtonPress d then SimulateButtonPress
                             else ret None) ;;
                      match e2 with
                      | Some e => ret ([], Some e)
                      | None =>
                          r <- wire_ReadFrom (dev d) ;;
                          match snd r with
                          | Some e => ret ([], Some e)
                          | None => processGetEntropyResponse fuel' err (fst r)
                          end
                      end
                  end
              end
          end
      | _ => ret ([], Some (failure_error msg))
      end
  end.

(** [getEntropy] *)
Definition getEntropy (bytes : Z) : M (GoRet (list byte)) :=
  emit (EvGetEntropyMsgBuilder bytes) ;;
  match snd (getEntropyMsgBuilder bytes) with
  | Some e => ret ([], Some e)
  | None =>
      d <- get_device ;;
      resp <- SendToDevice (dev d) (fst (getEntropyMsgBuilder bytes)) ;;
      match snd resp with
      | Some e => ret ([], Some e)
      | None => with_fuel (fun fuel => processGetEntropyResponse fuel None (fst resp))
      end
  end.

(** [checkProducedFile] *)
Definition checkProducedFile : M (option error) :=
  if negb usingStdout then
    r <- os_Stat outFile ;;
    match r with
    | Failed e => ret (Some e)
    | Got size =>
        if negb (size =? entropyBytes)%Z
        then ret (Some (Errorf_file_size outFile size entropyBytes))
        else ret None
    end
  else ret None.

(** [for wroteBytes < len(buf) { res, err = file.Write(buf[wroteBytes:]); ... }] *)
Fixpoint file_write_loop (fuel : nat) (buf : list byte) (wroteBytes : nat)
  : M (nat * option error) :=
  if Nat.ltb wroteBytes (List.length buf) then
    match fuel with
    | O => ret (wroteBytes, None)
    | S fuel' =>
        r <- file_Write outFile (skipn wroteBytes buf) ;;
        match snd r with
        | Some e => ret (wroteBytes, Some e)
        | None => file_write_loop fuel' buf (wroteBytes + fst r)
        end
    end
  else ret (wroteBytes, None).

(** [processBytes], in its two definitions; the progress bar is display only. *)
Definition processBytes (buf : list byte) : M (option error) :=
  if usingStdout then fmt_Print buf ;; ret None
  else
    r <- file_write_loop (S (List.length buf)) buf 0 ;;
    match snd r with
    | Some e => ret (Some e)
    | None =>
        if negb (Nat.eqb (fst r) (List.length buf))
        then ret (Some (errors_New "invalid bytes amount wrote"))
        else ret None
    end.

(** [for receivedEntropyBytes < entropyBytes { ... }; return checkProducedFile()] *)
Fixpoint entropy_loop (fuel : nat) (receivedEntropyBytes : Z) : M (option error) :=
  if (receivedEntropyBytes <? entropyBytes)%Z then
    match fuel with
    | O => ret (Some ErrEOF)
    | S fuel' =>
        r <- getEntropy (uint32 (entropyBytes - receivedEntropyBytes)) ;;
        match snd r with
        | Some e => ret (Some e)
        | None =>
            err <- processBytes (fst r) ;;
            match err with
            | Some e => ret (Some e)
            | None =>
                entropy_loop fuel'
                  (uint32 (receivedEntropyBytes + uint32 (Z.of_nat (List.length (fst r)))))
            end
        end
    end
  else checkProducedFile.

(** From [d.Connect()] to the end, with the deferred [Disconnect] whose error
    is only logged. *)
Definition entropy_stream : M (option error) :=
  err <- Connect ;;
  match err with
  | Some e => ret (Some e)
  | None =>
      res <- (r <- getEntropy entropyBytes ;;
              match snd r with
              | Some e => ret (Some e)
              | None =>
                  err <- processBytes (fst r) ;;
                  match err with
                  | Some e => ret (Some e)
                  | None =>
                      with_fuel (fun fuel =>
                        entropy_loop fuel (uint32 (Z.of_nat (List.length (fst r)))))
                  end
              end) ;;
      _ <- Disconnect ;;
      ret res
  end.

(** [SaveDeviceEntropyInFile]; the deferred calls run last registered first:
    [Disconnect] (inside [entropy_stream]), [file.Close], [os.Chmod 0444],
    and the [checkProducedFile] that decides whether the bar prints. *)
Definition SaveDeviceEntropyInFile : M (option error) :=
  if usingStdout then entropy_stream
  else
    st <- os_Stat outFile ;;
    (match st with
     | Got _ => _ <- os_Chmod outFile 511 ;; ret tt
     | Failed _ => ret tt
     end) ;;
    cr <- os_Create outFile ;;
    match cr with
    | Some e => _ <- checkProducedFile ;; ret (Some e)
    | None =>
        res <- entropy_stream ;;
        file_Close outFile ;;
        _ <- os_Chmod outFile 292 ;;
        _ <- checkProducedFile ;;
        ret res
    end.

End Entropy.

End Methods.

(** ** The single-handle discipline *)

(** At most one handle is open now, and at every earlier moment. *)
Fixpoint at_most_one_open (log : list Event) : Prop :=
  match log with
  | [] => True
  | e :: t => List.length (live (e :: t)) <= 1 /\ at_most_one_open t
  end.

(** Every open handle is the one the device struct holds. *)
Definition held_only (s : St) : Prop :=
  forall h, In h (live (w_log (snd s))) -> dev (fst s) = Some h.

Definition single_handle (s : St) : Prop :=
  at_most_one_open (w_log (snd s)) /\ held_only s.

(** Every exported method of [Device], with its arguments. *)
Inductive Op :=
| OpClose
| OpConnect
| OpDisconnect
| OpGetUsbInfo
| OpAddressGen (addressN startIndex : Z) (confirmAddress : bool)
| OpSaveDeviceEntropyInFile (outFile : string) (entropyBytes : Z)
    (getEntropyMsgBuilder : Z -> GoRet (list Frame))
| OpApplySettings (usePassphrase : option bool) (label language : string)
| OpBackup
| OpCancel
| OpCheckMessageSignature (message signature address : string)
| OpChangePin (removePin : option bool)
| OpConnected
| OpAvailable
| OpFirmwareUpload (payload hash : list byte)
| OpGetFeatures
| OpGenerateMnemonic (wordCount : Z) (usePassphrase : bool)
| OpRecovery (wordCount : Z) (usePassphrase dryRun : bool)
| OpSetMnemonic (mnemonic : string)
| OpTransactionSign (inputs : list SkycoinTransactionInput)
    (outputs : list SkycoinTransactionOutput)
| OpSignMessage (addressIndex : Z) (message : string)
| OpWipe
| OpButtonAck
| OpPassphraseAck (passphrase : string)
| OpWordAck (word : string)
| OpPinMatrixAck (p : string)
| OpSimulateButtonPress
| OpSetAutoPressButton (press : bool) (simulateButtonType : ButtonType).

(** The state a method leaves behind. *)
Definition run (C : Codec) (op : Op) (s : St) : St :=
  match op with
  | OpClose => snd (Close s)
  | OpConnect => snd (Connect s)
  | OpDisconnect => snd (Disconnect C s)
  | OpGetUsbInfo => snd (GetUsbInfo C s)
  | OpAddressGen n i c => snd (AddressGen C n i c s)
  | OpSaveDeviceEntropyInFile f n b => snd (SaveDeviceEntropyInFile C f n b s)
  | OpApplySettings u l g => snd (ApplySettings C u l g s)
  | OpBackup => snd (Backup C s)
  | OpCancel => snd (Cancel C s)
  | OpCheckMessageSignature m g a => snd (CheckMessageSignature C m g a s)
  | OpChangePin r => snd (ChangePin C r s)
  | OpConnected => snd (Connected C s)
  | OpAvailable => snd (Available s)
  | OpFirmwareUpload p h => snd (FirmwareUpload C p h s)
  | OpGetFeatures => snd (GetFeatures C s)
  | OpGenerateMnemonic w u => snd (GenerateMnemonic C w u s)
  | OpRecovery w u r => snd (Recovery C w u r s)
  | OpSetMnemonic m => snd (SetMnemonic C m s)
  | OpTransactionSign i o => snd (TransactionSign C i o s)
  | OpSignMessage i m => snd (SignMessage C i m s)
  | OpWipe => snd (Wipe C s)
  | OpButtonAck => snd (ButtonAck C s)
  | OpPassphraseAck p => snd (PassphraseAck C p s)
  | OpWordAck w => snd (WordAck C w s)
  | OpPinMatrixAck p => snd (PinMatrixAck C p s)
  | OpSimulateButtonPress => snd (SimulateButtonPress C s)
  | OpSetAutoPressButton p t => snd (SetAutoPressButton p t s)
  end.

(** ** Vocabulary of the proofs *)

(** [preserves P m]: running [m] keeps [P]. *)
Definition preserves (A : Type) (P : St -> Prop) (m : M A) : Prop :=
  forall s, P s -> P (snd (m s)).

(** A world call is quiet when it logs at most one event, which opens nothing. *)
Definition quiet (A : Type) (f : World -> A * World) : Prop :=
  forall w, w_log (snd (f w)) = w_log w \/
            exists e, is_open_event e = false /\ w_log (snd (f w)) = e :: w_log w.

(** ** Vocabulary of the statements *)

(** A run that logs nothing: no call left the process. *)
Definition performs_no_io (A : Type) (m : M A) (s : St) : Prop :=
  w_log (snd (snd (m s))) = w_log (snd s).

(** A run that stops at its argument check: [Connect] comes first (it closes
    the held handle, if any, and asks the driver for a device once); if that
    fails its error is the result; otherwise the result is [invalid] and the
    only further call is the [Close] of the handle just opened. *)
Definition validation_run (m : M (GoRet Message)) (invalid : error) (s : St) : Prop :=
  exists (r : outcome Handle) (pre post : list Event),
    w_log (snd (snd (m s))) = post ++ EvGetDevice r :: pre ++ w_log (snd s) /\
    match dev (fst s) with
    | Some h => exists c, pre = [EvClose h c]
    | None => pre = []
    end /\
    match r with
    | Got h => fst (m s) = (Message_zero, Some invalid) /\ exists c, post = [EvClose h c]
    | Failed e => fst (m s) = (Message_zero, Some e) /\ post = []
    end.

Definition valid_button (t : ButtonType) : bool :=
  ((t =? ButtonLeft) || (t =? ButtonRight) || (t =? ButtonBoth))%Z%bool.

(** A world call is calm when it opens and closes nothing. *)
Definition calm (A : Type) (f : World -> A * World) : Prop :=
  forall w, live (w_log (snd (f w))) = live (w_log w).

(** The device struct is [D] and the open handles are [L]. *)
Definition keeps (D : Device) (L : list Handle) (s : St) : Prop :=
  fst s = D /\ live (w_log (snd s)) = L.

(** The read script is [R]. *)
Definition reads_are (R : list (outcome Message)) (s : St) : Prop :=
  w_reads (snd s) = R.

(** What the read script says about a liveness probe: the leading
    [EntropyRequest] messages are skipped, the entry after them decides. *)
Fixpoint drain_spec (reads : list (outcome Message)) : bool :=
  match reads with
  | Got m :: rest =>
      match Kind m with
      | MessageType_EntropyRequest => drain_spec rest
      | MessageType_Success => true
      | _ => false
      end
  | _ => false
  end.

Definition no_error (o : option error) : bool :=
  match o with
  | None => true
  | Some _ => false
  end.

(** The first [n] writes of the script succeed. *)
Definition writes_succeed (n : nat) (ws : list (option error)) : bool :=
  forallb no_error (firstn n ws).

(** [Connected] in terms of the scripts: a handle is held and open, the probe
    is built and written without error, and the read script drains to a
    [Success] message. *)
Definition Connected_spec (C : Codec) (s : St) : bool :=
  match dev (fst s) with
  | None => false
  | Some h =>
      is_live h (snd s) && no_error (snd (MessageConnected C)) &&
      writes_succeed (List.length (fst (MessageConnected C))) (w_writes (snd s)) &&
      drain_spec (w_reads (snd s))
  end.

(** A world call is monotone when it only adds to the log and never puts
    back a read. *)
Definition monotone (A : Type) (f : World -> A * World) : Prop :=
  forall w, (exists post, w_log (snd (f w)) = post ++ w_log w) /\
            List.length (w_reads (snd (f w))) <= List.length (w_reads w).

(** The log ends with [L] and at most [n] reads are left. *)
Definition after (L : list Event) (n : nat) (s : St) : Prop :=
  (exists post, w_log (snd s) = post ++ L) /\ List.length (w_reads (snd s)) <= n.

(** Started with at most [n] reads left, [m] leaves fewer than [n] whenever
    it returns without error. *)
Definition consumes (A : Type) (n : nat) (m : M (GoRet A)) : Prop :=
  forall s, List.length (w_reads (snd s)) <= n ->
            snd (fst (m s)) = None ->
            List.length (w_reads (snd (snd (m s)))) < n.

(** The rounds of the loop of [Backup], entered with the latest reply [m] in
    state [s]: a reply that is no [ButtonRequest] ends the loop with that
    reply; a [ButtonRequest] is followed by one call of [ButtonAck], whose
    error ends the loop and whose message is the next latest reply.  The last
    index counts the calls of [ButtonAck]. *)
Inductive button_rounds (C : Codec) : Message -> St -> GoRet Message -> St -> nat -> Prop :=
| rounds_final (m : Message) (s : St) :
    Kind m <> MessageType_ButtonRequest ->
    button_rounds C m s (m, None) s 0
| rounds_fail (m : Message) (s : St) (m1 : Message) (e : error) (s1 : St) :
    Kind m = MessageType_ButtonRequest ->
    ButtonAck C s = ((m1, Some e), s1) ->
    button_rounds C m s (Message_zero, Some e) s1 1
| rounds_next (m : Message) (s : St) (m1 : Message) (s1 : St)
              (r : GoRet Message) (s' : St) (n : nat) :
    Kind m = MessageType_ButtonRequest ->
    ButtonAck C s = ((m1, None), s1) ->
    button_rounds C m1 s1 r s' n ->
    button_rounds C m s r s' (S n).

(** The six methods that hand a [ButtonRequest] over to [ButtonAck], with
    arguments that pass their checks ([removePin] is not nil). *)
Inductive ConfirmedOp :=
| CoChangePin (removePin : bool)
| CoGenerateMnemonic (wordCount : Z) (usePassphrase : bool)
| CoRecovery (wordCount : Z) (usePassphrase dryRun : bool)
| CoSetMnemonic (mnemonic : string)
| CoSignMessage (addressIndex : Z) (message : string)
| CoWipe.

Definition confirmed_method (C : Codec) (op : ConfirmedOp) : M (GoRet Message) :=
  match op with
  | CoChangePin b => ChangePin C (Some b)
  | CoGenerateMnemonic w u => GenerateMnemonic C w u
  | CoRecovery w u d => Recovery C w u d
  | CoSetMnemonic m => SetMnemonic C m
  | CoSignMessage i m => SignMessage C i m
  | CoWipe => Wipe C
  end.

(** The chunks of the request of each of them. *)
Definition confirmed_chunks (C : Codec) (op : ConfirmedOp) : GoRet (list Frame) :=
  match op with
  | CoChangePin b => MessageChangePin C (Some b)
  | CoGenerateMnemonic w u => MessageGenerateMnemonic C w u
  | CoRecovery w u d => MessageRecovery C w u d
  | CoSetMnemonic m => MessageSetMnemonic C m
  | CoSignMessage i m => MessageSignMessage C i m
  | CoWipe => MessageWipe C
  end.

Definition word_count_ok (op : ConfirmedOp) : bool :=
  match op with
  | CoGenerateMnemonic w _ | CoRecovery w _ _ => ((w =? 12) || (w =? 24))%Z%bool
  | _ => true
  end.

(** *** The entropy stream *)

(** The byte counts the caller's builder was asked for, oldest first. *)
Fixpoint requested (log : list Event) : list Z :=
  match log with
  | [] => []
  | EvGetEntropyMsgBuilder n :: t => requested t ++ [n]
  | _ :: t => requested t
  end.

(** The buffers that reached the sink, oldest first: printed on standard
    output, or written to a file without error. *)
Fixpoint sunk (log : list Event) : list (list byte) :=
  match log with
  | [] => []
  | EvPrint buf :: t => sunk t ++ [buf]
  | EvFileWrite _ buf None :: t => sunk t ++ [buf]
  | _ :: t => sunk t
  end.

Definition len (p : list byte) : Z := Z.of_nat (List.length p).

(** The counts still missing before each of the payloads [ps], when [R] are
    missing before the first of them. *)
Fixpoint remaining (R : Z) (ps : list (list byte)) : list Z :=
  match ps with
  | [] => []
  | p :: rest => R :: remaining (R - len p) rest
  end.

(** With [R] bytes missing, each of the payloads [ps] arrives while bytes are
    still missing, and the last one brings the missing count to exactly 0. *)
Fixpoint still_needed (R : Z) (ps : list (list byte)) : bool :=
  match ps with
  | [] => (R =? 0)%Z
  | p :: rest => ((0 <? R)%Z && still_needed (R - len p) rest)%bool
  end.

(** The replies [ps] to a stream of [T] bytes: there is a first one (the
    first request is sent whatever [T] is), each later one arrives while
    bytes are still missing, and together they bring exactly [T] bytes. *)
Definition exact_rounds (T : Z) (ps : list (list byte)) : bool :=
  match ps with
  | [] => false
  | p :: rest => still_needed (T - len p) rest
  end.

Definition nonempty (p : list byte) : bool :=
  match p with
  | [] => false
  | _ :: _ => true
  end.

(** What the sink sees of the payloads: standard output gets a [fmt.Print]
    for each; a file gets no [Write] for an empty one. *)
Definition sink_view (outFile : string) (ps : list (list byte)) : list (list byte) :=
  if usingStdout outFile then ps else filter nonempty ps.

(** The parts of the world the transport never touches, with a write script
    that has no error left. *)
Definition sink_frame (F : list (option error)) (FS : string -> option File)
           (K : list (list byte)) (Q : list Z) (s : St) : Prop :=
  w_writes (snd s) = [] /\ w_faults (snd s) = F /\ w_files (snd s) = FS /\
  sunk (w_log (snd s)) = K /\ requested (w_log (snd s)) = Q.

Definition transport_only (A : Type) (f : World -> A * World) : Prop :=
  forall w, w_writes w = [] ->
    w_writes (snd (f w)) = [] /\ w_faults (snd (f w)) = w_faults w /\
    w_files (snd (f w)) = w_files w /\
    sunk (w_log (snd (f w))) = sunk (w_log w) /\
    requested (w_log (snd (f w))) = requested (w_log w).

(** A reply that carries entropy: its kind is [Entropy] and it decodes. *)
Definition entropy_reply (C : Codec) (m : Message) : Prop :=
  Kind m = MessageType_Entropy /\ snd (DecodeResponseEntropyMessage C m) = None.

Definition payload (C : Codec) (m : Message) : list byte :=
  fst (DecodeResponseEntropyMessage C m).

(** The state between two rounds of the stream: the handle [h] is held and
    open, no error is scripted for the writes or the file system, the replies
    [R] are ahead, and (for a file sink) the file holds [data]. *)
Definition streaming (outFile : string) (h : Handle) (R : list (outcome Message))
           (data : list byte) (s : St) : Prop :=
  dev (fst s) = Some h /\ is_live h (snd s) = true /\
  w_writes (snd s) = [] /\ w_faults (snd s) = [] /\ w_reads (snd s) = R /\
  (usingStdout outFile = false ->
   exists mode, w_files (snd s) outFile = Some {| f_data := data; f_mode := mode |}).

(** The methods that open a device for one request and are done with it
    when they return.  [FirmwareUpload] opens one only on a USB driver. *)
Definition releases (op : Op) (s : St) : bool :=
  match op with
  | OpAddressGen _ _ _ | OpApplySettings _ _ _ | OpBackup | OpCancel
  | OpCheckMessageSignature _ _ _ | OpChangePin _ | OpGetFeatures
  | OpGenerateMnemonic _ _ | OpRecovery _ _ _ | OpSetMnemonic _
  | OpTransactionSign _ _ | OpSignMessage _ _ | OpWipe | OpButtonAck
  | OpPassphraseAck _ | OpWordAck _ | OpPinMatrixAck _ => true
  | OpFirmwareUpload _ _ => DeviceType_eqb (Driver (fst s)) DeviceTypeUSB
  | _ => false
  end.

(** The frames handed to [dev.Write], oldest first. *)
Fixpoint written (log : list Event) : list Frame :=
  match log with
  | [] => []
  | EvWrite _ f _ :: t => written t ++ [f]
  | _ :: t => written t
  end.




(** The frame of the simulated button press, when simulation is on. *)
Definition press_frames (C : Codec) (d : Device) : list Frame :=
  if simulateButtonPress d
  then [fst (MessageSimulateButtonPress C (simulateButtonType d))]
  else [].

(** The nine methods that send one request and return its reply, with
    arguments that pass their checks ([usePassphrase] is not nil). *)
Inductive PlainOp :=
| PoAddressGen (addressN startIndex : Z) (confirmAddress : bool)
| PoApplySettings (usePassphrase : bool) (label language : string)
| PoCancel
| PoCheckMessageSignature (message signature address : string)
| PoGetFeatures
| PoTransactionSign (inputs : list SkycoinTransactionInput)
    (outputs : list SkycoinTransactionOutput)
| PoPassphraseAck (passphrase : string)
| PoWordAck (word : string)
| PoPinMatrixAck (p : string).

Definition plain_method (C : Codec) (op : PlainOp) : M (GoRet Message) :=
  match op with
  | PoAddressGen n i c => AddressGen C n i c
  | PoApplySettings u l g => ApplySettings C (Some u) l g
  | PoCancel => Cancel C
  | PoCheckMessageSignature m g a => CheckMessageSignature C m g a
  | PoGetFeatures => GetFeatures C
  | PoTransactionSign i o => TransactionSign C i o
  | PoPassphraseAck p => PassphraseAck C p
  | PoWordAck w => WordAck C w
  | PoPinMatrixAck p => PinMatrixAck C p
  end.

Definition plain_chunks (C : Codec) (op : PlainOp) : GoRet (list Frame) :=
  match op with
  | PoAddressGen n i c => MessageAddressGen C n i c
  | PoApplySettings u l g => MessageApplySettings C (Some u) l g
  | PoCancel => MessageCancel C
  | PoCheckMessageSignature m g a => MessageCheckMessageSignature C m g a
  | PoGetFeatures => MessageGetFeatures C
  | PoTransactionSign i o => MessageTransactionSign C i o
  | PoPassphraseAck p => MessagePassphraseAck C p
  | PoWordAck w => MessageWordAck C w
  | PoPinMatrixAck p => MessagePinMatrixAck C p
  end.

Definition address_count_ok (op : PlainOp) : bool :=
  match op with
  | PoAddressGen n _ _ => negb (n =? 0)%Z
  | _ => true
  end.

(** With [R] bytes missing, each of the payloads [ps] arrives while bytes are
    still missing, and bytes are still missing after the last of them. *)
Fixpoint short_rounds (R : Z) (ps : list (list byte)) : bool :=
  match ps with
  | [] => (0 <? R)%Z
  | p :: rest => ((0 <? R)%Z && short_rounds (R - len p) rest)%bool
  end.

(** The replies [ps] that open a stream of [T] bytes and leave it
    unfinished: after each of them one more request is due. *)
Definition partial_rounds (T : Z) (ps : list (list byte)) : bool :=
  match ps with
  | [] => true
  | p :: rest => short_rounds (T - len p) rest
  end.

(** The frames written so far begin with [W]. *)
Definition writes_begin (W : list Frame) (s : St) : Prop :=
  exists tail, written (w_log (snd s)) = W ++ tail.

(** ** A mock codec and sample worlds, for the concrete runs *)

Module Mock.

Definition tag (b : byte) : GoRet (list Frame) := ([[b]], None).

Definition codec : Codec :=
  {| MessageAddressGen := fun _ _ _ => tag Byte.x01;
     MessageApplySettings := fun _ _ _ => tag Byte.x02;
     MessageBackup := tag Byte.x03;
     MessageButtonAck := tag Byte.x04;
     MessageCancel := tag Byte.x05;
     MessageCheckMessageSignature := fun _ _ _ => tag Byte.x06;
     MessageChangePin := fun _ => tag Byte.x07;
     MessageConnected := tag Byte.x08;
     MessageEntropyAck := fun _ => tag Byte.x09;
     MessageFirmwareErase := fun _ => tag Byte.x10;
     MessageFirmwareUpload := fun payload _ => ([[Byte.x11]; payload], None);
     MessageGetFeatures := tag Byte.x12;
     MessageGenerateMnemonic := fun _ _ => tag Byte.x13;
     MessageInitialize := tag Byte.x14;
     MessageRecovery := fun _ _ _ => tag Byte.x15;
     MessageSetMnemonic := fun _ => tag Byte.x16;
     MessageSignMessage := fun _ _ => tag Byte.x17;
     MessageTransactionSign := fun _ _ => tag Byte.x18;
     MessageWipe := tag Byte.x19;
     MessagePassphraseAck := fun _ => tag Byte.x20;
     MessageWordAck := fun _ => tag Byte.x21;
     MessagePinMatrixAck := fun _ => tag Byte.x22;
     MessageSimulateButtonPress := fun _ => ([Byte.x23], None);
     DecodeFailMsg := fun m => (string_of_list_byte (Data m), None);
     DecodeResponseEntropyMessage := fun m => (Data m, None) |}.

(** A world with nothing in its log, the given read script, and no fault. *)
Definition world (reads : list (outcome Message)) : World :=
  {| w_log := []; w_opens := []; w_writes := []; w_reads := reads; w_closes := [];
     w_infos := Got [0]; w_faults := []; w_files := fun _ => None |}.

Definition msg (k : MessageType) (data : string) : Message :=
  {| Kind := k; Data := list_byte_of_string data |}.

Definition usb (reads : list (outcome Message)) : St :=
  (NewDevice DeviceTypeUSB, world reads).

Definition emulator (reads : list (outcome Message)) : St :=
  (NewDevice DeviceTypeEmulator, world reads).

(** The same with a script for the writes and one for the opens. *)
Definition world_with (opens writes : list (option error)) (reads : list (outcome Message))
  : World :=
  {| w_log := []; w_opens := opens; w_writes := writes; w_reads := reads; w_closes := [];
     w_infos := Got [0]; w_faults := []; w_files := fun _ => None |}.

(** The events of a run, oldest first. *)
Definition trace {A : Type} (r : A * St) : list Event := rev (w_log (snd (snd r))).

End Mock.

(** * Proofs *)

(** ** The monad *)

Lemma bind_eq (A B : Type) (m : M A) (k : A -> M B) (s : St) :
  bind m k s = k (fst (m s)) (snd (m s)).
Proof. reflexivity. Qed.


Lemma preserves_ret (A : Type) (P : St -> Prop) (a : A) : preserves P (ret a).
Proof. intros s H; exact H. Qed.

Lemma preserves_bind (A B : Type) (P : St -> Prop) (m : M A) (k : A -> M B) :
  preserves P m -> (forall a, preserves P (k a)) -> preserves P (bind m k).
Proof.
  intros Hm Hk s H. rewrite bind_eq.
  apply Hk, Hm, H.
Qed.

Lemma preserves_get_device (P : St -> Prop) : preserves P get_device.
Proof. intros s H; exact H. Qed.

Lemma preserves_with_fuel (A : Type) (P : St -> Prop) (f : nat -> M A) :
  (forall fuel, preserves P (f fuel)) -> preserves P (with_fuel f).
Proof. intros Hf s H. unfold with_fuel. apply Hf, H. Qed.

Create HintDb pres.
#[export] Hint Resolve preserves_ret preserves_get_device : pres.

(** Walks down a method: binds, branches, and the lemmas of [pres]. *)
Ltac pres :=
  repeat first
    [ solve [ auto with pres ]
    | apply preserves_bind; [ | intros ? ]
    | apply preserves_with_fuel; intros ?
    | match goal with
      | |- preserves _ (match ?x with _ => _ end) => destruct x
      end ].

(** ** Open handles *)

Lemma filter_length_le_live (f : Handle -> bool) (l : list Handle) :
  List.length (filter f l) <= List.length l.
Proof.
  induction l as [|x l IH]; simpl; [lia|].
  destruct (f x); simpl; lia.
Qed.

Lemma live_quiet_length (e : Event) (log : list Event) :
  is_open_event e = false -> List.length (live (e :: log)) <= List.length (live log).
Proof.
  destruct e as [[h|err]| | | | | | | | | | | | | |]; simpl; intros H;
    try discriminate; try lia.
  apply filter_length_le_live.
Qed.

Lemma live_quiet_In (e : Event) (log : list Event) (h : Handle) :
  is_open_event e = false -> In h (live (e :: log)) -> In h (live log).
Proof.
  destruct e as [[h'|err]| | | | | | | | | | | | | |]; simpl; intros H Hin;
    try discriminate; try exact Hin.
  apply filter_In in Hin. tauto.
Qed.

Lemma at_most_one_now (log : list Event) :
  at_most_one_open log -> List.length (live log) <= 1.
Proof. destruct log; simpl; [lia | tauto]. Qed.

(** A step that logs one event which opens nothing, and leaves [dev] alone,
    keeps the discipline. *)
Lemma single_handle_quiet (d d' : Device) (w w' : World) (e : Event) :
  single_handle (d, w) ->
  is_open_event e = false ->
  w_log w' = e :: w_log w ->
  dev d' = dev d ->
  single_handle (d', w').
Proof.
  intros [Hhist Hheld] He Hlog Hdev. split; simpl in *.
  - rewrite Hlog. simpl. split; [|exact Hhist].
    pose proof (live_quiet_length e (w_log w) He) as Hle.
    pose proof (at_most_one_now _ Hhist). simpl in Hle. lia.
  - intros h Hin. unfold held_only in Hheld. simpl in *. rewrite Hlog in Hin.
    rewrite Hdev. apply Hheld. eapply live_quiet_In; eauto.
Qed.

Lemma single_handle_same_log (d d' : Device) (w w' : World) :
  single_handle (d, w) -> w_log w' = w_log w -> dev d' = dev d ->
  single_handle (d', w').
Proof.
  intros [Hhist Hheld] Hlog Hdev. split; simpl in *.
  - rewrite Hlog. exact Hhist.
  - intros h Hin. unfold held_only in Hheld. simpl in *. rewrite Hlog in Hin.
    rewrite Hdev. apply Hheld, Hin.
Qed.


Lemma preserves_lift_quiet (A : Type) (f : World -> A * World) :
  quiet f -> preserves single_handle (lift f).
Proof.
  intros Hq [d w] H. unfold lift; simpl.
  destruct (Hq w) as [Hsame | [e [He Hlog]]].
  - eapply single_handle_same_log; eauto.
  - eapply single_handle_quiet; eauto.
Qed.

Ltac quiet_step :=
  first [ left; reflexivity | right; eexists; split; [ | reflexivity ]; reflexivity ].

Lemma quiet_Write (h : Handle) (f : Frame) : quiet (world_Write h f).
Proof.
  intros w. unfold world_Write.
  destruct (is_live h w); [destruct (w_writes w)|]; simpl; quiet_step.
Qed.

Lemma quiet_Read (h : Handle) : quiet (world_Read h).
Proof.
  intros w. unfold world_Read.
  destruct (is_live h w); [destruct (w_reads w)|]; simpl; quiet_step.
Qed.

Lemma quiet_Close (h : Handle) : quiet (world_Close h).
Proof.
  intros w. unfold world_Close.
  destruct (is_live h w); [destruct (w_closes w)|]; simpl; quiet_step.
Qed.

Lemma preserves_emit (e : Event) :
  is_open_event e = false -> preserves single_handle (emit e).
Proof.
  intros He. apply preserves_lift_quiet. intros w. right. exists e. auto.
Qed.

Lemma preserves_dev_Write (o : option Handle) (f : Frame) :
  preserves single_handle (dev_Write o f).
Proof.
  destruct o; simpl.
  - apply preserves_lift_quiet, quiet_Write.
  - apply preserves_bind; [apply preserves_emit; reflexivity | intros; apply preserves_ret].
Qed.

Lemma preserves_dev_Close (o : option Handle) :
  preserves single_handle (dev_Close o).
Proof.
  destruct o; simpl.
  - apply preserves_lift_quiet, quiet_Close.
  - apply preserves_bind; [apply preserves_emit; reflexivity | intros; apply preserves_ret].
Qed.

Lemma preserves_wire_ReadFrom (o : option Handle) :
  preserves single_handle (wire_ReadFrom o).
Proof.
  destruct o; simpl.
  - apply preserves_bind; [apply preserves_lift_quiet, quiet_Read|].
    intros [m|e]; apply preserves_ret.
  - apply preserves_bind; [apply preserves_emit; reflexivity | intros; apply preserves_ret].
Qed.

Lemma preserves_GetDeviceInfos : preserves single_handle Driver_GetDeviceInfos.
Proof.
  apply preserves_lift_quiet. intros w. right. eexists. split; [|reflexivity]. reflexivity.
Qed.

Lemma preserves_set_simulateButtonPress (b : bool) :
  preserves single_handle (set_simulateButtonPress b).
Proof. intros [d w] H. eapply single_handle_same_log; eauto. Qed.

Lemma preserves_set_simulateButtonType (t : ButtonType) :
  preserves single_handle (set_simulateButtonType t).
Proof. intros [d w] H. eapply single_handle_same_log; eauto. Qed.

Lemma preserves_os_Stat (path : string) : preserves single_handle (os_Stat path).
Proof.
  apply preserves_lift_quiet. intros w.
  destruct (w_faults w) as [|[e|] t]; simpl; quiet_step.
Qed.

Lemma preserves_os_Chmod (path : string) (mode : Z) :
  preserves single_handle (os_Chmod path mode).
Proof.
  apply preserves_lift_quiet. intros w.
  destruct (w_faults w) as [|[e|] t]; simpl; destruct (w_files w path); simpl; quiet_step.
Qed.

Lemma preserves_os_Create (path : string) : preserves single_handle (os_Create path).
Proof.
  apply preserves_lift_quiet. intros w.
  destruct (w_faults w) as [|[e|] t]; simpl; destruct (w_files w path) as [f|]; simpl;
    try destruct (Z.land (f_mode f) 128 =? 0)%Z; simpl; quiet_step.
Qed.

Lemma preserves_file_Write (path : string) (buf : list byte) :
  preserves single_handle (file_Write path buf).
Proof.
  apply preserves_lift_quiet. intros w.
  destruct (w_faults w) as [|[e|] t]; simpl; destruct (w_files w path); simpl; quiet_step.
Qed.

Lemma preserves_file_Close (path : string) : preserves single_handle (file_Close path).
Proof. apply preserves_emit. reflexivity. Qed.

Lemma preserves_fmt_Print (buf : list byte) : preserves single_handle (fmt_Print buf).
Proof. apply preserves_emit. reflexivity. Qed.

#[export] Hint Resolve preserves_dev_Write preserves_dev_Close preserves_wire_ReadFrom
  preserves_GetDeviceInfos preserves_set_simulateButtonPress
  preserves_set_simulateButtonType preserves_os_Stat preserves_os_Chmod
  preserves_os_Create preserves_file_Write preserves_file_Close preserves_fmt_Print : pres.

Lemma preserves_write_chunks (o : option Handle) (chunks : list Frame) :
  preserves single_handle (write_chunks o chunks).
Proof. induction chunks; simpl; pres. Qed.

Lemma preserves_write_each (o : option Handle) (chunks : list Frame) :
  preserves single_handle (write_each o chunks).
Proof. induction chunks; simpl; pres. Qed.

#[export] Hint Resolve preserves_write_chunks preserves_write_each : pres.

Lemma preserves_SendToDevice (o : option Handle) (chunks : list Frame) :
  preserves single_handle (SendToDevice o chunks).
Proof. unfold SendToDevice; pres. Qed.

Lemma preserves_sendToDeviceNoAnswer (o : option Handle) (chunks : list Frame) :
  preserves single_handle (sendToDeviceNoAnswer o chunks).
Proof. unfold sendToDeviceNoAnswer; pres. Qed.

#[export] Hint Resolve preserves_SendToDevice preserves_sendToDeviceNoAnswer : pres.

(** ** [Connect] *)

(** What [Connect] does: it closes the held handle if there is one, asks the
    driver for a device exactly once, and holds the handle it got. *)
Lemma Connect_log (s : St) :
  exists (r : outcome Handle) (pre : list Event),
    w_log (snd (snd (Connect s))) = EvGetDevice r :: pre ++ w_log (snd s) /\
    match dev (fst s) with
    | Some h => exists c, pre = [EvClose h c]
    | None => pre = []
    end /\
    dev (fst (snd (Connect s))) = match r with Got h => Some h | Failed _ => None end /\
    fst (Connect s) = match r with Got _ => None | Failed e => Some e end.
Proof.
  destruct s as [[dt [h|] sp st] w];
    unfold Connect, bind, get_device, dev_Close, lift, set_dev, Driver_GetDevice,
      world_GetDevice, world_Close, ret; simpl.
  - destruct (is_live h w); [destruct (w_closes w) as [|c cs]|]; simpl;
      destruct (w_opens w) as [|[e|] os]; simpl;
      eexists; eexists [EvClose h _];
      (split; [reflexivity|split; [eexists; reflexivity|split; reflexivity]]).
  - destruct (w_opens w) as [|[e|] os]; simpl;
      eexists; exists [];
      (split; [reflexivity|split; [reflexivity|split; reflexivity]]).
Qed.

Lemma held_only_closed (d : Device) (w : World) (h : Handle) :
  held_only (d, w) -> dev d = Some h ->
  filter (fun x => negb (Nat.eqb h x)) (live (w_log w)) = [].
Proof.
  intros Hheld Hd.
  assert (Hall : forall x, In x (live (w_log w)) -> x = h).
  { intros x Hin. specialize (Hheld x Hin). simpl in Hheld. congruence. }
  induction (live (w_log w)) as [|x l IH]; simpl; [reflexivity|].
  rewrite (Hall x (or_introl eq_refl)), Nat.eqb_refl. simpl.
  apply IH. intros y Hy. apply Hall. right; exact Hy.
Qed.

Lemma held_only_none (d : Device) (w : World) :
  held_only (d, w) -> dev d = None -> live (w_log w) = [].
Proof.
  intros Hheld Hd. destruct (live (w_log w)) as [|x l] eqn:E; [reflexivity|].
  specialize (Hheld x). simpl in Hheld. rewrite E in Hheld.
  specialize (Hheld (or_introl eq_refl)). congruence.
Qed.

(** Under the discipline, the handle [Connect] holds is the only open one. *)
Lemma Connect_live (s : St) :
  single_handle s ->
  single_handle (snd (Connect s)) /\
  live (w_log (snd (snd (Connect s)))) =
    match dev (fst (snd (Connect s))) with Some h => [h] | None => [] end.
Proof.
  intros Hs.
  destruct (Connect_log s) as [r [pre [Hlog [Hpre [Hdev Hret]]]]].
  destruct s as [d w]. destruct Hs as [Hhist Hheld]. simpl in *.
  assert (Hmid : live (pre ++ w_log w) = [] /\ at_most_one_open (pre ++ w_log w)).
  { destruct (dev d) as [h|] eqn:Ed.
    - destruct Hpre as [c ->]. simpl.
      rewrite (held_only_closed Hheld Ed). simpl. repeat split; auto.
    - subst pre. simpl. split; [eapply held_only_none; eauto | exact Hhist]. }
  destruct Hmid as [Hnone Hhist'].
  assert (Hlive : live (w_log (snd (snd (Connect (d, w))))) =
                  match dev (fst (snd (Connect (d, w)))) with Some h => [h] | None => [] end).
  { rewrite Hlog, Hdev. destruct r; simpl; rewrite Hnone; reflexivity. }
  split; [split|exact Hlive].
  - rewrite Hlog. simpl. split; [|exact Hhist'].
    destruct r; simpl; rewrite Hnone; simpl; lia.
  - intros h Hin. simpl in *. rewrite Hlive in Hin.
    destruct (dev (fst (snd (Connect (d, w))))); simpl in Hin; [|tauto].
    destruct Hin as [->|[]]. reflexivity.
Qed.

Lemma preserves_Connect : preserves single_handle Connect.
Proof. intros s H. apply Connect_live, H. Qed.

#[export] Hint Resolve preserves_Connect : pres.

(** ** Every method keeps the discipline *)

Section Discipline.

Variable C : Codec.

Lemma preserves_entropy_ack_goroutine :
  preserves single_handle (entropy_ack_goroutine C).
Proof. unfold entropy_ack_goroutine; pres. Qed.

Hint Resolve preserves_entropy_ack_goroutine : pres.

Lemma preserves_Connected_drain (fuel : nat) (msg : Message) :
  preserves single_handle (Connected_drain C fuel msg).
Proof.
  revert msg. induction fuel as [|fuel IH]; intros msg; simpl; pres.
Qed.

Hint Resolve preserves_Connected_drain : pres.

Lemma preserves_Connected : preserves single_handle (Connected C).
Proof. unfold Connected; pres. Qed.

Hint Resolve preserves_Connected : pres.

Lemma preserves_Disconnect : preserves single_handle (Disconnect C).
Proof. unfold Disconnect; pres. Qed.

Hint Resolve preserves_Disconnect : pres.

Lemma preserves_plain_request (invalid : option error) (build : GoRet (list Frame)) :
  preserves single_handle (plain_request invalid build).
Proof. unfold plain_request; pres. Qed.

Lemma preserves_SimulateButtonPress : preserves single_handle (SimulateButtonPress C).
Proof. unfold SimulateButtonPress; pres. Qed.

Hint Resolve preserves_plain_request preserves_SimulateButtonPress : pres.

Lemma preserves_ButtonAck_drain (fuel : nat) (msg : Message) :
  preserves single_handle (ButtonAck_drain C fuel msg).
Proof.
  revert msg. induction fuel as [|fuel IH]; intros msg; simpl; pres.
Qed.

Hint Resolve preserves_ButtonAck_drain : pres.

Lemma preserves_ButtonAck : preserves single_handle (ButtonAck C).
Proof. unfold ButtonAck; pres. Qed.

Hint Resolve preserves_ButtonAck : pres.

Lemma preserves_close_unless (A : Type) (rd : A * bool) :
  preserves single_handle (close_unless rd).
Proof. unfold close_unless; pres. Qed.

Hint Resolve preserves_close_unless : pres.

Lemma preserves_Backup_loop (fuel : nat) (msg : Message) (disconnected : bool) :
  preserves single_handle (Backup_loop C fuel msg disconnected).
Proof.
  revert msg disconnected.
  induction fuel as [|fuel IH]; intros msg disconnected; simpl; pres.
Qed.

Hint Resolve preserves_Backup_loop : pres.

Lemma preserves_Backup : preserves single_handle (Backup C).
Proof. unfold Backup; pres. Qed.

Lemma preserves_confirmed_request (keep_msg : bool) (invalid : option error)
      (build : GoRet (list Frame)) :
  preserves single_handle (confirmed_request C keep_msg invalid build).
Proof. unfold confirmed_request; pres. Qed.

Lemma preserves_Initialize (o : option Handle) : preserves single_handle (Initialize C o).
Proof. unfold Initialize; pres. Qed.

Hint Resolve preserves_Initialize : pres.

Lemma preserves_FirmwareUpload (payload hash : list byte) :
  preserves single_handle (FirmwareUpload C payload hash).
Proof. unfold FirmwareUpload, FirmwareUpload_upload; pres. Qed.

Lemma preserves_SetAutoPressButton (press : bool) (t : ButtonType) :
  preserves single_handle (SetAutoPressButton press t).
Proof. unfold SetAutoPressButton; pres. Qed.

Lemma preserves_GetUsbInfo : preserves single_handle (GetUsbInfo C).
Proof. unfold GetUsbInfo; pres. Qed.

Lemma preserves_Available : preserves single_handle Available.
Proof. unfold Available; pres. Qed.

Section EntropyDiscipline.

Variable outFile : string.
Variable entropyBytes : Z.
Variable getEntropyMsgBuilder : Z -> GoRet (list Frame).

Lemma preserves_processGetEntropyResponse (fuel : nat) (err : option error) (msg : Message) :
  preserves single_handle (processGetEntropyResponse C fuel err msg).
Proof.
  revert msg. induction fuel as [|fuel IH]; intros msg; simpl; pres.
Qed.

Hint Resolve preserves_processGetEntropyResponse : pres.

Lemma preserves_getEntropy (bytes : Z) :
  preserves single_handle (getEntropy C getEntropyMsgBuilder bytes).
Proof.
  unfold getEntropy. apply preserves_bind; [apply preserves_emit; reflexivity|].
  intros _. pres.
Qed.

Lemma preserves_checkProducedFile :
  preserves single_handle (checkProducedFile outFile entropyBytes).
Proof. unfold checkProducedFile; pres. Qed.

Lemma preserves_file_write_loop (fuel : nat) (buf : list byte) (wroteBytes : nat) :
  preserves single_handle (file_write_loop outFile fuel buf wroteBytes).
Proof.
  revert wroteBytes. induction fuel as [|fuel IH]; intros wroteBytes; simpl; pres.
Qed.

Hint Resolve preserves_getEntropy preserves_checkProducedFile
  preserves_file_write_loop : pres.

Lemma preserves_processBytes (buf : list byte) :
  preserves single_handle (processBytes outFile buf).
Proof. unfold processBytes; pres. Qed.

Hint Resolve preserves_processBytes : pres.

Lemma preserves_entropy_loop (fuel : nat) (received : Z) :
  preserves single_handle
    (entropy_loop C outFile entropyBytes getEntropyMsgBuilder fuel received).
Proof.
  revert received. induction fuel as [|fuel IH]; intros received; simpl; pres.
Qed.

Hint Resolve preserves_entropy_loop : pres.

Lemma preserves_SaveDeviceEntropyInFile :
  preserves single_handle
    (SaveDeviceEntropyInFile C outFile entropyBytes getEntropyMsgBuilder).
Proof. unfold SaveDeviceEntropyInFile, entropy_stream; pres. Qed.

End EntropyDiscipline.

End Discipline.

(** ** Argument checks *)

Lemma plain_request_invalid (e : error) (build : GoRet (list Frame)) (s : St) :
  plain_request (Some e) build s =
  match fst (Connect s) with
  | Some e' => ((Message_zero, Some e'), snd (Connect s))
  | None => ((Message_zero, Some e),
             snd (dev_Close (dev (fst (snd (Connect s)))) (snd (Connect s))))
  end.
Proof.
  unfold plain_request. rewrite bind_eq. destruct (fst (Connect s)); reflexivity.
Qed.

Lemma confirmed_request_invalid (C : Codec) (keep : bool) (e : error)
      (build : GoRet (list Frame)) (s : St) :
  confirmed_request C keep (Some e) build s =
  match fst (Connect s) with
  | Some e' => ((Message_zero, Some e'), snd (Connect s))
  | None => ((Message_zero, Some e),
             snd (dev_Close (dev (fst (snd (Connect s)))) (snd (Connect s))))
  end.
Proof.
  unfold confirmed_request. rewrite bind_eq. destruct (fst (Connect s)); reflexivity.
Qed.

Lemma dev_Close_log (h : Handle) (s : St) :
  exists c, w_log (snd (snd (dev_Close (Some h) s))) = EvClose h c :: w_log (snd s).
Proof.
  destruct s as [d w]. unfold dev_Close, lift, world_Close. simpl.
  destruct (is_live h w); [destruct (w_closes w)|]; simpl; eexists; reflexivity.
Qed.

Lemma validation_run_intro (m : M (GoRet Message)) (invalid : error) (s : St) :
  m s = match fst (Connect s) with
        | Some e' => ((Message_zero, Some e'), snd (Connect s))
        | None => ((Message_zero, Some invalid),
                   snd (dev_Close (dev (fst (snd (Connect s)))) (snd (Connect s))))
        end ->
  validation_run m invalid s.
Proof.
  intros Hm. destruct (Connect_log s) as [r [pre [Hlog [Hpre [Hdev Hret]]]]].
  unfold validation_run. rewrite Hm, Hret.
  destruct r as [h|e]; simpl.
  - rewrite Hdev. destruct (dev_Close_log h (snd (Connect s))) as [c Hc].
    exists (Got h), pre, [EvClose h c]. rewrite Hc, Hlog. simpl.
    split; [reflexivity|]. split; [exact Hpre|]. split; [reflexivity|]. eexists; reflexivity.
  - exists (Failed e), pre, []. simpl. auto.
Qed.

(** C1, amended: with [addressN = 0] ([AddressGen]) or a nil [removePin]
    ([ChangePin]) the method first calls [Connect], which closes the handle
    held so far and asks the driver for a device.  When that fails, the error
    of [Connect] is returned.  When it succeeds, [ErrAddressNZero] (resp.
    [ErrRemovePinNil]) is returned, no frame is written or read, and the
    handle just opened is closed. *)
Theorem validation_after_Connect (C : Codec) (startIndex : Z) (confirmAddress : bool)
        (s : St) :
  validation_run (AddressGen C 0 startIndex confirmAddress) ErrAddressNZero s /\
  validation_run (ChangePin C None) ErrRemovePinNil s.
Proof.
  split; apply validation_run_intro.
  - unfold AddressGen. simpl. apply plain_request_invalid.
  - unfold ChangePin. apply confirmed_request_invalid.
Qed.

(** C1 as stated fails: on a fresh device, [AddressGen(0, 0, false)] and
    [ChangePin(nil)] return their validation error, but only after a device
    was opened and closed again. *)
Lemma validation_opens_connection :
  Mock.trace (AddressGen Mock.codec 0 0 false (Mock.usb [])) =
    [EvGetDevice (Got 0); EvClose 0 None] /\
  Mock.trace (ChangePin Mock.codec None (Mock.usb [])) =
    [EvGetDevice (Got 0); EvClose 0 None] /\
  ~ performs_no_io (AddressGen Mock.codec 0 0 false) (Mock.usb []) /\
  ~ performs_no_io (ChangePin Mock.codec None) (Mock.usb []).
Proof.
  repeat split; try reflexivity; unfold performs_no_io; vm_compute; discriminate.
Qed.

(** ** [SetAutoPressButton] *)

(** C9, amended: [SetAutoPressButton] returns an error exactly when the
    driver is the emulator, simulation is being switched on, and the button
    kind is none of Left, Right, Both; in every other call (a USB driver, or
    simulation switched off) an invalid kind is accepted without error.  No
    call touches the transport: the world is left as it was, and so is the
    held handle. *)
Theorem SetAutoPressButton_validation (press : bool) (t : ButtonType) (s : St) :
  fst (SetAutoPressButton press t s) =
    (if (DeviceType_eqb (Driver (fst s)) DeviceTypeEmulator && press
         && negb (valid_button t))%bool
     then Some (Errorf_invalid_button_type t) else None) /\
  snd (snd (SetAutoPressButton press t s)) = snd s /\
  dev (fst (snd (SetAutoPressButton press t s))) = dev (fst s).
Proof.
  destruct s as [[dt h sp st] w].
  unfold SetAutoPressButton, valid_button, bind, get_device; simpl.
  destruct dt; simpl; auto.
  destruct press; simpl; auto.
  destruct ((t =? ButtonLeft)%Z || (t =? ButtonRight)%Z || (t =? ButtonBoth)%Z)%bool;
    simpl; auto.
Qed.

(** C9 as stated fails: button kind 7 is invalid, yet a USB device accepts it
    without error, and so does an emulator when simulation is switched off. *)
Lemma SetAutoPressButton_invalid_accepted :
  valid_button 7%Z = false /\
  fst (SetAutoPressButton true 7%Z (Mock.usb [])) = None /\
  fst (SetAutoPressButton false 7%Z (Mock.emulator [])) = None.
Proof. repeat split. Qed.

(** ** The single-handle discipline, for every method *)

Lemma run_single_handle (C : Codec) (op : Op) : forall s, single_handle s -> single_handle (run C op s).
Proof.
  destruct op; simpl; intros s H;
    first
      [ apply preserves_Connect; exact H
      | apply preserves_Disconnect; exact H
      | apply preserves_GetUsbInfo; exact H
      | apply preserves_SaveDeviceEntropyInFile; exact H
      | apply preserves_Backup; exact H
      | apply preserves_Connected; exact H
      | apply preserves_Available; exact H
      | apply preserves_FirmwareUpload; exact H
      | apply preserves_ButtonAck; exact H
      | apply preserves_SimulateButtonPress; exact H
      | apply preserves_SetAutoPressButton; exact H
      | apply preserves_confirmed_request; exact H
      | apply preserves_plain_request; exact H
      | idtac ].
  - apply (preserves_emit EvDriverClose eq_refl); exact H.
  - unfold PinMatrixAck. apply preserves_bind; [|intros ?; apply preserves_plain_request | exact H].
    apply preserves_emit; reflexivity.
Qed.

(** C7: [Connect] closes the handle held so far, if there is one, and then
    asks the driver for a device exactly once, holding the handle it gets
    (none when the driver fails); after it the only open handle is the held
    one.  Starting from a state where every open handle is the held one and
    at most one handle was open at every earlier moment, every method of
    [Device] leaves such a state: at no moment of any run are two handles
    open. *)
Theorem Connect_single_handle (C : Codec) (op : Op) (s : St) :
  single_handle s ->
  (exists (r : outcome Handle) (pre : list Event),
      w_log (snd (snd (Connect s))) = EvGetDevice r :: pre ++ w_log (snd s) /\
      match dev (fst s) with
      | Some h => exists c, pre = [EvClose h c]
      | None => pre = []
      end /\
      dev (fst (snd (Connect s))) = match r with Got h => Some h | Failed _ => None end /\
      live (w_log (snd (snd (Connect s)))) = match r with Got h => [h] | Failed _ => [] end) /\
  single_handle (run C op s) /\
  at_most_one_open (w_log (snd (run C op s))).
Proof.
  intros H. split; [|split].
  - destruct (Connect_log s) as [r [pre [Hlog [Hpre [Hdev Hret]]]]].
    destruct (Connect_live H) as [_ Hlive].
    exists r, pre. repeat split; auto.
    rewrite Hlive, Hdev. destruct r; reflexivity.
  - apply run_single_handle, H.
  - apply run_single_handle, H.
Qed.

Lemma single_handle_fresh (dt : DeviceType) (reads : list (outcome Message)) :
  single_handle (NewDevice dt, Mock.world reads).
Proof. split; simpl; [exact I | intros h []]. Qed.

Lemma Connect_single_handle_witness :
  single_handle (Mock.usb []) /\
  at_most_one_open (w_log (snd (run Mock.codec OpBackup (Mock.usb [])))).
Proof.
  split.
  - apply single_handle_fresh.
  - exact (proj2 (proj2 (Connect_single_handle Mock.codec OpBackup
                           (single_handle_fresh DeviceTypeUSB [])))).
Defined.

(** ** [FirmwareUpload] *)

Section Firmware.

Variable C : Codec.
Variables payload hash : list byte.

Lemma DeviceType_eqb_USB (dt : DeviceType) :
  dt = DeviceTypeUSB -> DeviceType_eqb dt DeviceTypeUSB = true.
Proof. intros ->. reflexivity. Qed.

(** C5: when the erase request is answered with a [Failure] message,
    [FirmwareUpload] returns the error made from that message ([DecodeFailMsg]
    of it, as [errors.New] of the decoded text, or the error of the decoder),
    and after the erase reply nothing is sent any more: the only further call
    is the [Close] of the handle. *)
Theorem FirmwareUpload_erase_failure (s s1 s2 s3 : St) (erasemsg : Message) :
  Driver (fst s) = DeviceTypeUSB ->
  Connect s = (None, s1) ->
  Initialize C (dev (fst s1)) s1 = (None, s2) ->
  snd (MessageFirmwareErase C payload) = None ->
  SendToDevice (dev (fst s1)) (fst (MessageFirmwareErase C payload)) s2
    = ((erasemsg, None), s3) ->
  Kind erasemsg = MessageType_Failure ->
  fst (FirmwareUpload C payload hash s) =
    Some (match snd (DecodeFailMsg C erasemsg) with
          | Some e => e
          | None => errors_New (fst (DecodeFailMsg C erasemsg))
          end) /\
  snd (FirmwareUpload C payload hash s) = snd (dev_Close (dev (fst s1)) s3).
Proof.
  intros Hdrv Hc Hi Hb He Hk.
  unfold FirmwareUpload, bind, get_device; simpl.
  rewrite (DeviceType_eqb_USB Hdrv); simpl.
  rewrite Hc; simpl. rewrite Hi; simpl. rewrite Hb. rewrite He; simpl.
  rewrite Hk. simpl. split; reflexivity.
Qed.

(** C6: when the erase request is answered with [Success] and the upload
    request with a [Failure] message, [FirmwareUpload] returns the error made
    from the erase reply ([DecodeFailMsg] is applied to [erasemsg]); the
    upload reply does not enter the result. *)
Theorem FirmwareUpload_upload_failure (s s1 s2 s3 s4 : St) (erasemsg uploadmsg : Message) :
  Driver (fst s) = DeviceTypeUSB ->
  Connect s = (None, s1) ->
  Initialize C (dev (fst s1)) s1 = (None, s2) ->
  snd (MessageFirmwareErase C payload) = None ->
  SendToDevice (dev (fst s1)) (fst (MessageFirmwareErase C payload)) s2
    = ((erasemsg, None), s3) ->
  Kind erasemsg = MessageType_Success ->
  snd (MessageFirmwareUpload C payload hash) = None ->
  SendToDevice (dev (fst s1)) (fst (MessageFirmwareUpload C payload hash)) s3
    = ((uploadmsg, None), s4) ->
  Kind uploadmsg = MessageType_Failure ->
  fst (FirmwareUpload C payload hash s) =
    Some (match snd (DecodeFailMsg C erasemsg) with
          | Some e => e
          | None => errors_New (fst (DecodeFailMsg C erasemsg))
          end) /\
  snd (FirmwareUpload C payload hash s) = snd (dev_Close (dev (fst s1)) s4).
Proof.
  intros Hdrv Hc Hi Hb He Hk Hb' Hu Hk'.
  unfold FirmwareUpload, FirmwareUpload_upload, bind, get_device; simpl.
  rewrite (DeviceType_eqb_USB Hdrv); simpl.
  rewrite Hc; simpl. rewrite Hi; simpl. rewrite Hb. rewrite He; simpl.
  rewrite Hk. rewrite Hb'. rewrite Hu; simpl. rewrite Hk'. simpl. split; reflexivity.
Qed.

End Firmware.


Lemma FirmwareUpload_erase_failure_witness :
  Mock.trace
    (FirmwareUpload Mock.codec [] []
       (Mock.usb [Got (Mock.msg MessageType_Success "");
                  Got (Mock.msg MessageType_Failure "bad length")])) =
    [EvGetDevice (Got 0);
     EvWrite 0 [Byte.x14] None; EvRead 0 (Got (Mock.msg MessageType_Success ""));
     EvWrite 0 [Byte.x10] None; EvRead 0 (Got (Mock.msg MessageType_Failure "bad length"));
     EvClose 0 None] /\
  fst (FirmwareUpload Mock.codec [] []
         (Mock.usb [Got (Mock.msg MessageType_Success "");
                    Got (Mock.msg MessageType_Failure "bad length")])) =
    Some (errors_New "bad length").
Proof.
  split; [vm_compute; reflexivity|].
  set (s := Mock.usb [Got (Mock.msg MessageType_Success "");
                      Got (Mock.msg MessageType_Failure "bad length")]).
  let x := eval vm_compute in (snd (Connect s)) in pose (s1 := x).
  let x := eval vm_compute in (snd (Initialize Mock.codec (dev (fst s1)) s1)) in
  pose (s2 := x).
  let x := eval vm_compute in
    (snd (SendToDevice (dev (fst s1)) (fst (MessageFirmwareErase Mock.codec [])) s2)) in
  pose (s3 := x).
  assert (H1 : Connect s = (None, s1)) by (vm_compute; reflexivity).
  assert (H2 : Initialize Mock.codec (dev (fst s1)) s1 = (None, s2))
    by (vm_compute; reflexivity).
  assert (H3 : SendToDevice (dev (fst s1)) (fst (MessageFirmwareErase Mock.codec [])) s2
               = ((Mock.msg MessageType_Failure "bad length", None), s3))
    by (vm_compute; reflexivity).
  exact (proj1 (@FirmwareUpload_erase_failure Mock.codec [] [] s s1 s2 s3 _
                  eq_refl H1 H2 eq_refl H3 eq_refl)).
Defined.

(** The erase reply is [Success "erased"], the upload reply [Failure "bad
    hash"]: the error text is the one of the erase reply. *)
Lemma FirmwareUpload_upload_failure_witness :
  fst (FirmwareUpload Mock.codec [] []
         (Mock.usb [Got (Mock.msg MessageType_Success "");
                    Got (Mock.msg MessageType_Success "erased");
                    Got (Mock.msg MessageType_Failure "bad hash")])) =
    Some (errors_New "erased").
Proof.
  set (s := Mock.usb [Got (Mock.msg MessageType_Success "");
                      Got (Mock.msg MessageType_Success "erased");
                      Got (Mock.msg MessageType_Failure "bad hash")]).
  let x := eval vm_compute in (snd (Connect s)) in pose (s1 := x).
  let x := eval vm_compute in (snd (Initialize Mock.codec (dev (fst s1)) s1)) in
  pose (s2 := x).
  let x := eval vm_compute in
    (snd (SendToDevice (dev (fst s1)) (fst (MessageFirmwareErase Mock.codec [])) s2)) in
  pose (s3 := x).
  let x := eval vm_compute in
    (snd (SendToDevice (dev (fst s1)) (fst (MessageFirmwareUpload Mock.codec [] [])) s3)) in
  pose (s4 := x).
  assert (H1 : Connect s = (None, s1)) by (vm_compute; reflexivity).
  assert (H2 : Initialize Mock.codec (dev (fst s1)) s1 = (None, s2))
    by (vm_compute; reflexivity).
  assert (H3 : SendToDevice (dev (fst s1)) (fst (MessageFirmwareErase Mock.codec [])) s2
               = ((Mock.msg MessageType_Success "erased", None), s3))
    by (vm_compute; reflexivity).
  assert (H4 : SendToDevice (dev (fst s1)) (fst (MessageFirmwareUpload Mock.codec [] [])) s3
               = ((Mock.msg MessageType_Failure "bad hash", None), s4))
    by (vm_compute; reflexivity).
  exact (proj1 (@FirmwareUpload_upload_failure Mock.codec [] [] s s1 s2 s3 s4 _ _
                  eq_refl H1 H2 eq_refl H3 eq_refl eq_refl H4 eq_refl)).
Defined.

(** ** Steps that only write and read *)

Lemma preserves_keeps_lift (A : Type) (D : Device) (L : list Handle)
      (f : World -> A * World) :
  calm f -> preserves (keeps D L) (lift f).
Proof.
  intros Hc [d w] [Hd Hl]. unfold lift, keeps in *; simpl in *.
  split; [exact Hd | rewrite Hc; exact Hl].
Qed.

Lemma calm_Write (h : Handle) (f : Frame) : calm (world_Write h f).
Proof.
  intros w. unfold world_Write.
  destruct (is_live h w); [destruct (w_writes w)|]; reflexivity.
Qed.

Lemma calm_Read (h : Handle) : calm (world_Read h).
Proof.
  intros w. unfold world_Read.
  destruct (is_live h w); [destruct (w_reads w)|]; reflexivity.
Qed.

Lemma calm_emit_nil : calm (fun w => (tt, log_event EvNilDevice w)).
Proof. intros w. reflexivity. Qed.

Lemma keeps_dev_Write (D : Device) (L : list Handle) (o : option Handle) (f : Frame) :
  preserves (keeps D L) (dev_Write o f).
Proof.
  destruct o; simpl.
  - apply preserves_keeps_lift, calm_Write.
  - apply preserves_bind; [apply preserves_keeps_lift, calm_emit_nil|].
    intros; apply preserves_ret.
Qed.

Lemma keeps_wire_ReadFrom (D : Device) (L : list Handle) (o : option Handle) :
  preserves (keeps D L) (wire_ReadFrom o).
Proof.
  destruct o; simpl.
  - apply preserves_bind; [apply preserves_keeps_lift, calm_Read|].
    intros [m|e]; apply preserves_ret.
  - apply preserves_bind; [apply preserves_keeps_lift, calm_emit_nil|].
    intros; apply preserves_ret.
Qed.

#[export] Hint Resolve keeps_dev_Write keeps_wire_ReadFrom : pres.

Lemma keeps_write_chunks (D : Device) (L : list Handle) (o : option Handle)
      (chunks : list Frame) :
  preserves (keeps D L) (write_chunks o chunks).
Proof. induction chunks; simpl; pres. Qed.

Lemma keeps_write_each (D : Device) (L : list Handle) (o : option Handle)
      (chunks : list Frame) :
  preserves (keeps D L) (write_each o chunks).
Proof. induction chunks; simpl; pres. Qed.

#[export] Hint Resolve keeps_write_chunks keeps_write_each : pres.

Lemma keeps_SendToDevice (D : Device) (L : list Handle) (o : option Handle)
      (chunks : list Frame) :
  preserves (keeps D L) (SendToDevice o chunks).
Proof. unfold SendToDevice; pres. Qed.

Lemma keeps_entropy_ack_goroutine (C : Codec) (D : Device) (L : list Handle) :
  preserves (keeps D L) (entropy_ack_goroutine C).
Proof. unfold entropy_ack_goroutine; pres. Qed.

#[export] Hint Resolve keeps_SendToDevice keeps_entropy_ack_goroutine : pres.

Lemma keeps_Connected_drain (C : Codec) (D : Device) (L : list Handle) (fuel : nat)
      (msg : Message) :
  preserves (keeps D L) (Connected_drain C fuel msg).
Proof. revert msg. induction fuel as [|fuel IH]; intros msg; simpl; pres. Qed.

#[export] Hint Resolve keeps_Connected_drain : pres.

Lemma keeps_Connected (C : Codec) (D : Device) (L : list Handle) :
  preserves (keeps D L) (Connected C).
Proof. unfold Connected; pres. Qed.

Lemma keeps_SimulateButtonPress (C : Codec) (D : Device) (L : list Handle) :
  preserves (keeps D L) (SimulateButtonPress C).
Proof. unfold SimulateButtonPress; pres. Qed.

#[export] Hint Resolve keeps_Connected keeps_SimulateButtonPress : pres.

Lemma keeps_here (s : St) : keeps (fst s) (live (w_log (snd s))) s.
Proof. split; reflexivity. Qed.

(** ** [Connected] and [Disconnect] *)

(** X3: the liveness probe only writes and reads: it leaves the device struct
    and the set of open handles as they were. *)
Theorem Connected_only_transfers (C : Codec) (s : St) :
  fst (snd (Connected C s)) = fst s /\
  live (w_log (snd (snd (Connected C s)))) = live (w_log (snd s)).
Proof. exact (keeps_Connected C (keeps_here s)). Qed.

Lemma is_live_of_live (h : Handle) (w w' : World) :
  live (w_log w') = live (w_log w) -> is_live h w' = is_live h w.
Proof. unfold is_live. intros ->. reflexivity. Qed.

Lemma Connected_nil (C : Codec) (s : St) :
  dev (fst s) = None -> Connected C s = (false, s).
Proof.
  intros Hd. unfold Connected, bind, get_device; simpl. rewrite Hd. reflexivity.
Qed.

Lemma wire_ReadFrom_closed (h : Handle) (s : St) :
  is_live h (snd s) = false ->
  fst (wire_ReadFrom (Some h) s) = (Message_zero, Some ErrClosedHandle).
Proof.
  intros Hl. unfold wire_ReadFrom, bind, lift, world_Read; simpl. rewrite Hl. reflexivity.
Qed.

Lemma write_chunks_closed (h : Handle) (f : Frame) (chunks : list Frame) (s : St) :
  is_live h (snd s) = false ->
  fst (write_chunks (Some h) (f :: chunks) s) = Some ErrClosedHandle.
Proof.
  intros Hl. simpl. unfold bind, dev_Write, lift, world_Write; simpl.
  rewrite Hl. reflexivity.
Qed.

(** A probe through a handle that is not open fails. *)
Lemma Connected_not_live (C : Codec) (s : St) (h : Handle) :
  dev (fst s) = Some h -> is_live h (snd s) = false -> fst (Connected C s) = false.
Proof.
  intros Hd Hl. unfold Connected. rewrite bind_eq. simpl. rewrite Hd.
  destruct (snd (MessageConnected C)); [reflexivity|].
  destruct (fst (MessageConnected C)) as [|f chunks].
  - unfold bind, write_chunks, ret, wire_ReadFrom, bind, lift, world_Read; simpl.
    rewrite Hl. reflexivity.
  - rewrite bind_eq. rewrite (@write_chunks_closed h f chunks s Hl). reflexivity.
Qed.

Lemma dev_Close_live (h : Handle) (s : St) :
  is_live h (snd s) = true ->
  exists c,
    dev_Close (Some h) s = (c, (fst s, snd (world_Close h (snd s)))) /\
    w_log (snd (world_Close h (snd s))) = EvClose h c :: w_log (snd s) /\
    live (w_log (snd (world_Close h (snd s)))) =
      filter (fun x => negb (Nat.eqb h x)) (live (w_log (snd s))).
Proof.
  intros Hl. destruct s as [d w]. unfold dev_Close, lift, world_Close; simpl in *.
  rewrite Hl. destruct (w_closes w) as [|c cs]; simpl; eexists; repeat split.
Qed.

(** X1: [Disconnect] is gated by the liveness probe, not by the handle being
    open.  With no handle held it fails without any call to the transport.
    With a handle held it runs [Connected]: when the probe answers true the
    handle was open and is closed now, and the result is the one of [Close];
    when the probe answers false (the handle is not open, the probe could not
    be written or read, or the device answered something else than
    [Success]) the result is "device is not connected" and nothing is
    closed. *)
Theorem Disconnect_gated_by_probe (C : Codec) (s : St) :
  match dev (fst s) with
  | None => Disconnect C s = (Some ErrNotConnected, s)
  | Some h =>
      if fst (Connected C s)
      then is_live h (snd s) = true /\
           w_log (snd (snd (Disconnect C s))) =
             EvClose h (fst (Disconnect C s)) :: w_log (snd (snd (Connected C s))) /\
           live (w_log (snd (snd (Disconnect C s)))) =
             filter (fun x => negb (Nat.eqb h x)) (live (w_log (snd s)))
      else Disconnect C s = (Some ErrNotConnected, snd (Connected C s)) /\
           live (w_log (snd (snd (Disconnect C s)))) = live (w_log (snd s))
  end.
Proof.
  destruct (dev (fst s)) as [h|] eqn:Hd.
  - destruct (keeps_Connected C (keeps_here s)) as [Hdev Hlive].
    unfold Disconnect. rewrite bind_eq.
    destruct (fst (Connected C s)) eqn:Hc; simpl.
    + assert (Hl : is_live h (snd s) = true).
      { destruct (is_live h (snd s)) eqn:E; [reflexivity|].
        rewrite (@Connected_not_live C s h Hd E) in Hc. discriminate. }
      split; [exact Hl|].
      rewrite bind_eq. simpl. rewrite Hdev, Hd.
      assert (Hl' : is_live h (snd (snd (Connected C s))) = true).
      { rewrite <- Hl. apply is_live_of_live, Hlive. }
      destruct (@dev_Close_live h (snd (Connected C s)) Hl') as [c [Hclose [Hlog Hfl]]].
      rewrite Hclose. cbn [fst snd]. rewrite Hfl, Hlog, Hlive. split; reflexivity.
    + split; [reflexivity | exact Hlive].
  - unfold Disconnect. rewrite bind_eq, (@Connected_nil C s Hd). reflexivity.
Qed.

(** The device holds an open handle, the device answers the probe with a
    [Failure] message: [Disconnect] fails and the handle stays open. *)
Example Disconnect_leaves_handle_open :
  let s1 := snd (Connect (Mock.usb [Got (Mock.msg MessageType_Failure "")])) in
  dev (fst s1) = Some 0 /\ live (w_log (snd s1)) = [0] /\
  fst (Disconnect Mock.codec s1) = Some ErrNotConnected /\
  live (w_log (snd (snd (Disconnect Mock.codec s1)))) = [0].
Proof. vm_compute. repeat split. Qed.

(** *** The probe against the scripts *)

Lemma preserves_reads_lift (A : Type) (R : list (outcome Message))
      (f : World -> A * World) :
  (forall w, w_reads (snd (f w)) = w_reads w) -> preserves (reads_are R) (lift f).
Proof.
  intros Hf [d w] H. unfold lift, reads_are in *; simpl in *. rewrite Hf. exact H.
Qed.

Lemma reads_Write (h : Handle) (f : Frame) (w : World) :
  w_reads (snd (world_Write h f w)) = w_reads w.
Proof.
  unfold world_Write. destruct (is_live h w); [destruct (w_writes w)|]; reflexivity.
Qed.

Lemma reads_dev_Write (R : list (outcome Message)) (o : option Handle) (f : Frame) :
  preserves (reads_are R) (dev_Write o f).
Proof.
  destruct o; simpl.
  - apply preserves_reads_lift, reads_Write.
  - apply preserves_bind; [apply preserves_reads_lift; reflexivity|].
    intros; apply preserves_ret.
Qed.

#[export] Hint Resolve reads_dev_Write : pres.

Lemma reads_write_chunks (R : list (outcome Message)) (o : option Handle)
      (chunks : list Frame) :
  preserves (reads_are R) (write_chunks o chunks).
Proof. induction chunks; simpl; pres. Qed.

Lemma reads_write_each (R : list (outcome Message)) (o : option Handle)
      (chunks : list Frame) :
  preserves (reads_are R) (write_each o chunks).
Proof. induction chunks; simpl; pres. Qed.

#[export] Hint Resolve reads_write_chunks reads_write_each : pres.

Lemma reads_entropy_ack_goroutine (C : Codec) (R : list (outcome Message)) :
  preserves (reads_are R) (entropy_ack_goroutine C).
Proof. unfold entropy_ack_goroutine; pres. Qed.

Lemma reads_SimulateButtonPress (C : Codec) (R : list (outcome Message)) :
  preserves (reads_are R) (SimulateButtonPress C).
Proof. unfold SimulateButtonPress; pres. Qed.

#[export] Hint Resolve reads_entropy_ack_goroutine reads_SimulateButtonPress : pres.

(** A read through an open handle pops the read script. *)
Lemma wire_ReadFrom_live (h : Handle) (s : St) :
  is_live h (snd s) = true ->
  wire_ReadFrom (Some h) s =
  match w_reads (snd s) with
  | [] => ((Message_zero, Some ErrEOF),
           (fst s, log_event (EvRead h (Failed ErrEOF)) (set_reads [] (snd s))))
  | Got m :: rest =>
      ((m, None), (fst s, log_event (EvRead h (Got m)) (set_reads rest (snd s))))
  | Failed e :: rest =>
      ((Message_zero, Some e),
       (fst s, log_event (EvRead h (Failed e)) (set_reads rest (snd s))))
  end.
Proof.
  intros Hl. unfold wire_ReadFrom, bind, lift, world_Read; simpl. rewrite Hl.
  destruct (w_reads (snd s)) as [|[m|e] rest]; reflexivity.
Qed.

(** The writes of a request through an open handle against the write script. *)
Lemma write_chunks_live (h : Handle) (chunks : list Frame) (s : St) :
  is_live h (snd s) = true ->
  no_error (fst (write_chunks (Some h) chunks s)) =
  writes_succeed (List.length chunks) (w_writes (snd s)).
Proof.
  revert s. induction chunks as [|f chunks IH]; intros s Hl; [reflexivity|].
  simpl write_chunks. rewrite bind_eq.
  unfold dev_Write, lift, world_Write. rewrite Hl. cbn [fst snd].
  destruct (w_writes (snd s)) as [|[e|] ws] eqn:Ew; cbn [pop fst snd].
  - rewrite IH; [|exact Hl]. cbn [snd set_writes log_event w_writes].
    unfold writes_succeed. rewrite !firstn_nil. reflexivity.
  - reflexivity.
  - rewrite IH; [|exact Hl]. reflexivity.
Qed.

Lemma Connected_drain_spec (C : Codec) (h : Handle) (fuel : nat) :
  forall (msg : Message) (s : St),
    dev (fst s) = Some h -> is_live h (snd s) = true ->
    List.length (w_reads (snd s)) < fuel ->
    fst (Connected_drain C fuel msg s) = drain_spec (Got msg :: w_reads (snd s)).
Proof.
  induction fuel as [|fuel IH]; intros msg s Hd Hl Hlen; [lia|].
  simpl. destruct (Kind msg) eqn:Ek; try reflexivity.
  rewrite bind_eq.
  pose proof (keeps_entropy_ack_goroutine C (keeps_here s)) as [Hdev Hlive].
  pose proof (@reads_entropy_ack_goroutine C _ s eq_refl) as Hreads.
  unfold reads_are in Hreads.
  set (s' := snd (entropy_ack_goroutine C s)) in *.
  rewrite bind_eq. unfold get_device. cbn [fst snd]. rewrite Hdev, Hd.
  assert (Hl' : is_live h (snd s') = true).
  { rewrite <- Hl. apply is_live_of_live, Hlive. }
  rewrite bind_eq, (wire_ReadFrom_live h s' Hl'). rewrite Hreads.
  destruct (w_reads (snd s)) as [|[m|e] rest] eqn:Er; cbn [fst snd]; try reflexivity.
  rewrite IH.
  - reflexivity.
  - simpl. rewrite Hdev. exact Hd.
  - exact Hl'.
  - simpl in *. lia.
Qed.

(** X2: [Connected] against the scripts of the transport.  It answers true
    exactly when a handle is held and open, the probe is built and every one
    of its chunks is written without error, and the messages read after it
    are any number of [EntropyRequest] followed by a [Success]; a failing
    read (or a script with nothing left) at any point of the drain gives
    false.  The outcomes of the entropy-ack writes do not enter the result:
    the goroutine only logs their errors. *)
Theorem Connected_refines (C : Codec) (s : St) :
  fst (Connected C s) = Connected_spec C s.
Proof.
  unfold Connected_spec.
  destruct (dev (fst s)) as [h|] eqn:Hd.
  2:{ rewrite (@Connected_nil C s Hd). reflexivity. }
  destruct (is_live h (snd s)) eqn:Hl.
  2:{ rewrite (@Connected_not_live C s h Hd Hl). reflexivity. }
  unfold Connected. rewrite bind_eq. unfold get_device. cbn [fst snd]. rewrite Hd.
  destruct (snd (MessageConnected C)) as [e|]; [reflexivity|].
  cbn [no_error andb].
  rewrite bind_eq.
  pose proof (write_chunks_live h (fst (MessageConnected C)) s Hl) as Hw.
  pose proof (@keeps_write_chunks _ _ (Some h) (fst (MessageConnected C)) s (keeps_here s))
    as [Hdev Hlive].
  pose proof (@reads_write_chunks _ (Some h) (fst (MessageConnected C)) s eq_refl) as Hreads.
  unfold reads_are in Hreads.
  rewrite <- Hw.
  destruct (fst (write_chunks (Some h) (fst (MessageConnected C)) s)) as [e|];
    [reflexivity|].
  cbn [no_error andb].
  set (s1 := snd (write_chunks (Some h) (fst (MessageConnected C)) s)) in *.
  assert (Hl1 : is_live h (snd s1) = true).
  { rewrite <- Hl. apply is_live_of_live, Hlive. }
  rewrite bind_eq, (wire_ReadFrom_live h s1 Hl1). rewrite Hreads.
  destruct (w_reads (snd s)) as [|[m|e] rest] eqn:Er; cbn [fst snd]; try reflexivity.
  unfold with_fuel. cbn [fst snd log_event set_reads w_reads].
  rewrite (@Connected_drain_spec C h).
  - reflexivity.
  - cbn [fst]. rewrite Hdev. exact Hd.
  - cbn [snd]. rewrite <- Hl1. apply is_live_of_live. reflexivity.
  - cbn [snd log_event set_reads w_reads]. lia.
Qed.

(** The ack of the first [EntropyRequest] cannot be written, the next read
    is a [Success]: the probe still answers true. *)
Example Connected_ignores_ack_write_error :
  let s1 := snd (Connect (NewDevice DeviceTypeUSB,
                          Mock.world_with [] [None; Some (io_error "broken pipe")]
                            [Got (Mock.msg MessageType_EntropyRequest "");
                             Got (Mock.msg MessageType_Success "")])) in
  fst (Connected Mock.codec s1) = true /\
  Mock.trace (Connected Mock.codec s1) =
    [EvGetDevice (Got 0);
     EvWrite 0 [Byte.x08] None;
     EvRead 0 (Got (Mock.msg MessageType_EntropyRequest ""));
     EvWrite 0 [Byte.x09] (Some (io_error "broken pipe"));
     EvRead 0 (Got (Mock.msg MessageType_Success ""))].
Proof. vm_compute. split; reflexivity. Qed.

(** ** Every step adds to the log and uses up reads *)

Lemma after_lift (A : Type) (L : list Event) (n : nat) (f : World -> A * World) :
  monotone f -> preserves (after L n) (lift f).
Proof.
  intros Hf [d w] [[post Hlog] Hlen]. destruct (Hf w) as [[post' Hlog'] Hlen'].
  unfold lift, after in *; simpl in *. split.
  - exists (post' ++ post). rewrite Hlog', Hlog, app_assoc. reflexivity.
  - lia.
Qed.

Ltac mono_step :=
  split; [ first [ exists []; reflexivity | eexists [_]; reflexivity ] | simpl; lia ].

Lemma monotone_Write (h : Handle) (f : Frame) : monotone (world_Write h f).
Proof.
  intros w. unfold world_Write.
  destruct (is_live h w); [destruct (w_writes w)|]; simpl; mono_step.
Qed.

Lemma monotone_Read (h : Handle) : monotone (world_Read h).
Proof.
  intros w. unfold world_Read.
  destruct (is_live h w); [destruct (w_reads w)|]; simpl; mono_step.
Qed.

Lemma monotone_Close (h : Handle) : monotone (world_Close h).
Proof.
  intros w. unfold world_Close.
  destruct (is_live h w); [destruct (w_closes w)|]; simpl; mono_step.
Qed.

Lemma monotone_GetDevice : monotone world_GetDevice.
Proof.
  intros w. unfold world_GetDevice. destruct (w_opens w) as [|[e|] t]; simpl; mono_step.
Qed.

Lemma monotone_log_event (e : Event) : monotone (fun w => (tt, log_event e w)).
Proof. intros w. simpl. mono_step. Qed.

Lemma after_emit (L : list Event) (n : nat) (e : Event) : preserves (after L n) (emit e).
Proof. apply after_lift, monotone_log_event. Qed.

Lemma after_set_dev (L : list Event) (n : nat) (o : option Handle) :
  preserves (after L n) (set_dev o).
Proof. intros [d w] H. exact H. Qed.

Lemma after_dev_Write (L : list Event) (n : nat) (o : option Handle) (f : Frame) :
  preserves (after L n) (dev_Write o f).
Proof.
  destruct o; simpl.
  - apply after_lift, monotone_Write.
  - apply preserves_bind; [apply after_emit | intros; apply preserves_ret].
Qed.

Lemma after_dev_Close (L : list Event) (n : nat) (o : option Handle) :
  preserves (after L n) (dev_Close o).
Proof.
  destruct o; simpl.
  - apply after_lift, monotone_Close.
  - apply preserves_bind; [apply after_emit | intros; apply preserves_ret].
Qed.

Lemma after_wire_ReadFrom (L : list Event) (n : nat) (o : option Handle) :
  preserves (after L n) (wire_ReadFrom o).
Proof.
  destruct o; simpl.
  - apply preserves_bind; [apply after_lift, monotone_Read|].
    intros [m|e]; apply preserves_ret.
  - apply preserves_bind; [apply after_emit | intros; apply preserves_ret].
Qed.

Lemma after_Driver_GetDevice (L : list Event) (n : nat) :
  preserves (after L n) Driver_GetDevice.
Proof. apply after_lift, monotone_GetDevice. Qed.

#[export] Hint Resolve after_emit after_set_dev after_dev_Write after_dev_Close
  after_wire_ReadFrom after_Driver_GetDevice : pres.

Lemma after_write_chunks (L : list Event) (n : nat) (o : option Handle)
      (chunks : list Frame) :
  preserves (after L n) (write_chunks o chunks).
Proof. induction chunks; simpl; pres. Qed.

Lemma after_write_each (L : list Event) (n : nat) (o : option Handle)
      (chunks : list Frame) :
  preserves (after L n) (write_each o chunks).
Proof. induction chunks; simpl; pres. Qed.

#[export] Hint Resolve after_write_chunks after_write_each : pres.

Lemma after_Connect (L : list Event) (n : nat) : preserves (after L n) Connect.
Proof. unfold Connect; pres. Qed.

Lemma after_SendToDevice (L : list Event) (n : nat) (o : option Handle)
      (chunks : list Frame) :
  preserves (after L n) (SendToDevice o chunks).
Proof. unfold SendToDevice; pres. Qed.

Lemma after_sendToDeviceNoAnswer (L : list Event) (n : nat) (o : option Handle)
      (chunks : list Frame) :
  preserves (after L n) (sendToDeviceNoAnswer o chunks).
Proof. unfold sendToDeviceNoAnswer; pres. Qed.

Lemma after_entropy_ack_goroutine (C : Codec) (L : list Event) (n : nat) :
  preserves (after L n) (entropy_ack_goroutine C).
Proof. unfold entropy_ack_goroutine; pres. Qed.

Lemma after_SimulateButtonPress (C : Codec) (L : list Event) (n : nat) :
  preserves (after L n) (SimulateButtonPress C).
Proof. unfold SimulateButtonPress; pres. Qed.

#[export] Hint Resolve after_Connect after_SendToDevice after_sendToDeviceNoAnswer
  after_entropy_ack_goroutine after_SimulateButtonPress : pres.

Lemma after_ButtonAck_drain (C : Codec) (L : list Event) (n : nat) (fuel : nat)
      (msg : Message) :
  preserves (after L n) (ButtonAck_drain C fuel msg).
Proof. revert msg. induction fuel as [|fuel IH]; intros msg; simpl; pres. Qed.

#[export] Hint Resolve after_ButtonAck_drain : pres.

Lemma after_ButtonAck (C : Codec) (L : list Event) (n : nat) :
  preserves (after L n) (ButtonAck C).
Proof. unfold ButtonAck; pres. Qed.

#[export] Hint Resolve after_ButtonAck : pres.

Lemma after_here (s : St) : after (w_log (snd s)) (List.length (w_reads (snd s))) s.
Proof. split; [exists []; reflexivity | lia]. Qed.

(** ** [ButtonAck] *)

(** The log of [ButtonAck] when a handle is held. *)
Lemma ButtonAck_log (C : Codec) (s : St) (h : Handle) :
  dev (fst s) = Some h ->
  exists (r : outcome Handle) (c : option error) (post : list Event),
    w_log (snd (snd (ButtonAck C s))) =
      post ++ EvGetDevice r :: EvClose h c :: w_log (snd s).
Proof.
  intros Hd.
  destruct (Connect_log s) as [r [pre [Hlog [Hpre _]]]].
  rewrite Hd in Hpre. destruct Hpre as [c ->]. simpl in Hlog.
  exists r, c.
  unfold ButtonAck. rewrite bind_eq.
  match goal with
  | |- context [snd (?K (snd (Connect s)))] =>
      assert (HK : preserves (after (w_log (snd (snd (Connect s)))) 
                                (List.length (w_reads (snd (snd (Connect s)))))) K)
        by pres;
      destruct (HK _ (after_here (snd (Connect s)))) as [[post Hpost] _]
  end.
  exists post. rewrite Hlog in Hpost. exact Hpost.
Qed.

(** X5: [ButtonAck] called while a handle is held first closes that handle
    and only then asks the driver for a new device; everything else it does
    comes after these two calls. *)
Theorem ButtonAck_replaces_handle (C : Codec) (s : St) (h : Handle) :
  dev (fst s) = Some h ->
  exists (r : outcome Handle) (c : option error) (post : list Event),
    w_log (snd (snd (ButtonAck C s))) =
      post ++ EvGetDevice r :: EvClose h c :: w_log (snd s).
Proof.
  exact (@ButtonAck_log C s h).
Qed.

Lemma ButtonAck_replaces_handle_witness :
  exists (r : outcome Handle) (c : option error) (post : list Event),
    w_log (snd (snd (ButtonAck Mock.codec
                       (snd (Connect (Mock.usb [Got (Mock.msg MessageType_Success "")]))))))
    = post ++ EvGetDevice r :: EvClose 0 c ::
        w_log (snd (snd (Connect (Mock.usb [Got (Mock.msg MessageType_Success "")])))).
Proof.
  apply (@ButtonAck_replaces_handle Mock.codec
           (snd (Connect (Mock.usb [Got (Mock.msg MessageType_Success "")]))) 0).
  reflexivity.
Defined.

(** *** A successful [ButtonAck] uses up at least one read *)

Lemma after_bound (n : nat) (s : St) :
  List.length (w_reads (snd s)) <= n -> after [] n s.
Proof. intros H. split; [|exact H]. exists (w_log (snd s)). rewrite app_nil_r. reflexivity. Qed.

Lemma consumes_ret_error (A : Type) (n : nat) (a : A) (e : error) :
  consumes n (ret (a, Some e)).
Proof. intros s _ H. discriminate H. Qed.

Lemma consumes_bind (A B : Type) (n : nat) (m : M A) (k : A -> M (GoRet B)) :
  preserves (after [] n) m -> (forall a, consumes n (k a)) -> consumes n (bind m k).
Proof.
  intros Hm Hk s Hlen H. rewrite bind_eq in *.
  apply Hk; [|exact H]. apply (Hm s (@after_bound n s Hlen)).
Qed.

Lemma consumes_tail (A B : Type) (n : nat) (body : M (GoRet A)) (fin : M B) :
  consumes n body -> (forall k, preserves (after [] k) fin) ->
  consumes n (r <- body ;; _ <- fin ;; ret r).
Proof.
  intros Hb Hf s Hlen H. rewrite bind_eq in *. rewrite bind_eq in *. simpl in *.
  specialize (Hb s Hlen H).
  pose proof (Hf _ (snd (body s)) (@after_bound _ (snd (body s)) (le_n _))) as [_ Hle]. lia.
Qed.

Lemma wire_ReadFrom_consumes (o : option Handle) (s : St) :
  snd (fst (wire_ReadFrom o s)) = None ->
  S (List.length (w_reads (snd (snd (wire_ReadFrom o s))))) = List.length (w_reads (snd s)).
Proof.
  destruct o as [h|]; unfold wire_ReadFrom, bind, lift, world_Read, emit, ret; simpl.
  - destruct (is_live h (snd s)); [|discriminate].
    destruct (w_reads (snd s)) as [|[m|e] rest]; simpl; try discriminate. reflexivity.
  - discriminate.
Qed.

Lemma consumes_read (A : Type) (n : nat) (o : option Handle) (zero : A)
      (K : Message -> M (GoRet A)) :
  (forall m k, preserves (after [] k) (K m)) ->
  consumes n (r <- wire_ReadFrom o ;;
              match snd r with
              | Some e => ret (zero, Some e)
              | None => K (fst r)
              end).
Proof.
  intros HK s Hlen H. rewrite bind_eq in *.
  destruct (snd (fst (wire_ReadFrom o s))) eqn:Er; [discriminate H|].
  pose proof (wire_ReadFrom_consumes o s Er) as Hc.
  pose proof (HK (fst (fst (wire_ReadFrom o s))) _ (snd (wire_ReadFrom o s))
                 (@after_bound _ (snd (wire_ReadFrom o s)) (le_n _))) as [_ Hle].
  lia.
Qed.

Lemma ButtonAck_consumes (C : Codec) (n : nat) : consumes n (ButtonAck C).
Proof.
  unfold ButtonAck.
  apply consumes_bind; [pres|]. intros [e|]; [apply consumes_ret_error|].
  apply consumes_bind; [pres|]. intros d.
  apply consumes_tail; [|intros k; pres].
  destruct (snd (MessageButtonAck C)); [apply consumes_ret_error|].
  apply consumes_bind; [pres|]. intros [e|]; [apply consumes_ret_error|].
  apply consumes_bind; [pres|]. intros [e|]; [apply consumes_ret_error|].
  apply (@consumes_read _ n (dev d) Message_zero
           (fun m => with_fuel (fun fuel => ButtonAck_drain C fuel m))).
  intros m k. pres.
Qed.

(** ** [Backup] *)

Lemma Backup_loop_rounds (C : Codec) (m : Message) (s : St) (r : GoRet Message)
      (s' : St) (n : nat) :
  button_rounds C m s r s' n ->
  forall (fuel : nat) (disconnected : bool),
    List.length (w_reads (snd s)) < fuel ->
    Backup_loop C fuel m disconnected s =
      ((r, match n with 0 => disconnected | S _ => true end), s').
Proof.
  induction 1 as [m s Hk | m s m1 e s1 Hk Hack | m s m1 s1 r s' n Hk Hack Hrounds IH];
    intros fuel disconnected Hfuel.
  - destruct fuel; simpl; destruct (Kind m); try reflexivity; congruence.
  - destruct fuel as [|fuel]; [lia|]. simpl. rewrite Hk, bind_eq, Hack. reflexivity.
  - destruct fuel as [|fuel]; [lia|]. simpl. rewrite Hk, bind_eq, Hack. cbn [fst snd].
    rewrite (IH fuel true).
    + destruct n; reflexivity.
    + pose proof (@ButtonAck_consumes C (List.length (w_reads (snd s))) s (le_n _)) as Hc.
      rewrite Hack in Hc. specialize (Hc eq_refl). cbn [fst snd] in Hc. lia.
Qed.

(** The loop always ends: the read script is finite and every successful
    [ButtonAck] uses up a read. *)
Lemma button_rounds_total (C : Codec) (m : Message) (s : St) :
  exists (r : GoRet Message) (s' : St) (n : nat), button_rounds C m s r s' n.
Proof.
  remember (List.length (w_reads (snd s))) as k eqn:Hk.
  revert m s Hk. induction k as [k IH] using lt_wf_ind. intros m s Hk.
  destruct (Kind m) eqn:Ek;
    try (exists (m, None), s, 0; apply rounds_final; rewrite Ek; discriminate).
  destruct (ButtonAck C s) as [[m1 [e|]] s1] eqn:Hack.
  - exists (Message_zero, Some e), s1, 1. eapply rounds_fail; eauto.
  - pose proof (@ButtonAck_consumes C k s) as Hc. rewrite Hack in Hc.
    cbn [fst snd] in Hc. assert (Hlt : List.length (w_reads (snd s1)) < k) by (apply Hc; [lia|reflexivity]).
    destruct (IH _ Hlt m1 s1 eq_refl) as [r [s' [n Hr]]].
    exists r, s', (S n). eapply rounds_next; eauto.
Qed.

(** X6: [Backup] after a successful request.  As long as the latest reply is
    a [ButtonRequest] it calls [ButtonAck] again: after [n] such rounds it
    returns the first reply that is no [ButtonRequest], or the error of the
    first [ButtonAck] that fails.  When at least one round ran, [Backup]
    itself closes nothing (the state it leaves is the one the last
    [ButtonAck] left); when none ran, it closes the handle it opened. *)
Theorem Backup_rounds (C : Codec) (s s1 s2 s' : St) (m0 : Message) (r : GoRet Message)
        (n : nat) :
  Connect s = (None, s1) ->
  snd (MessageBackup C) = None ->
  SendToDevice (dev (fst s1)) (fst (MessageBackup C)) s1 = ((m0, None), s2) ->
  button_rounds C m0 s2 r s' n ->
  Backup C s = (r, match n with
                   | 0 => snd (dev_Close (dev (fst s2)) s2)
                   | S _ => s'
                   end).
Proof.
  intros Hc Hb Hsend Hrounds.
  assert (Hn0 : n = 0 -> s' = s2) by (intros ->; inversion Hrounds; reflexivity).
  unfold Backup, close_unless, with_fuel, bind, get_device, ret. cbn [fst snd].
  rewrite Hc. cbn [fst snd]. rewrite Hb. rewrite Hsend. cbn [fst snd].
  rewrite (Backup_loop_rounds Hrounds); [|lia]. cbn [fst snd].
  destruct n as [|n]; cbn [negb fst snd].
  - rewrite (Hn0 eq_refl). reflexivity.
  - reflexivity.
Qed.

(** Two [ButtonRequest] replies, then a [Features] message. *)
Lemma Backup_rounds_witness :
  fst (Backup Mock.codec
         (Mock.usb [Got (Mock.msg MessageType_ButtonRequest "");
                    Got (Mock.msg MessageType_ButtonRequest "");
                    Got (Mock.msg MessageType_Features "f")])) =
    (Mock.msg MessageType_Features "f", None).
Proof.
  set (s := Mock.usb [Got (Mock.msg MessageType_ButtonRequest "");
                      Got (Mock.msg MessageType_ButtonRequest "");
                      Got (Mock.msg MessageType_Features "f")]).
  let x := eval vm_compute in (snd (Connect s)) in pose (s1 := x).
  let x := eval vm_compute in
    (snd (SendToDevice (dev (fst s1)) (fst (MessageBackup Mock.codec)) s1)) in
  pose (s2 := x).
  let x := eval vm_compute in (snd (ButtonAck Mock.codec s2)) in pose (s3 := x).
  let x := eval vm_compute in (snd (ButtonAck Mock.codec s3)) in pose (s4 := x).
  assert (H1 : Connect s = (None, s1)) by (vm_compute; reflexivity).
  assert (H2 : SendToDevice (dev (fst s1)) (fst (MessageBackup Mock.codec)) s1 =
               ((Mock.msg MessageType_ButtonRequest "", None), s2))
    by (vm_compute; reflexivity).
  assert (H3 : ButtonAck Mock.codec s2 = ((Mock.msg MessageType_ButtonRequest "", None), s3))
    by (vm_compute; reflexivity).
  assert (H4 : ButtonAck Mock.codec s3 = ((Mock.msg MessageType_Features "f", None), s4))
    by (vm_compute; reflexivity).
  assert (Hr : button_rounds Mock.codec (Mock.msg MessageType_ButtonRequest "") s2
                 (Mock.msg MessageType_Features "f", None) s4 2).
  { eapply rounds_next; [reflexivity | exact H3 |].
    eapply rounds_next; [reflexivity | exact H4 |].
    apply rounds_final. discriminate. }
  rewrite (@Backup_rounds Mock.codec s s1 s2 s4 _ _ 2 H1 eq_refl H2 Hr).
  reflexivity.
Defined.

(** ** The methods that hand over to [ButtonAck] *)

Lemma confirmed_request_button (C : Codec) (keep : bool) (build : GoRet (list Frame))
      (s s1 s2 : St) (msg : Message) :
  Connect s = (None, s1) ->
  snd build = None ->
  SendToDevice (dev (fst s1)) (fst build) s1 = ((msg, None), s2) ->
  Kind msg = MessageType_ButtonRequest ->
  confirmed_request C keep None build s = ButtonAck C s2.
Proof.
  intros Hc Hb Hsend Hk.
  unfold confirmed_request, close_unless, bind, get_device, ret. cbn [fst snd].
  rewrite Hc. cbn [fst snd]. rewrite Hb. rewrite Hsend. cbn [fst snd]. rewrite Hk.
  cbn [fst snd negb]. destruct (ButtonAck C s2) as [a s3]. reflexivity.
Qed.

Lemma confirmed_method_request (C : Codec) (op : ConfirmedOp) :
  word_count_ok op = true ->
  exists keep, confirmed_method C op = confirmed_request C keep None (confirmed_chunks C op).
Proof.
  destruct op; simpl; intros Hw;
    unfold ChangePin, GenerateMnemonic, Recovery, SetMnemonic, SignMessage, Wipe,
      invalid_word_count;
    try (destruct (wordCount =? 12)%Z, (wordCount =? 24)%Z; try discriminate; simpl);
    eexists; reflexivity.
Qed.

Lemma Connect_success (s s1 : St) :
  Connect s = (None, s1) ->
  exists (h : Handle) (pre : list Event),
    dev (fst s1) = Some h /\ w_log (snd s1) = EvGetDevice (Got h) :: pre ++ w_log (snd s).
Proof.
  intros Hc. destruct (Connect_log s) as [r [pre [Hlog [_ [Hdev Hret]]]]].
  rewrite Hc in *. cbn [fst snd] in *. destruct r as [h|e]; [|discriminate].
  exists h, pre. auto.
Qed.

(** X4: for ChangePin, GenerateMnemonic, Recovery, SetMnemonic, SignMessage
    and Wipe with arguments that pass their checks: when the request is sent
    and its direct reply is a [ButtonRequest], the method returns what
    [ButtonAck], called in the state right after that reply, returns, and it
    leaves the state that call leaves.  The handle [h] the method opened is
    still held at that point; [ButtonAck] closes it before it asks the driver
    for a new one. *)
Theorem confirmed_by_ButtonAck (C : Codec) (op : ConfirmedOp) (s s1 s2 : St)
        (msg : Message) :
  word_count_ok op = true ->
  Connect s = (None, s1) ->
  snd (confirmed_chunks C op) = None ->
  SendToDevice (dev (fst s1)) (fst (confirmed_chunks C op)) s1 = ((msg, None), s2) ->
  Kind msg = MessageType_ButtonRequest ->
  confirmed_method C op s = ButtonAck C s2 /\
  exists (h : Handle) (pre : list Event) (r : outcome Handle) (c : option error)
         (post : list Event),
    w_log (snd s1) = EvGetDevice (Got h) :: pre ++ w_log (snd s) /\
    dev (fst s2) = Some h /\
    w_log (snd (snd (ButtonAck C s2))) =
      post ++ EvGetDevice r :: EvClose h c :: w_log (snd s2).
Proof.
  intros Hw Hc Hb Hsend Hk. split.
  - destruct (@confirmed_method_request C op Hw) as [keep ->].
    eapply confirmed_request_button; eauto.
  - destruct (@Connect_success s s1 Hc) as [h [pre [Hdev Hlog]]].
    pose proof (@keeps_SendToDevice _ _ (dev (fst s1)) (fst (confirmed_chunks C op)) s1
                  (keeps_here s1)) as [Hd2 _].
    rewrite Hsend in Hd2. cbn [fst snd] in Hd2.
    assert (Hdev2 : dev (fst s2) = Some h) by (rewrite Hd2; exact Hdev).
    destruct (@ButtonAck_log C s2 h Hdev2) as [r [c [post Hpost]]].
    exists h, pre, r, c, post. auto.
Qed.

(** The second concrete scenario of the specification: the reply to
    [SignMessage] is a [ButtonRequest], the reply after the ack a [Success]. *)
Lemma confirmed_by_ButtonAck_witness :
  SignMessage Mock.codec 0 "m"
    (Mock.usb [Got (Mock.msg MessageType_ButtonRequest "");
               Got (Mock.msg MessageType_Success "sig123")]) =
  ButtonAck Mock.codec
    (snd (SendToDevice (Some 0) [[Byte.x17]]
            (snd (Connect (Mock.usb [Got (Mock.msg MessageType_ButtonRequest "");
                                     Got (Mock.msg MessageType_Success "sig123")]))))).
Proof.
  set (s := Mock.usb [Got (Mock.msg MessageType_ButtonRequest "");
                      Got (Mock.msg MessageType_Success "sig123")]).
  assert (H1 : Connect s = (None, snd (Connect s))) by (vm_compute; reflexivity).
  assert (H2 : SendToDevice (dev (fst (snd (Connect s))))
                 (fst (confirmed_chunks Mock.codec (CoSignMessage 0 "m"))) (snd (Connect s)) =
               ((Mock.msg MessageType_ButtonRequest "", None),
                snd (SendToDevice (Some 0) [[Byte.x17]] (snd (Connect s)))))
    by (vm_compute; reflexivity).
  exact (proj1 (@confirmed_by_ButtonAck Mock.codec (CoSignMessage 0 "m") s _ _ _
                  eq_refl H1 eq_refl H2 eq_refl)).
Defined.

(** ** The entropy stream *)

Lemma sink_frame_lift (A : Type) (F : list (option error)) (FS : string -> option File)
      (K : list (list byte)) (Q : list Z) (f : World -> A * World) :
  transport_only f -> preserves (sink_frame F FS K Q) (lift f).
Proof.
  intros Hf [d w] [Hw [Hfa [Hfi [Hs Hr]]]]. unfold lift, sink_frame in *; simpl in *.
  destruct (Hf w Hw) as [Hw' [Hfa' [Hfi' [Hs' Hr']]]].
  repeat split; congruence.
Qed.

Lemma transport_only_Write (h : Handle) (f : Frame) : transport_only (world_Write h f).
Proof.
  intros w Hw. unfold world_Write. rewrite Hw.
  destruct (is_live h w); simpl; repeat split; auto.
Qed.

Lemma transport_only_Read (h : Handle) : transport_only (world_Read h).
Proof.
  intros w Hw. unfold world_Read.
  destruct (is_live h w); [destruct (w_reads w)|]; simpl; repeat split; auto.
Qed.

Lemma transport_only_Close (h : Handle) : transport_only (world_Close h).
Proof.
  intros w Hw. unfold world_Close.
  destruct (is_live h w); [destruct (w_closes w)|]; simpl; repeat split; auto.
Qed.

Lemma transport_only_GetDevice : transport_only world_GetDevice.
Proof.
  intros w Hw. unfold world_GetDevice.
  destruct (w_opens w) as [|[e|] t]; simpl; repeat split; auto.
Qed.

Lemma transport_only_nil : transport_only (fun w => (tt, log_event EvNilDevice w)).
Proof. intros w Hw. simpl. repeat split; auto. Qed.

Section SinkFrame.

Variable F : list (option error).
Variable FS : string -> option File.
Variable K : list (list byte).
Variable Q : list Z.

Lemma sink_frame_dev_Write (o : option Handle) (f : Frame) :
  preserves (sink_frame F FS K Q) (dev_Write o f).
Proof.
  destruct o; simpl.
  - apply sink_frame_lift, transport_only_Write.
  - apply preserves_bind; [apply sink_frame_lift, transport_only_nil|].
    intros; apply preserves_ret.
Qed.

Lemma sink_frame_dev_Close (o : option Handle) :
  preserves (sink_frame F FS K Q) (dev_Close o).
Proof.
  destruct o; simpl.
  - apply sink_frame_lift, transport_only_Close.
  - apply preserves_bind; [apply sink_frame_lift, transport_only_nil|].
    intros; apply preserves_ret.
Qed.

Lemma sink_frame_wire_ReadFrom (o : option Handle) :
  preserves (sink_frame F FS K Q) (wire_ReadFrom o).
Proof.
  destruct o; simpl.
  - apply preserves_bind; [apply sink_frame_lift, transport_only_Read|].
    intros [m|e]; apply preserves_ret.
  - apply preserves_bind; [apply sink_frame_lift, transport_only_nil|].
    intros; apply preserves_ret.
Qed.

Lemma sink_frame_Driver_GetDevice : preserves (sink_frame F FS K Q) Driver_GetDevice.
Proof. apply sink_frame_lift, transport_only_GetDevice. Qed.

Lemma sink_frame_set_dev (o : option Handle) : preserves (sink_frame F FS K Q) (set_dev o).
Proof. intros [d w] H. exact H. Qed.

Hint Resolve sink_frame_dev_Write sink_frame_dev_Close sink_frame_wire_ReadFrom
  sink_frame_Driver_GetDevice sink_frame_set_dev : pres.

Lemma sink_frame_write_chunks (o : option Handle) (chunks : list Frame) :
  preserves (sink_frame F FS K Q) (write_chunks o chunks).
Proof. induction chunks; simpl; pres. Qed.

Lemma sink_frame_write_each (o : option Handle) (chunks : list Frame) :
  preserves (sink_frame F FS K Q) (write_each o chunks).
Proof. induction chunks; simpl; pres. Qed.

Hint Resolve sink_frame_write_chunks sink_frame_write_each : pres.

Lemma sink_frame_Connect : preserves (sink_frame F FS K Q) Connect.
Proof. unfold Connect; pres. Qed.

Lemma sink_frame_Connected_drain (C : Codec) (fuel : nat) (msg : Message) :
  preserves (sink_frame F FS K Q) (Connected_drain C fuel msg).
Proof.
  revert msg. induction fuel as [|fuel IH]; intros msg; simpl;
    unfold entropy_ack_goroutine; pres.
Qed.

Hint Resolve sink_frame_Connected_drain : pres.

Lemma sink_frame_Disconnect (C : Codec) : preserves (sink_frame F FS K Q) (Disconnect C).
Proof. unfold Disconnect, Connected; pres. Qed.

End SinkFrame.

Lemma sink_frame_here (s : St) :
  w_writes (snd s) = [] ->
  sink_frame (w_faults (snd s)) (w_files (snd s)) (sunk (w_log (snd s)))
             (requested (w_log (snd s))) s.
Proof. intros H. repeat split; auto. Qed.

(** An exchange through an open handle, with no write error scripted and a
    message ahead in the read script. *)
Lemma SendToDevice_ok (h : Handle) (chunks : list Frame) (s : St) (m : Message)
      (R : list (outcome Message)) :
  is_live h (snd s) = true ->
  w_writes (snd s) = [] ->
  w_reads (snd s) = Got m :: R ->
  exists s',
    SendToDevice (Some h) chunks s = ((m, None), s') /\
    fst s' = fst s /\
    live (w_log (snd s')) = live (w_log (snd s)) /\
    w_reads (snd s') = R /\
    sink_frame (w_faults (snd s)) (w_files (snd s)) (sunk (w_log (snd s)))
               (requested (w_log (snd s))) s'.
Proof.
  intros Hl Hw Hr.
  pose proof (write_chunks_live h chunks s Hl) as Hok.
  unfold writes_succeed in Hok. rewrite Hw, firstn_nil in Hok. simpl in Hok.
  pose proof (@keeps_write_chunks _ _ (Some h) chunks s (keeps_here s)) as [Hdev Hlive].
  pose proof (@reads_write_chunks _ (Some h) chunks s eq_refl) as Hreads.
  pose proof (@sink_frame_write_chunks _ _ _ _ (Some h) chunks s (sink_frame_here s Hw))
    as Hframe.
  unfold reads_are in Hreads.
  set (sw := snd (write_chunks (Some h) chunks s)) in *.
  assert (Hlw : is_live h (snd sw) = true).
  { rewrite <- Hl. apply is_live_of_live, Hlive. }
  exists (fst sw, log_event (EvRead h (Got m)) (set_reads R (snd sw))).
  split; [|split; [|split; [|split]]].
  - unfold SendToDevice. rewrite bind_eq. fold sw.
    destruct (fst (write_chunks (Some h) chunks s)); [discriminate Hok|].
    rewrite (wire_ReadFrom_live h sw Hlw), Hreads, Hr. reflexivity.
  - exact Hdev.
  - exact Hlive.
  - reflexivity.
  - destruct Hframe as [H1 [H2 [H3 [H4 H5]]]]. repeat split; assumption.
Qed.

Section Stream.

Variable C : Codec.
Variable outFile : string.
Variable T : Z.
Variable builder : Z -> GoRet (list Frame).

Hypothesis builder_ok : forall n, snd (builder n) = None.

(** One request answered by a reply that carries entropy. *)
Lemma getEntropy_ok (h : Handle) (m : Message) (R : list (outcome Message))
      (data : list byte) (s : St) (n : Z) :
  streaming outFile h (Got m :: R) data s ->
  entropy_reply C m ->
  exists s',
    getEntropy C builder n s = ((payload C m, None), s') /\
    streaming outFile h R data s' /\
    sunk (w_log (snd s')) = sunk (w_log (snd s)) /\
    requested (w_log (snd s')) = requested (w_log (snd s)) ++ [n].
Proof.
  intros [Hd [Hl [Hw [Hf [Hr Hfile]]]]] [Hk Hdec].
  set (se := (fst s, log_event (EvGetEntropyMsgBuilder n) (snd s))).
  assert (Hle : is_live h (snd se) = true) by exact Hl.
  destruct (@SendToDevice_ok h (fst (builder n)) se m R Hle Hw Hr)
    as [s' [Hsend [Hdev [Hlive [Hreads [Hw' [Hf' [Hfs' [Hs' Hq']]]]]]]]].
  exists s'. split; [|split; [|split]].
  - unfold getEntropy, bind, emit, lift, get_device, with_fuel, ret. cbn [fst snd].
    rewrite builder_ok. fold se. cbn [fst snd].
    change (dev (fst se)) with (dev (fst s)). rewrite Hd.
    rewrite Hsend. cbn [fst snd processGetEntropyResponse].
    rewrite Hk, Hdec. reflexivity.
  - repeat split.
    + rewrite Hdev. exact Hd.
    + rewrite <- Hle. apply is_live_of_live, Hlive.
    + exact Hw'.
    + rewrite Hf'. exact Hf.
    + exact Hreads.
    + intros Hu. rewrite Hfs'. apply Hfile, Hu.
  - rewrite Hs'. reflexivity.
  - rewrite Hq'. reflexivity.
Qed.

Lemma file_Write_ok (buf data : list byte) (mode : Z) (s : St) :
  w_faults (snd s) = [] ->
  w_files (snd s) outFile = Some {| f_data := data; f_mode := mode |} ->
  file_Write outFile buf s =
    ((List.length buf, None),
     (fst s, log_event (EvFileWrite outFile buf None)
               (set_file outFile {| f_data := data ++ buf; f_mode := mode |}
                         (set_faults [] (snd s))))).
Proof.
  intros Hf Hfs. unfold file_Write, lift. cbn [fst snd]. rewrite Hf, Hfs. reflexivity.
Qed.

Lemma file_write_loop_ok (b : byte) (p' data : list byte) (mode : Z) (s : St) :
  w_faults (snd s) = [] ->
  w_files (snd s) outFile = Some {| f_data := data; f_mode := mode |} ->
  file_write_loop outFile (S (List.length (b :: p'))) (b :: p') 0 s =
    ((List.length (b :: p'), None),
     (fst s, log_event (EvFileWrite outFile (b :: p') None)
               (set_file outFile {| f_data := data ++ b :: p'; f_mode := mode |}
                         (set_faults [] (snd s))))).
Proof.
  intros Hf Hfs.
  change (file_write_loop outFile (S (List.length (b :: p'))) (b :: p') 0 s)
    with (bind (file_Write outFile (b :: p'))
               (fun r => match snd r with
                         | Some e => ret (0, Some e)
                         | None => file_write_loop outFile (List.length (b :: p'))
                                     (b :: p') (0 + fst r)
                         end) s).
  rewrite bind_eq, (@file_Write_ok (b :: p') data mode s Hf Hfs). cbn [fst snd Nat.add].
  cbn [file_write_loop List.length]. rewrite Nat.ltb_irrefl. reflexivity.
Qed.

(** One payload handed to the sink. *)
Lemma processBytes_ok (h : Handle) (R : list (outcome Message)) (data : list byte)
      (s : St) (p : list byte) :
  streaming outFile h R data s ->
  exists s',
    processBytes outFile p s = (None, s') /\
    streaming outFile h R (data ++ p) s' /\
    sunk (w_log (snd s')) = sunk (w_log (snd s)) ++ sink_view outFile [p] /\
    requested (w_log (snd s')) = requested (w_log (snd s)).
Proof.
  intros [Hd [Hl [Hw [Hf [Hr Hfile]]]]].
  unfold processBytes, sink_view. destruct (usingStdout outFile) eqn:Hu.
  - exists (fst s, log_event (EvPrint p) (snd s)).
    split; [reflexivity|]. split; [|split; reflexivity].
    repeat split; auto. intros H; congruence.
  - destruct (Hfile eq_refl) as [mode Hfs].
    destruct p as [|b p'].
    + exists s. split; [reflexivity|]. rewrite app_nil_r. simpl. rewrite app_nil_r.
      split; [|split; reflexivity]. repeat split; auto.
    + exists (fst s, log_event (EvFileWrite outFile (b :: p') None)
                       (set_file outFile {| f_data := data ++ b :: p'; f_mode := mode |}
                                 (set_faults [] (snd s)))).
      split; [|split; [|split]].
      * rewrite bind_eq, (@file_write_loop_ok b p' data mode s Hf Hfs). cbn [fst snd].
        rewrite Nat.eqb_refl. reflexivity.
      * repeat split; auto. intros _. exists mode. cbn. rewrite String.eqb_refl. reflexivity.
      * reflexivity.
      * reflexivity.
Qed.

Lemma uint32_small (z : Z) : (0 <= z < 4294967296)%Z -> uint32 z = z.
Proof. intros H. unfold uint32. apply Z.mod_small, H. Qed.

Lemma still_needed_nonneg (R : Z) (ps : list (list byte)) :
  still_needed R ps = true -> (0 <= R)%Z.
Proof.
  destruct ps as [|p rest]; simpl; intros H.
  - apply Z.eqb_eq in H. lia.
  - apply andb_true_iff in H. destruct H as [H _]. apply Z.ltb_lt in H. lia.
Qed.

Lemma len_nonneg (p : list byte) : (0 <= len p)%Z.
Proof. unfold len. lia. Qed.

Lemma len_app (p q : list byte) : len (p ++ q) = (len p + len q)%Z.
Proof. unfold len. rewrite length_app. lia. Qed.

Lemma sink_view_cons (p : list byte) (ps : list (list byte)) :
  sink_view outFile (p :: ps) = sink_view outFile [p] ++ sink_view outFile ps.
Proof.
  unfold sink_view. destruct (usingStdout outFile); [reflexivity|].
  simpl. destruct (nonempty p); reflexivity.
Qed.

(** [checkProducedFile] when the file holds exactly [T] bytes. *)
Lemma checkProducedFile_ok (h : Handle) (R : list (outcome Message)) (data : list byte)
      (s : St) :
  streaming outFile h R data s ->
  (usingStdout outFile = false -> len data = T) ->
  exists s',
    checkProducedFile outFile T s = (None, s') /\
    streaming outFile h R data s' /\
    sunk (w_log (snd s')) = sunk (w_log (snd s)) /\
    requested (w_log (snd s')) = requested (w_log (snd s)).
Proof.
  intros [Hd [Hl [Hw [Hf [Hr Hfile]]]]] Hlen.
  unfold checkProducedFile. destruct (usingStdout outFile) eqn:Hu; cbn [negb].
  - exists s. split; [reflexivity|]. split; [|split; reflexivity].
    repeat split; auto. intros H; congruence.
  - destruct (Hfile eq_refl) as [mode Hfs]. specialize (Hlen eq_refl).
    exists (fst s, log_event (EvStat outFile (Got T)) (set_faults [] (snd s))).
    split; [|split; [|split; reflexivity]].
    + unfold bind, os_Stat, lift, ret. cbn [fst snd]. rewrite Hf, Hfs. cbn [pop f_data].
      fold (len data). rewrite Hlen. cbn [fst snd]. rewrite Z.eqb_refl. reflexivity.
    + repeat split; auto.
Qed.

(** The loop of the stream, entered with [received] bytes so far and the
    replies [ms] ahead. *)
Lemma entropy_loop_ok (h : Handle) (rest : list (outcome Message)) :
  (T < 4294967296)%Z ->
  forall (ms : list Message) (received : Z) (fuel : nat) (data : list byte) (s : St),
    Forall (entropy_reply C) ms ->
    still_needed (T - received) (map (payload C) ms) = true ->
    (0 <= received)%Z ->
    (usingStdout outFile = false -> len data = received) ->
    streaming outFile h (map (@Got Message) ms ++ rest) data s ->
    List.length ms < fuel ->
    exists s',
      entropy_loop C outFile T builder fuel received s = (None, s') /\
      streaming outFile h rest (data ++ List.concat (map (payload C) ms)) s' /\
      sunk (w_log (snd s')) =
        sunk (w_log (snd s)) ++ sink_view outFile (map (payload C) ms) /\
      requested (w_log (snd s')) =
        requested (w_log (snd s)) ++ remaining (T - received) (map (payload C) ms).
Proof.
  intros HT. induction ms as [|m ms IH]; intros received fuel data s Hall Hneed Hrec Hlen Hst Hfuel.
  - simpl in Hneed. apply Z.eqb_eq in Hneed.
    assert (Hexit : (received <? T)%Z = false) by (apply Z.ltb_ge; lia).
    assert (Hdata : usingStdout outFile = false -> len data = T)
      by (intros Hu; rewrite (Hlen Hu); lia).
    destruct (checkProducedFile_ok Hst Hdata) as [s' [Hrun [Hst' [Hs' Hq']]]].
    exists s'. simpl List.concat. rewrite app_nil_r. simpl map.
    split; [|split; [exact Hst'|split]].
    + destruct fuel; simpl; rewrite Hexit; exact Hrun.
    + rewrite Hs'. unfold sink_view. destruct (usingStdout outFile); simpl;
        rewrite app_nil_r; reflexivity.
    + rewrite Hq'. simpl. rewrite app_nil_r. reflexivity.
  - destruct fuel as [|fuel]; [simpl in Hfuel; lia|].
    inversion Hall as [|m' ms' Hm Hms]; subst.
    simpl in Hneed. apply andb_true_iff in Hneed. destruct Hneed as [Hpos Hneed].
    apply Z.ltb_lt in Hpos.
    pose proof (still_needed_nonneg _ _ Hneed) as Hroom.
    pose proof (len_nonneg (payload C m)) as Hp.
    assert (Hgo : (received <? T)%Z = true) by (apply Z.ltb_lt; lia).
    destruct (@getEntropy_ok h m (map (@Got Message) ms ++ rest) data s
                (uint32 (T - received)) Hst Hm)
      as [s1 [Hget [Hst1 [Hs1 Hq1]]]].
    destruct (@processBytes_ok h (map (@Got Message) ms ++ rest) data s1 (payload C m) Hst1)
      as [s2 [Hproc [Hst2 [Hs2 Hq2]]]].
    assert (Hnext : uint32 (received + uint32 (len (payload C m)))
                    = (received + len (payload C m))%Z).
    { rewrite (@uint32_small (len (payload C m))) by lia. apply uint32_small. lia. }
    assert (Hneed' : still_needed (T - (received + len (payload C m)))
                       (map (payload C) ms) = true).
    { replace (T - (received + len (payload C m)))%Z
        with (T - received - len (payload C m))%Z by lia. exact Hneed. }
    assert (Hlen' : usingStdout outFile = false ->
                    len (data ++ payload C m) = (received + len (payload C m))%Z).
    { intros Hu. rewrite len_app, (Hlen Hu). reflexivity. }
    destruct (IH (received + len (payload C m))%Z fuel (data ++ payload C m) s2
                 Hms Hneed' ltac:(lia) Hlen' Hst2 ltac:(simpl in Hfuel; lia))
      as [s' [Hloop [Hst' [Hs' Hq']]]].
    exists s'. split; [|split; [|split]].
    + cbn [entropy_loop]. rewrite Hgo. unfold bind. rewrite Hget. cbn [fst snd].
      rewrite Hproc. cbn [fst snd]. fold (len (payload C m)). rewrite Hnext. exact Hloop.
    + simpl map. simpl List.concat. rewrite app_assoc. exact Hst'.
    + rewrite Hs', Hs2, Hs1. simpl map.
      rewrite (sink_view_cons (payload C m) (map (payload C) ms)).
      rewrite app_assoc. reflexivity.
    + rewrite Hq', Hq2, Hq1. simpl map. cbn [remaining].
      rewrite uint32_small by lia. rewrite <- app_assoc.
      replace (T - (received + len (payload C m)))%Z
        with (T - received - len (payload C m))%Z by lia. reflexivity.
Qed.

(** [Connect] when the driver has no failure scripted. *)
Lemma Connect_ok (s : St) :
  w_opens (snd s) = [] ->
  exists (s1 : St) (h : Handle),
    Connect s = (None, s1) /\ dev (fst s1) = Some h /\ is_live h (snd s1) = true /\
    w_reads (snd s1) = w_reads (snd s).
Proof.
  destruct s as [[dt [h0|] sp st] w]; simpl; intros Ho;
    unfold Connect, bind, get_device, dev_Close, lift, set_dev, Driver_GetDevice,
      world_GetDevice, world_Close, ret; simpl.
  - destruct (is_live h0 w); [destruct (w_closes w) as [|c cs]|]; simpl; rewrite Ho; simpl;
      eexists; eexists; (split; [reflexivity|]); simpl;
      (split; [reflexivity|]); (split; [|reflexivity]);
      unfold is_live; simpl; rewrite Nat.eqb_refl; reflexivity.
  - rewrite Ho. simpl.
    eexists; eexists; (split; [reflexivity|]); simpl;
      (split; [reflexivity|]); (split; [|reflexivity]);
      unfold is_live; simpl; rewrite Nat.eqb_refl; reflexivity.
Qed.

(** The stream from [Connect] to the deferred [Disconnect]. *)
Lemma entropy_stream_ok (m : Message) (ms : list Message) (rest : list (outcome Message))
      (s : St) :
  (T < 4294967296)%Z ->
  Forall (entropy_reply C) (m :: ms) ->
  exact_rounds T (map (payload C) (m :: ms)) = true ->
  w_opens (snd s) = [] -> w_writes (snd s) = [] -> w_faults (snd s) = [] ->
  w_reads (snd s) = map (@Got Message) (m :: ms) ++ rest ->
  (usingStdout outFile = false ->
   exists mode, w_files (snd s) outFile = Some {| f_data := []; f_mode := mode |}) ->
  exists sd,
    entropy_stream C outFile T builder s = (None, sd) /\
    w_faults (snd sd) = [] /\
    (usingStdout outFile = false ->
     exists mode, w_files (snd sd) outFile =
                  Some {| f_data := List.concat (map (payload C) (m :: ms));
                          f_mode := mode |}) /\
    sunk (w_log (snd sd)) =
      sunk (w_log (snd s)) ++ sink_view outFile (map (payload C) (m :: ms)) /\
    requested (w_log (snd sd)) =
      requested (w_log (snd s)) ++ remaining T (map (payload C) (m :: ms)).
Proof.
  intros HT Hall Hexact Ho Hw Hf Hr Hfile.
  inversion Hall as [|m' ms' Hm Hms]; subst.
  unfold exact_rounds in Hexact. cbn [map] in Hexact.
  pose proof (still_needed_nonneg _ _ Hexact) as Hroom.
  pose proof (len_nonneg (payload C m)) as Hp.
  destruct (@Connect_ok s Ho) as [s1 [h [Hc [Hd [Hl Hr1]]]]].
  pose proof (@sink_frame_Connect _ _ _ _ s (sink_frame_here s Hw))
    as [Hw1 [Hf1 [Hfs1 [Hk1 Hq1]]]].
  rewrite Hc in Hw1, Hf1, Hfs1, Hk1, Hq1. cbn [snd] in Hw1, Hf1, Hfs1, Hk1, Hq1.
  assert (Hst1 : streaming outFile h (Got m :: map (@Got Message) ms ++ rest) [] s1).
  { repeat split; auto.
    - rewrite Hf1. exact Hf.
    - rewrite Hr1. exact Hr.
    - intros Hu. rewrite Hfs1. apply Hfile, Hu. }
  destruct (@getEntropy_ok h m (map (@Got Message) ms ++ rest) [] s1 T Hst1 Hm)
    as [s2 [Hget [Hst2 [Hk2 Hq2]]]].
  destruct (@processBytes_ok h (map (@Got Message) ms ++ rest) [] s2 (payload C m) Hst2)
    as [s3 [Hproc [Hst3 [Hk3 Hq3]]]].
  assert (Hfuel : List.length ms < S (List.length (w_reads (snd s3)))).
  { destruct Hst3 as [_ [_ [_ [_ [Hr3 _]]]]]. rewrite Hr3, length_app, length_map. lia. }
  assert (Hneed : still_needed (T - len (payload C m)) (map (payload C) ms) = true)
    by exact Hexact.
  destruct (@entropy_loop_ok h rest HT ms (len (payload C m))
              (S (List.length (w_reads (snd s3)))) ([] ++ payload C m) s3
              Hms Hneed Hp (fun _ => eq_refl) Hst3 Hfuel)
    as [s4 [Hloop [Hst4 [Hk4 Hq4]]]].
  destruct Hst4 as [Hd4 [Hl4 [Hw4 [Hf4 [Hr4 Hfile4]]]]].
  pose proof (@sink_frame_Disconnect _ _ _ _ C s4 (sink_frame_here s4 Hw4))
    as [Hw5 [Hf5 [Hfs5 [Hk5 Hq5]]]].
  exists (snd (Disconnect C s4)).
  split; [|split; [|split; [|split]]].
  - unfold entropy_stream, bind, with_fuel, ret. rewrite Hc. cbn [fst snd].
    rewrite Hget. cbn [fst snd]. rewrite Hproc. cbn [fst snd].
    fold (len (payload C m)). rewrite (@uint32_small (len (payload C m))) by lia.
    rewrite Hloop. reflexivity.
  - rewrite Hf5. exact Hf4.
  - intros Hu. rewrite Hfs5. destruct (Hfile4 Hu) as [mode Hfs4].
    exists mode. rewrite Hfs4. reflexivity.
  - rewrite Hk5, Hk4, Hk3, Hk2, Hk1. cbn [map].
    rewrite (sink_view_cons (payload C m) (map (payload C) ms)), app_assoc. reflexivity.
  - rewrite Hq5, Hq4, Hq3, Hq2, Hq1. cbn [map remaining]. rewrite <- app_assoc. reflexivity.
Qed.

Lemma still_needed_total (R : Z) (ps : list (list byte)) :
  still_needed R ps = true -> len (List.concat ps) = R.
Proof.
  revert R. induction ps as [|p ps IH]; intros R H; simpl in H.
  - apply Z.eqb_eq in H. subst R. reflexivity.
  - apply andb_true_iff in H. destruct H as [_ H]. simpl. rewrite len_app, (IH _ H). lia.
Qed.

(** The file-sink steps before the stream: [os.Stat], [os.Chmod 0777] when
    the file exists, [os.Create]. *)
Lemma create_ok (s : St) :
  w_faults (snd s) = [] ->
  exists (sc : St) (mode : Z),
    (st <- os_Stat outFile ;;
     (match st with
      | Got _ => _ <- os_Chmod outFile 511 ;; ret tt
      | Failed _ => ret tt
      end) ;;
     os_Create outFile) s = (None, sc) /\
    w_opens (snd sc) = w_opens (snd s) /\ w_writes (snd sc) = w_writes (snd s) /\
    w_reads (snd sc) = w_reads (snd s) /\ w_faults (snd sc) = [] /\
    w_files (snd sc) outFile = Some {| f_data := []; f_mode := mode |} /\
    sunk (w_log (snd sc)) = sunk (w_log (snd s)) /\
    requested (w_log (snd sc)) = requested (w_log (snd s)).
Proof.
  intros Hf. unfold bind, os_Stat, os_Chmod, os_Create, lift, ret. cbn [fst snd].
  rewrite Hf. cbn [pop fst snd].
  destruct (w_files (snd s) outFile) as [f|] eqn:Hfs; cbn [fst snd pop set_faults w_faults].
  - cbn [log_event set_faults w_files w_faults]. rewrite Hfs. cbn.
    rewrite String.eqb_refl. cbn.
    eexists; eexists; split; [reflexivity|]. cbn. rewrite String.eqb_refl.
    repeat split; reflexivity.
  - cbn [log_event set_faults w_files w_faults]. rewrite Hfs. cbn.
    eexists; eexists; split; [reflexivity|]. cbn. rewrite String.eqb_refl.
    repeat split; reflexivity.
Qed.

(** The file-sink steps after the stream: [file.Close], [os.Chmod 0444], and
    the [checkProducedFile] whose result only decides whether the progress
    bar prints. *)
Lemma finish_ok (A : Type) (res : A) (data : list byte) (mode : Z) (s : St) :
  w_faults (snd s) = [] ->
  w_files (snd s) outFile = Some {| f_data := data; f_mode := mode |} ->
  exists sf,
    (file_Close outFile ;; _ <- os_Chmod outFile 292 ;;
     _ <- checkProducedFile outFile T ;; ret res) s = (res, sf) /\
    w_files (snd sf) outFile = Some {| f_data := data; f_mode := 292 |} /\
    sunk (w_log (snd sf)) = sunk (w_log (snd s)) /\
    requested (w_log (snd sf)) = requested (w_log (snd s)).
Proof.
  intros Hf Hfs.
  unfold file_Close, emit, checkProducedFile, os_Chmod, os_Stat, lift, bind, ret.
  cbn [fst snd log_event w_faults w_files]. rewrite Hf, Hfs. cbn.
  destruct (usingStdout outFile); cbn.
  - eexists; split; [reflexivity|]. cbn. rewrite String.eqb_refl. repeat split; reflexivity.
  - rewrite String.eqb_refl. cbn.
    destruct (Z.of_nat (List.length data) =? T)%Z; cbn;
      (eexists; split; [reflexivity|]); cbn; rewrite String.eqb_refl;
      repeat split; reflexivity.
Qed.

(** X7: the entropy stream when everything succeeds.  [T] is the requested
    total (a uint32), [ms] the replies of the device, each an [Entropy]
    message that decodes; there is at least one reply, each later one arrives
    while bytes are still missing, and together they carry exactly [T] bytes.
    The driver, the writes and the file system have no failure scripted.
    Then the method returns nil; the builder is asked, round after round, for
    exactly the count still missing (the first time for [T]) and not once
    more; the payloads reach the sink in the order of arrival, each once (a
    file sink gets no write for an empty payload); and a file sink ends up
    holding exactly the [T] bytes, read-only. *)
Theorem SaveDeviceEntropyInFile_exact (ms : list Message) (rest : list (outcome Message))
        (s : St) :
  (T < 4294967296)%Z ->
  Forall (entropy_reply C) ms ->
  exact_rounds T (map (payload C) ms) = true ->
  w_opens (snd s) = [] -> w_writes (snd s) = [] -> w_faults (snd s) = [] ->
  w_reads (snd s) = map (@Got Message) ms ++ rest ->
  fst (SaveDeviceEntropyInFile C outFile T builder s) = None /\
  requested (w_log (snd (snd (SaveDeviceEntropyInFile C outFile T builder s)))) =
    requested (w_log (snd s)) ++ remaining T (map (payload C) ms) /\
  sunk (w_log (snd (snd (SaveDeviceEntropyInFile C outFile T builder s)))) =
    sunk (w_log (snd s)) ++ sink_view outFile (map (payload C) ms) /\
  len (List.concat (map (payload C) ms)) = T /\
  (if usingStdout outFile then True
   else w_files (snd (snd (SaveDeviceEntropyInFile C outFile T builder s))) outFile =
        Some {| f_data := List.concat (map (payload C) ms); f_mode := 292 |}).
Proof.
  intros HT Hall Hexact Ho Hw Hf Hr.
  destruct ms as [|m ms]; [discriminate Hexact|].
  assert (Htotal : len (List.concat (map (payload C) (m :: ms))) = T).
  { unfold exact_rounds in Hexact. cbn [map] in Hexact. cbn [map List.concat].
    rewrite len_app, (still_needed_total _ _ Hexact). lia. }
  destruct (usingStdout outFile) eqn:Hu.
  - assert (Hfile : usingStdout outFile = false ->
                    exists mode, w_files (snd s) outFile =
                                 Some {| f_data := []; f_mode := mode |})
      by (intros H; congruence).
    destruct (@entropy_stream_ok m ms rest s HT Hall Hexact Ho Hw Hf Hr Hfile)
      as [sd [Hrun [_ [_ [Hk Hq]]]]].
    unfold SaveDeviceEntropyInFile. rewrite Hu, Hrun. cbn [fst snd]. auto.
  - destruct (@create_ok s Hf)
      as [sc [mode [Hcreate [Ho' [Hw' [Hr' [Hf' [Hfs' [Hk' Hq']]]]]]]]].
    assert (Hfile : usingStdout outFile = false ->
                    exists mode, w_files (snd sc) outFile =
                                 Some {| f_data := []; f_mode := mode |})
      by (intros _; exists mode; exact Hfs').
    rewrite <- Ho' in Ho. rewrite <- Hw' in Hw. rewrite <- Hr' in Hr.
    destruct (@entropy_stream_ok m ms rest sc HT Hall Hexact Ho Hw Hf' Hr Hfile)
      as [sd [Hrun [Hfd [Hfsd [Hk Hq]]]]].
    destruct (Hfsd Hu) as [mode' Hfiled].
    destruct (@finish_ok (option error) None _ mode' sd Hfd Hfiled)
      as [sf [Hfin [Hfsf [Hkf Hqf]]]].
    assert (Hall_run : SaveDeviceEntropyInFile C outFile T builder s = (None, sf)).
    { unfold SaveDeviceEntropyInFile. rewrite Hu.
      change ((st <- os_Stat outFile;;
               (match st with
                | Got _ => _ <- os_Chmod outFile 511;; ret tt
                | Failed _ => ret tt
                end);;
               cr <- os_Create outFile;;
               match cr with
               | Some e => _ <- checkProducedFile outFile T;; ret (Some e)
               | None =>
                   res <- entropy_stream C outFile T builder;;
                   file_Close outFile;;
                   _ <- os_Chmod outFile 292;;
                   _ <- checkProducedFile outFile T;; ret res
               end) s)
        with ((fun cr : option error =>
                 match cr with
                 | Some e => _ <- checkProducedFile outFile T;; ret (Some e)
                 | None =>
                     res <- entropy_stream C outFile T builder;;
                     file_Close outFile;;
                     _ <- os_Chmod outFile 292;;
                     _ <- checkProducedFile outFile T;; ret res
                 end)
                (fst ((st <- os_Stat outFile;;
                       (match st with
                        | Got _ => _ <- os_Chmod outFile 511;; ret tt
                        | Failed _ => ret tt
                        end);;
                       os_Create outFile) s))
                (snd ((st <- os_Stat outFile;;
                       (match st with
                        | Got _ => _ <- os_Chmod outFile 511;; ret tt
                        | Failed _ => ret tt
                        end);;
                       os_Create outFile) s))).
      rewrite Hcreate. cbn [fst snd]. rewrite bind_eq, Hrun. cbn [fst snd].
      exact Hfin. }
    rewrite Hall_run. cbn [fst snd].
    split; [reflexivity|]. split; [|split; [|split; [exact Htotal | exact Hfsf]]].
    + rewrite Hqf, Hq, Hq'. reflexivity.
    + rewrite Hkf, Hk, Hk'. reflexivity.
Qed.

(** *** A reply that ends the stream *)

(** One request answered by a message that is neither [Entropy] nor
    [ButtonRequest]. *)
Lemma getEntropy_abort (h : Handle) (b : Message) (R : list (outcome Message))
      (data : list byte) (s : St) (n : Z) :
  streaming outFile h (Got b :: R) data s ->
  Kind b <> MessageType_Entropy -> Kind b <> MessageType_ButtonRequest ->
  exists s',
    getEntropy C builder n s = (([], Some (failure_error C b)), s') /\
    streaming outFile h R data s' /\
    sunk (w_log (snd s')) = sunk (w_log (snd s)) /\
    requested (w_log (snd s')) = requested (w_log (snd s)) ++ [n].
Proof.
  intros [Hd [Hl [Hw [Hf [Hr Hfile]]]]] Hne Hnb.
  set (se := (fst s, log_event (EvGetEntropyMsgBuilder n) (snd s))).
  assert (Hle : is_live h (snd se) = true) by exact Hl.
  destruct (@SendToDevice_ok h (fst (builder n)) se b R Hle Hw Hr)
    as [s' [Hsend [Hdev [Hlive [Hreads [Hw' [Hf' [Hfs' [Hs' Hq']]]]]]]]].
  exists s'. split; [|split; [|split]].
  - unfold getEntropy, bind, emit, lift, get_device, with_fuel, ret. cbn [fst snd].
    rewrite builder_ok. fold se. cbn [fst snd].
    change (dev (fst se)) with (dev (fst s)). rewrite Hd.
    rewrite Hsend. cbn [fst snd processGetEntropyResponse].
    destruct (Kind b); try congruence; reflexivity.
  - repeat split.
    + rewrite Hdev. exact Hd.
    + rewrite <- Hle. apply is_live_of_live, Hlive.
    + exact Hw'.
    + rewrite Hf'. exact Hf.
    + exact Hreads.
    + intros Hu. rewrite Hfs'. apply Hfile, Hu.
  - rewrite Hs'. reflexivity.
  - rewrite Hq'. reflexivity.
Qed.

Lemma short_rounds_pos (R : Z) (ps : list (list byte)) :
  short_rounds R ps = true -> (0 < R)%Z.
Proof.
  destruct ps as [|p rest]; simpl; intros H.
  - apply Z.ltb_lt in H. exact H.
  - apply andb_true_iff in H. destruct H as [H _]. apply Z.ltb_lt in H. exact H.
Qed.

(** While a stream is unfinished, fewer bytes than asked for have come. *)
Lemma short_rounds_total (R : Z) (ps : list (list byte)) :
  short_rounds R ps = true -> (len (List.concat ps) < R)%Z.
Proof.
  revert R. induction ps as [|p ps IH]; intros R H; simpl in H.
  - apply Z.ltb_lt in H. exact H.
  - apply andb_true_iff in H. destruct H as [_ H]. simpl. rewrite len_app.
    specialize (IH _ H). lia.
Qed.

(** The loop of the stream, entered with [received] bytes so far, the
    replies [ms] ahead and the message [b] after them. *)
Lemma entropy_loop_abort (h : Handle) (b : Message) (rest : list (outcome Message)) :
  (T < 4294967296)%Z ->
  Kind b <> MessageType_Entropy -> Kind b <> MessageType_ButtonRequest ->
  forall (ms : list Message) (received : Z) (fuel : nat) (data : list byte) (s : St),
    Forall (entropy_reply C) ms ->
    short_rounds (T - received) (map (payload C) ms) = true ->
    (0 <= received)%Z ->
    streaming outFile h (map (@Got Message) ms ++ Got b :: rest) data s ->
    List.length ms < fuel ->
    exists s',
      entropy_loop C outFile T builder fuel received s = (Some (failure_error C b), s') /\
      streaming outFile h rest (data ++ List.concat (map (payload C) ms)) s' /\
      sunk (w_log (snd s')) =
        sunk (w_log (snd s)) ++ sink_view outFile (map (payload C) ms) /\
      requested (w_log (snd s')) =
        requested (w_log (snd s)) ++ remaining (T - received) (map (payload C) ms)
          ++ [(T - received - len (List.concat (map (payload C) ms)))%Z].
Proof.
  intros HT Hne Hnb.
  induction ms as [|m ms IH]; intros received fuel data s Hall Hneed Hrec Hst Hfuel.
  - simpl in Hneed. apply Z.ltb_lt in Hneed.
    assert (Hgo : (received <? T)%Z = true) by (apply Z.ltb_lt; lia).
    destruct fuel as [|fuel]; [simpl in Hfuel; lia|].
    destruct (@getEntropy_abort h b rest data s (uint32 (T - received)) Hst Hne Hnb)
      as [s1 [Hget [Hst1 [Hs1 Hq1]]]].
    exists s1. simpl List.concat. rewrite app_nil_r. simpl map.
    split; [|split; [exact Hst1|split]].
    + cbn [entropy_loop]. rewrite Hgo. unfold bind. rewrite Hget. reflexivity.
    + rewrite Hs1. unfold sink_view. destruct (usingStdout outFile); simpl;
        rewrite app_nil_r; reflexivity.
    + rewrite Hq1. simpl. rewrite uint32_small by lia.
      change (len []) with 0%Z. rewrite Z.sub_0_r. reflexivity.
  - destruct fuel as [|fuel]; [simpl in Hfuel; lia|].
    inversion Hall as [|m' ms' Hm Hms]; subst.
    simpl in Hneed. apply andb_true_iff in Hneed. destruct Hneed as [Hpos Hneed].
    apply Z.ltb_lt in Hpos.
    pose proof (short_rounds_pos _ _ Hneed) as Hroom.
    pose proof (len_nonneg (payload C m)) as Hp.
    assert (Hgo : (received <? T)%Z = true) by (apply Z.ltb_lt; lia).
    destruct (@getEntropy_ok h m (map (@Got Message) ms ++ Got b :: rest) data s
                (uint32 (T - received)) Hst Hm)
      as [s1 [Hget [Hst1 [Hs1 Hq1]]]].
    destruct (@processBytes_ok h (map (@Got Message) ms ++ Got b :: rest) data s1
                (payload C m) Hst1)
      as [s2 [Hproc [Hst2 [Hs2 Hq2]]]].
    assert (Hnext : uint32 (received + uint32 (len (payload C m)))
                    = (received + len (payload C m))%Z).
    { rewrite (@uint32_small (len (payload C m))) by lia. apply uint32_small. lia. }
    assert (Hneed' : short_rounds (T - (received + len (payload C m)))
                       (map (payload C) ms) = true).
    { replace (T - (received + len (payload C m)))%Z
        with (T - received - len (payload C m))%Z by lia. exact Hneed. }
    destruct (IH (received + len (payload C m))%Z fuel (data ++ payload C m) s2
                 Hms Hneed' ltac:(lia) Hst2 ltac:(simpl in Hfuel; lia))
      as [s' [Hloop [Hst' [Hs' Hq']]]].
    exists s'. split; [|split; [|split]].
    + cbn [entropy_loop]. rewrite Hgo. unfold bind. rewrite Hget. cbn [fst snd].
      rewrite Hproc. cbn [fst snd]. fold (len (payload C m)). rewrite Hnext. exact Hloop.
    + simpl map. simpl List.concat. rewrite app_assoc. exact Hst'.
    + rewrite Hs', Hs2, Hs1. simpl map.
      rewrite (sink_view_cons (payload C m) (map (payload C) ms)).
      rewrite app_assoc. reflexivity.
    + rewrite Hq', Hq2, Hq1. simpl map. cbn [remaining List.concat].
      rewrite uint32_small by lia. rewrite len_app, <- !app_assoc. cbn [app].
      replace (T - (received + len (payload C m)))%Z
        with (T - received - len (payload C m))%Z by lia.
      replace (T - received - (len (payload C m) + len (List.concat (map (payload C) ms))))%Z
        with (T - received - len (payload C m) - len (List.concat (map (payload C) ms)))%Z
        by lia.
      reflexivity.
Qed.

(** The stream from [Connect] to the deferred [Disconnect], ended by the
    message [b]. *)
Lemma entropy_stream_abort (ms : list Message) (b : Message) (rest : list (outcome Message))
      (s : St) :
  (T < 4294967296)%Z ->
  Forall (entropy_reply C) ms ->
  partial_rounds T (map (payload C) ms) = true ->
  Kind b <> MessageType_Entropy -> Kind b <> MessageType_ButtonRequest ->
  w_opens (snd s) = [] -> w_writes (snd s) = [] -> w_faults (snd s) = [] ->
  w_reads (snd s) = map (@Got Message) ms ++ Got b :: rest ->
  (usingStdout outFile = false ->
   exists mode, w_files (snd s) outFile = Some {| f_data := []; f_mode := mode |}) ->
  exists sd,
    entropy_stream C outFile T builder s = (Some (failure_error C b), sd) /\
    w_faults (snd sd) = [] /\
    (usingStdout outFile = false ->
     exists mode, w_files (snd sd) outFile =
                  Some {| f_data := List.concat (map (payload C) ms); f_mode := mode |}) /\
    sunk (w_log (snd sd)) =
      sunk (w_log (snd s)) ++ sink_view outFile (map (payload C) ms) /\
    requested (w_log (snd sd)) =
      requested (w_log (snd s)) ++ remaining T (map (payload C) ms)
        ++ [(T - len (List.concat (map (payload C) ms)))%Z].
Proof.
  intros HT Hall Hpart Hne Hnb Ho Hw Hf Hr Hfile.
  destruct (@Connect_ok s Ho) as [s1 [h [Hc [Hd [Hl Hr1]]]]].
  pose proof (@sink_frame_Connect _ _ _ _ s (sink_frame_here s Hw))
    as [Hw1 [Hf1 [Hfs1 [Hk1 Hq1]]]].
  rewrite Hc in Hw1, Hf1, Hfs1, Hk1, Hq1. cbn [snd] in Hw1, Hf1, Hfs1, Hk1, Hq1.
  assert (Hst1 : streaming outFile h (map (@Got Message) ms ++ Got b :: rest) [] s1).
  { repeat split; auto.
    - rewrite Hf1. exact Hf.
    - rewrite Hr1. exact Hr.
    - intros Hu. rewrite Hfs1. apply Hfile, Hu. }
  destruct ms as [|m ms].
  - destruct (@getEntropy_abort h b rest [] s1 T Hst1 Hne Hnb)
      as [s2 [Hget [Hst2 [Hk2 Hq2]]]].
    destruct Hst2 as [Hd2 [Hl2 [Hw2 [Hf2 [Hr2 Hfile2]]]]].
    pose proof (@sink_frame_Disconnect _ _ _ _ C s2 (sink_frame_here s2 Hw2))
      as [Hw5 [Hf5 [Hfs5 [Hk5 Hq5]]]].
    exists (snd (Disconnect C s2)).
    split; [|split; [|split; [|split]]].
    + unfold entropy_stream, bind, with_fuel, ret. rewrite Hc. cbn [fst snd].
      rewrite Hget. reflexivity.
    + rewrite Hf5. exact Hf2.
    + intros Hu. rewrite Hfs5. destruct (Hfile2 Hu) as [mode Hfs2].
      exists mode. rewrite Hfs2. reflexivity.
    + rewrite Hk5, Hk2, Hk1. cbn [map]. unfold sink_view.
      destruct (usingStdout outFile); simpl; rewrite app_nil_r; reflexivity.
    + rewrite Hq5, Hq2, Hq1. cbn [map remaining List.concat app].
      change (len []) with 0%Z. rewrite Z.sub_0_r. reflexivity.
  - inversion Hall as [|m' ms' Hm Hms]; subst.
    unfold partial_rounds in Hpart. cbn [map] in Hpart.
    pose proof (short_rounds_pos _ _ Hpart) as Hroom.
    pose proof (len_nonneg (payload C m)) as Hp.
    destruct (@getEntropy_ok h m (map (@Got Message) ms ++ Got b :: rest) [] s1 T Hst1 Hm)
      as [s2 [Hget [Hst2 [Hk2 Hq2]]]].
    destruct (@processBytes_ok h (map (@Got Message) ms ++ Got b :: rest) [] s2
                (payload C m) Hst2)
      as [s3 [Hproc [Hst3 [Hk3 Hq3]]]].
    assert (Hfuel : List.length ms < S (List.length (w_reads (snd s3)))).
    { destruct Hst3 as [_ [_ [_ [_ [Hr3 _]]]]]. rewrite Hr3, length_app, length_map. lia. }
    destruct (@entropy_loop_abort h b rest HT Hne Hnb ms (len (payload C m))
                (S (List.length (w_reads (snd s3)))) ([] ++ payload C m) s3
                Hms Hpart Hp Hst3 Hfuel)
      as [s4 [Hloop [Hst4 [Hk4 Hq4]]]].
    destruct Hst4 as [Hd4 [Hl4 [Hw4 [Hf4 [Hr4 Hfile4]]]]].
    pose proof (@sink_frame_Disconnect _ _ _ _ C s4 (sink_frame_here s4 Hw4))
      as [Hw5 [Hf5 [Hfs5 [Hk5 Hq5]]]].
    exists (snd (Disconnect C s4)).
    split; [|split; [|split; [|split]]].
    + unfold entropy_stream, bind, with_fuel, ret. rewrite Hc. cbn [fst snd].
      rewrite Hget. cbn [fst snd]. rewrite Hproc. cbn [fst snd].
      fold (len (payload C m)). rewrite (@uint32_small (len (payload C m))) by lia.
      rewrite Hloop. reflexivity.
    + rewrite Hf5. exact Hf4.
    + intros Hu. rewrite Hfs5. destruct (Hfile4 Hu) as [mode Hfs4].
      exists mode. rewrite Hfs4. reflexivity.
    + rewrite Hk5, Hk4, Hk3, Hk2, Hk1. cbn [map].
      rewrite (sink_view_cons (payload C m) (map (payload C) ms)), app_assoc. reflexivity.
    + rewrite Hq5, Hq4, Hq3, Hq2, Hq1. cbn [map remaining List.concat].
      rewrite len_app, <- !app_assoc. cbn [app].
      replace (T - (len (payload C m) + len (List.concat (map (payload C) ms))))%Z
        with (T - len (payload C m) - len (List.concat (map (payload C) ms)))%Z by lia.
      reflexivity.
Qed.

(** The file-sink run, put together from its three parts. *)
Lemma SaveDeviceEntropyInFile_file (res : option error) (s sc sd sf : St) :
  usingStdout outFile = false ->
  (st <- os_Stat outFile ;;
   (match st with
    | Got _ => _ <- os_Chmod outFile 511 ;; ret tt
    | Failed _ => ret tt
    end) ;;
   os_Create outFile) s = (None, sc) ->
  entropy_stream C outFile T builder sc = (res, sd) ->
  (file_Close outFile ;; _ <- os_Chmod outFile 292 ;;
   _ <- checkProducedFile outFile T ;; ret res) sd = (res, sf) ->
  SaveDeviceEntropyInFile C outFile T builder s = (res, sf).
Proof.
  intros Hu Hcreate Hrun Hfin.
  unfold SaveDeviceEntropyInFile. rewrite Hu.
  change ((st <- os_Stat outFile;;
           (match st with
            | Got _ => _ <- os_Chmod outFile 511;; ret tt
            | Failed _ => ret tt
            end);;
           cr <- os_Create outFile;;
           match cr with
           | Some e => _ <- checkProducedFile outFile T;; ret (Some e)
           | None =>
               res <- entropy_stream C outFile T builder;;
               file_Close outFile;;
               _ <- os_Chmod outFile 292;;
               _ <- checkProducedFile outFile T;; ret res
           end) s)
    with ((fun cr : option error =>
             match cr with
             | Some e => _ <- checkProducedFile outFile T;; ret (Some e)
             | None =>
                 res <- entropy_stream C outFile T builder;;
                 file_Close outFile;;
                 _ <- os_Chmod outFile 292;;
                 _ <- checkProducedFile outFile T;; ret res
             end)
            (fst ((st <- os_Stat outFile;;
                   (match st with
                    | Got _ => _ <- os_Chmod outFile 511;; ret tt
                    | Failed _ => ret tt
                    end);;
                   os_Create outFile) s))
            (snd ((st <- os_Stat outFile;;
                   (match st with
                    | Got _ => _ <- os_Chmod outFile 511;; ret tt
                    | Failed _ => ret tt
                    end);;
                   os_Create outFile) s))).
  rewrite Hcreate. cbn [fst snd]. rewrite bind_eq, Hrun. cbn [fst snd].
  exact Hfin.
Qed.

(** X17: a reply that ends the entropy stream.  The device first sends the
    replies [ms], each an [Entropy] message that decodes and after each of
    which bytes are still missing, and then a message [b] that is neither
    [Entropy] nor [ButtonRequest] (a [Failure], but an [EntropyRequest] or a
    [Success] as well).  The driver, the writes and the file system have no
    failure scripted.  Then the method returns the error made from [b] as from
    a [Failure] message; the builder was asked once per reply of [ms] and once
    more for what was still missing; the payloads of [ms] have reached the
    sink and stay there; and a file sink is left holding these bytes only,
    fewer than [T], read-only. *)
Theorem SaveDeviceEntropyInFile_abort (ms : list Message) (b : Message)
        (rest : list (outcome Message)) (s : St) :
  (T < 4294967296)%Z ->
  Forall (entropy_reply C) ms ->
  partial_rounds T (map (payload C) ms) = true ->
  Kind b <> MessageType_Entropy -> Kind b <> MessageType_ButtonRequest ->
  w_opens (snd s) = [] -> w_writes (snd s) = [] -> w_faults (snd s) = [] ->
  w_reads (snd s) = map (@Got Message) ms ++ Got b :: rest ->
  fst (SaveDeviceEntropyInFile C outFile T builder s) = Some (failure_error C b) /\
  requested (w_log (snd (snd (SaveDeviceEntropyInFile C outFile T builder s)))) =
    requested (w_log (snd s)) ++ remaining T (map (payload C) ms)
      ++ [(T - len (List.concat (map (payload C) ms)))%Z] /\
  sunk (w_log (snd (snd (SaveDeviceEntropyInFile C outFile T builder s)))) =
    sunk (w_log (snd s)) ++ sink_view outFile (map (payload C) ms) /\
  (ms <> [] -> (len (List.concat (map (payload C) ms)) < T)%Z) /\
  (if usingStdout outFile then True
   else w_files (snd (snd (SaveDeviceEntropyInFile C outFile T builder s))) outFile =
        Some {| f_data := List.concat (map (payload C) ms); f_mode := 292 |}).
Proof.
  intros HT Hall Hpart Hne Hnb Ho Hw Hf Hr.
  assert (Htotal : ms <> [] -> (len (List.concat (map (payload C) ms)) < T)%Z).
  { destruct ms as [|m ms]; [congruence|]. intros _.
    unfold partial_rounds in Hpart. cbn [map] in Hpart. cbn [map List.concat].
    rewrite len_app. pose proof (short_rounds_total _ _ Hpart). lia. }
  destruct (usingStdout outFile) eqn:Hu.
  - assert (Hfile : usingStdout outFile = false ->
                    exists mode, w_files (snd s) outFile =
                                 Some {| f_data := []; f_mode := mode |})
      by (intros H; congruence).
    destruct (@entropy_stream_abort ms b rest s HT Hall Hpart Hne Hnb Ho Hw Hf Hr Hfile)
      as [sd [Hrun [_ [_ [Hk Hq]]]]].
    unfold SaveDeviceEntropyInFile. rewrite Hu, Hrun. cbn [fst snd]. auto.
  - destruct (@create_ok s Hf)
      as [sc [mode [Hcreate [Ho' [Hw' [Hr' [Hf' [Hfs' [Hk' Hq']]]]]]]]].
    assert (Hfile : usingStdout outFile = false ->
                    exists mode, w_files (snd sc) outFile =
                                 Some {| f_data := []; f_mode := mode |})
      by (intros _; exists mode; exact Hfs').
    rewrite <- Ho' in Ho. rewrite <- Hw' in Hw. rewrite <- Hr' in Hr.
    destruct (@entropy_stream_abort ms b rest sc HT Hall Hpart Hne Hnb Ho Hw Hf' Hr Hfile)
      as [sd [Hrun [Hfd [Hfsd [Hk Hq]]]]].
    destruct (Hfsd Hu) as [mode' Hfiled].
    destruct (@finish_ok (option error) (Some (failure_error C b)) _ mode' sd Hfd Hfiled)
      as [sf [Hfin [Hfsf [Hkf Hqf]]]].
    pose proof (@SaveDeviceEntropyInFile_file (Some (failure_error C b)) s sc sd sf
                  Hu Hcreate Hrun Hfin) as Hall_run.
    rewrite Hall_run. cbn [fst snd].
    split; [reflexivity|]. split; [|split; [|split; [exact Htotal | exact Hfsf]]].
    + rewrite Hqf, Hq, Hq'. reflexivity.
    + rewrite Hkf, Hk, Hk'. reflexivity.
Qed.

End Stream.

(** Five bytes asked for, delivered as "ab" and "cde", into the file "out". *)
Lemma SaveDeviceEntropyInFile_exact_witness :
  let run := SaveDeviceEntropyInFile Mock.codec "out" 5 (fun _ => Mock.tag Byte.x30)
               (Mock.usb [Got (Mock.msg MessageType_Entropy "ab");
                          Got (Mock.msg MessageType_Entropy "cde")]) in
  fst run = None /\
  requested (w_log (snd (snd run))) = [5; 3]%Z /\
  sunk (w_log (snd (snd run))) = [list_byte_of_string "ab"; list_byte_of_string "cde"] /\
  w_files (snd (snd run)) "out" =
    Some {| f_data := list_byte_of_string "abcde"; f_mode := 292 |}.
Proof.
  assert (Hall : Forall (entropy_reply Mock.codec)
                   [Mock.msg MessageType_Entropy "ab"; Mock.msg MessageType_Entropy "cde"])
    by (repeat constructor).
  pose proof (@SaveDeviceEntropyInFile_exact Mock.codec "out" 5
                (fun _ => Mock.tag Byte.x30) (fun _ => eq_refl)
                [Mock.msg MessageType_Entropy "ab"; Mock.msg MessageType_Entropy "cde"] []
                (Mock.usb [Got (Mock.msg MessageType_Entropy "ab");
                           Got (Mock.msg MessageType_Entropy "cde")])
                eq_refl Hall eq_refl eq_refl eq_refl eq_refl eq_refl)
    as [H1 [H2 [H3 [_ H4]]]].
  cbv zeta. repeat split; assumption.
Defined.

(** With [T = 0] the first request is sent all the same (asking for 0
    bytes); a device that has nothing to say makes the stream fail. *)
Example SaveDeviceEntropyInFile_zero_still_asks :
  let run := SaveDeviceEntropyInFile Mock.codec "-" 0 (fun _ => Mock.tag Byte.x30)
               (Mock.usb []) in
  fst run = Some ErrEOF /\ requested (w_log (snd (snd run))) = [0%Z].
Proof. vm_compute. split; reflexivity. Qed.

(** Five bytes asked for; the device sends "ab" and then a [Failure]. *)
Lemma SaveDeviceEntropyInFile_abort_witness :
  let run := SaveDeviceEntropyInFile Mock.codec "out" 5 (fun _ => Mock.tag Byte.x30)
               (Mock.usb [Got (Mock.msg MessageType_Entropy "ab");
                          Got (Mock.msg MessageType_Failure "no")]) in
  fst run = Some (errors_New "no") /\
  requested (w_log (snd (snd run))) = [5; 3]%Z /\
  sunk (w_log (snd (snd run))) = [list_byte_of_string "ab"] /\
  w_files (snd (snd run)) "out" =
    Some {| f_data := list_byte_of_string "ab"; f_mode := 292 |}.
Proof.
  assert (Hall : Forall (entropy_reply Mock.codec) [Mock.msg MessageType_Entropy "ab"])
    by (repeat constructor).
  pose proof (@SaveDeviceEntropyInFile_abort Mock.codec "out" 5
                (fun _ => Mock.tag Byte.x30) (fun _ => eq_refl)
                [Mock.msg MessageType_Entropy "ab"] (Mock.msg MessageType_Failure "no") []
                (Mock.usb [Got (Mock.msg MessageType_Entropy "ab");
                           Got (Mock.msg MessageType_Failure "no")])
                eq_refl Hall eq_refl ltac:(discriminate) ltac:(discriminate)
                eq_refl eq_refl eq_refl eq_refl)
    as [H1 [H2 [H3 [_ H4]]]].
  cbv zeta. repeat split; assumption.
Defined.

(** ** More argument checks *)

(** X8: [FirmwareUpload] on a driver that is not the USB one returns
    [ErrDeviceTypeEmulator] at once: no device is opened, nothing is logged,
    the state is untouched.  (The same error is returned for the invalid
    device type.) *)
Theorem FirmwareUpload_requires_usb (C : Codec) (payload hash : list byte) (s : St) :
  Driver (fst s) <> DeviceTypeUSB ->
  FirmwareUpload C payload hash s = (Some ErrDeviceTypeEmulator, s).
Proof.
  intros Hd. unfold FirmwareUpload, bind, get_device, ret; cbn [fst snd].
  destruct (Driver (fst s)); try reflexivity. congruence.
Qed.

Lemma FirmwareUpload_requires_usb_witness :
  FirmwareUpload Mock.codec [] [] (Mock.emulator []) =
    (Some ErrDeviceTypeEmulator, Mock.emulator []).
Proof.
  apply FirmwareUpload_requires_usb. discriminate.
Defined.

Lemma invalid_word_count_bad (wordCount : Z) :
  wordCount <> 12%Z -> wordCount <> 24%Z ->
  invalid_word_count wordCount = Some ErrInvalidWordCount.
Proof.
  intros H12 H24. unfold invalid_word_count.
  apply Z.eqb_neq in H12. apply Z.eqb_neq in H24. rewrite H12, H24. reflexivity.
Qed.

(** X9: the word-count check of [GenerateMnemonic] and [Recovery] and the nil
    check of [ApplySettings] come after [Connect], like the checks of
    [AddressGen] and [ChangePin]: with a word count other than 12 and 24
    (resp. a nil [usePassphrase]) the method closes the handle held so far,
    asks the driver for a device, and then either returns the error of
    [Connect] or returns [ErrInvalidWordCount] (resp. [ErrUsePassPhraseNil])
    after closing the handle just opened, without writing or reading. *)
Theorem word_count_checked_after_Connect (C : Codec) (wordCount : Z)
        (usePassphrase dryRun : bool) (label language : string) (s : St) :
  wordCount <> 12%Z -> wordCount <> 24%Z ->
  validation_run (GenerateMnemonic C wordCount usePassphrase) ErrInvalidWordCount s /\
  validation_run (Recovery C wordCount usePassphrase dryRun) ErrInvalidWordCount s /\
  validation_run (ApplySettings C None label language) ErrUsePassPhraseNil s.
Proof.
  intros H12 H24. repeat split; apply validation_run_intro.
  - unfold GenerateMnemonic. rewrite (invalid_word_count_bad H12 H24).
    apply confirmed_request_invalid.
  - unfold Recovery. rewrite (invalid_word_count_bad H12 H24).
    apply confirmed_request_invalid.
  - unfold ApplySettings. apply plain_request_invalid.
Qed.

Lemma word_count_checked_after_Connect_witness :
  validation_run (GenerateMnemonic Mock.codec 18 false) ErrInvalidWordCount (Mock.usb []).
Proof.
  refine (proj1 (@word_count_checked_after_Connect Mock.codec 18 false false "" ""
                   (Mock.usb []) _ _)); discriminate.
Defined.

(** ** More on [FirmwareUpload] *)

Section FirmwareMore.

Variable C : Codec.
Variables payload hash : list byte.

(** X11: [FirmwareUpload] returns nil only after the device confirmed: the
    driver is the USB one, the device was opened and initialised, the erase
    request was answered with [Success], the upload request with a
    [ButtonRequest], and the button ack with [Success]; the handle is closed
    afterwards. *)
Theorem FirmwareUpload_success_confirmed (s : St) :
  fst (FirmwareUpload C payload hash s) = None ->
  exists (s1 s2 s3 s4 s5 : St) (erasemsg uploadmsg resp : Message),
    Driver (fst s) = DeviceTypeUSB /\
    Connect s = (None, s1) /\
    Initialize C (dev (fst s1)) s1 = (None, s2) /\
    SendToDevice (dev (fst s1)) (fst (MessageFirmwareErase C payload)) s2
      = ((erasemsg, None), s3) /\
    Kind erasemsg = MessageType_Success /\
    SendToDevice (dev (fst s1)) (fst (MessageFirmwareUpload C payload hash)) s3
      = ((uploadmsg, None), s4) /\
    Kind uploadmsg = MessageType_ButtonRequest /\
    SendToDevice (dev (fst s4)) (fst (MessageButtonAck C)) s4 = ((resp, None), s5) /\
    Kind resp = MessageType_Success /\
    snd (FirmwareUpload C payload hash s) = snd (dev_Close (dev (fst s1)) s5).
Proof.
  unfold FirmwareUpload, FirmwareUpload_upload, FirmwareUpload_confirm, bind, get_device, ret.
  cbn [fst snd].
  destruct (Driver (fst s)) eqn:Hdrv; cbn [DeviceType_eqb negb]; try discriminate.
  destruct (Connect s) as [[e|] s1] eqn:Hc; cbn [fst snd]; try discriminate.
  destruct (Initialize C (dev (fst s1)) s1) as [[e|] s2] eqn:Hi; cbn [fst snd];
    try discriminate.
  destruct (snd (MessageFirmwareErase C payload)); try discriminate.
  destruct (SendToDevice (dev (fst s1)) (fst (MessageFirmwareErase C payload)) s2)
    as [[erasemsg [e|]] s3] eqn:He; cbn [fst snd]; try discriminate.
  destruct (Kind erasemsg) eqn:Hke; cbn [fst snd]; try discriminate.
  destruct (snd (MessageFirmwareUpload C payload hash)); try discriminate.
  destruct (SendToDevice (dev (fst s1)) (fst (MessageFirmwareUpload C payload hash)) s3)
    as [[uploadmsg [e|]] s4] eqn:Hu; cbn [fst snd]; try discriminate.
  destruct (Kind uploadmsg) eqn:Hku; cbn [fst snd]; try discriminate.
  destruct (snd (MessageButtonAck C)); try discriminate.
  destruct (SendToDevice (dev (fst s4)) (fst (MessageButtonAck C)) s4)
    as [[resp [e|]] s5] eqn:Hr; cbn [fst snd]; try discriminate.
  destruct (Kind resp) eqn:Hkr; cbn [fst snd]; try discriminate.
  intros _. exists s1, s2, s3, s4, s5, erasemsg, uploadmsg, resp.
  repeat split; assumption || reflexivity.
Qed.

(** X12: when the erase request was answered with [Success] and the upload
    request with a message that is neither a [ButtonRequest] nor a
    [Failure], the error [FirmwareUpload] returns names the kind of the
    erase reply ([Success]), not the kind of the upload reply. *)
Theorem FirmwareUpload_unexpected_upload_reply (s s1 s2 s3 s4 : St)
        (erasemsg uploadmsg : Message) :
  Driver (fst s) = DeviceTypeUSB ->
  Connect s = (None, s1) ->
  Initialize C (dev (fst s1)) s1 = (None, s2) ->
  snd (MessageFirmwareErase C payload) = None ->
  SendToDevice (dev (fst s1)) (fst (MessageFirmwareErase C payload)) s2
    = ((erasemsg, None), s3) ->
  Kind erasemsg = MessageType_Success ->
  snd (MessageFirmwareUpload C payload hash) = None ->
  SendToDevice (dev (fst s1)) (fst (MessageFirmwareUpload C payload hash)) s3
    = ((uploadmsg, None), s4) ->
  Kind uploadmsg <> MessageType_ButtonRequest ->
  Kind uploadmsg <> MessageType_Failure ->
  fst (FirmwareUpload C payload hash s) =
    Some (Errorf_unexpected_message_type MessageType_Success).
Proof.
  intros Hdrv Hc Hi Hb He Hk Hb' Hu Hn1 Hn2.
  unfold FirmwareUpload, FirmwareUpload_upload, bind, get_device; simpl.
  rewrite (DeviceType_eqb_USB Hdrv); simpl.
  rewrite Hc; simpl. rewrite Hi; simpl. rewrite Hb. rewrite He; simpl.
  rewrite Hk. rewrite Hb'. rewrite Hu; simpl.
  destruct (Kind uploadmsg); try reflexivity; congruence.
Qed.

End FirmwareMore.

(** The whole update goes through. *)
Lemma FirmwareUpload_success_confirmed_witness :
  exists (s1 s2 s3 s4 s5 : St) (erasemsg uploadmsg resp : Message),
    let s := Mock.usb [Got (Mock.msg MessageType_Success "");
                       Got (Mock.msg MessageType_Success "");
                       Got (Mock.msg MessageType_ButtonRequest "");
                       Got (Mock.msg MessageType_Success "")] in
    Driver (fst s) = DeviceTypeUSB /\
    Connect s = (None, s1) /\
    Initialize Mock.codec (dev (fst s1)) s1 = (None, s2) /\
    SendToDevice (dev (fst s1)) (fst (MessageFirmwareErase Mock.codec [])) s2
      = ((erasemsg, None), s3) /\
    Kind erasemsg = MessageType_Success /\
    SendToDevice (dev (fst s1)) (fst (MessageFirmwareUpload Mock.codec [] [])) s3
      = ((uploadmsg, None), s4) /\
    Kind uploadmsg = MessageType_ButtonRequest /\
    SendToDevice (dev (fst s4)) (fst (MessageButtonAck Mock.codec)) s4 = ((resp, None), s5) /\
    Kind resp = MessageType_Success /\
    snd (FirmwareUpload Mock.codec [] [] s) = snd (dev_Close (dev (fst s1)) s5).
Proof.
  apply (@FirmwareUpload_success_confirmed Mock.codec [] []
           (Mock.usb [Got (Mock.msg MessageType_Success "");
                      Got (Mock.msg MessageType_Success "");
                      Got (Mock.msg MessageType_ButtonRequest "");
                      Got (Mock.msg MessageType_Success "")])).
  vm_compute. reflexivity.
Defined.

(** The upload request is answered with a [Features] message: the error
    speaks of a [Success] message. *)
Lemma FirmwareUpload_unexpected_upload_reply_witness :
  fst (FirmwareUpload Mock.codec [] []
         (Mock.usb [Got (Mock.msg MessageType_Success "");
                    Got (Mock.msg MessageType_Success "");
                    Got (Mock.msg MessageType_Features "")])) =
    Some (Errorf_unexpected_message_type MessageType_Success).
Proof.
  set (s := Mock.usb [Got (Mock.msg MessageType_Success "");
                      Got (Mock.msg MessageType_Success "");
                      Got (Mock.msg MessageType_Features "")]).
  let x := eval vm_compute in (snd (Connect s)) in pose (s1 := x).
  let x := eval vm_compute in (snd (Initialize Mock.codec (dev (fst s1)) s1)) in
  pose (s2 := x).
  let x := eval vm_compute in
    (snd (SendToDevice (dev (fst s1)) (fst (MessageFirmwareErase Mock.codec [])) s2)) in
  pose (s3 := x).
  let x := eval vm_compute in
    (snd (SendToDevice (dev (fst s1)) (fst (MessageFirmwareUpload Mock.codec [] [])) s3)) in
  pose (s4 := x).
  assert (H1 : Connect s = (None, s1)) by (vm_compute; reflexivity).
  assert (H2 : Initialize Mock.codec (dev (fst s1)) s1 = (None, s2))
    by (vm_compute; reflexivity).
  assert (H3 : SendToDevice (dev (fst s1)) (fst (MessageFirmwareErase Mock.codec [])) s2
               = ((Mock.msg MessageType_Success "", None), s3))
    by (vm_compute; reflexivity).
  assert (H4 : SendToDevice (dev (fst s1)) (fst (MessageFirmwareUpload Mock.codec [] [])) s3
               = ((Mock.msg MessageType_Features "", None), s4))
    by (vm_compute; reflexivity).
  refine (@FirmwareUpload_unexpected_upload_reply Mock.codec [] [] s s1 s2 s3 s4 _ _
            eq_refl H1 H2 eq_refl H3 eq_refl eq_refl H4 _ _); discriminate.
Defined.

(** ** The request methods release the handle *)

Lemma keeps_ButtonAck_drain (C : Codec) (D : Device) (L : list Handle) (fuel : nat)
      (msg : Message) :
  preserves (keeps D L) (ButtonAck_drain C fuel msg).
Proof. revert msg. induction fuel as [|fuel IH]; intros msg; simpl; pres. Qed.

Lemma keeps_Initialize (C : Codec) (D : Device) (L : list Handle) (o : option Handle) :
  preserves (keeps D L) (Initialize C o).
Proof. unfold Initialize; pres. Qed.

#[export] Hint Resolve keeps_ButtonAck_drain keeps_Initialize : pres.

Lemma close_held (h : Handle) (s : St) :
  live (w_log (snd s)) = [h] \/ live (w_log (snd s)) = [] ->
  live (w_log (snd (snd (dev_Close (Some h) s)))) = [].
Proof.
  intros Hl. destruct (dev_Close_log h s) as [c Hc]. rewrite Hc. simpl.
  destruct Hl as [-> | ->]; simpl; [rewrite Nat.eqb_refl|]; reflexivity.
Qed.

Lemma Connect_cases (s : St) :
  single_handle s ->
  (exists e, fst (Connect s) = Some e /\ live (w_log (snd (snd (Connect s)))) = []) \/
  (exists h, fst (Connect s) = None /\ dev (fst (snd (Connect s))) = Some h /\
             live (w_log (snd (snd (Connect s)))) = [h]).
Proof.
  intros Hs. destruct (Connect_log s) as [r [pre [_ [_ [Hdev Hret]]]]].
  destruct (Connect_live Hs) as [_ Hlive]. rewrite Hdev in Hlive.
  destruct r as [h|e]; [right; exists h | left; exists e]; auto.
Qed.

Lemma released_tail (A : Type) (body : M A) (h : Handle) (s : St) :
  live (w_log (snd s)) = [h] ->
  preserves (keeps (fst s) [h]) body ->
  live (w_log (snd (snd ((r <- body ;; _ <- dev_Close (Some h) ;; ret r) s)))) = [].
Proof.
  intros Hl Hb. unfold bind, ret. cbn [fst snd].
  apply close_held. left. apply (Hb s). split; [reflexivity | exact Hl].
Qed.

Lemma close_unless_releases (A : Type) (rd : A * bool) (h : Handle) (s : St) :
  (snd rd = false -> dev (fst s) = Some h /\ live (w_log (snd s)) = [h]) ->
  (snd rd = true -> live (w_log (snd s)) = []) ->
  live (w_log (snd (snd (close_unless rd s)))) = [].
Proof.
  intros Hf Ht. unfold close_unless, bind, get_device, ret. cbn [fst snd].
  destruct (snd rd); cbn [negb fst snd].
  - apply Ht. reflexivity.
  - destruct (Hf eq_refl) as [Hd Hl]. rewrite Hd. apply close_held. left. exact Hl.
Qed.

Section Release.

Variable C : Codec.

Lemma plain_request_releases (invalid : option error) (build : GoRet (list Frame))
      (s : St) :
  single_handle s ->
  live (w_log (snd (snd (plain_request invalid build s)))) = [].
Proof.
  intros Hs. unfold plain_request. rewrite bind_eq.
  destruct (Connect_cases Hs) as [[e [Hr Hl]] | [h [Hr [Hd Hl]]]]; rewrite Hr.
  - exact Hl.
  - rewrite bind_eq. unfold get_device at 1 2. cbn [fst snd]. rewrite Hd.
    apply released_tail; [exact Hl|]. pres.
Qed.

Lemma ButtonAck_releases (s : St) :
  single_handle s -> live (w_log (snd (snd (ButtonAck C s)))) = [].
Proof.
  intros Hs. unfold ButtonAck. rewrite bind_eq.
  destruct (Connect_cases Hs) as [[e [Hr Hl]] | [h [Hr [Hd Hl]]]]; rewrite Hr.
  - exact Hl.
  - rewrite bind_eq. unfold get_device. cbn [fst snd]. rewrite Hd.
    apply released_tail; [exact Hl|]. pres.
Qed.

Lemma close_unless_cases (A : Type) (X : (A * bool) * St) (h : Handle) :
  (snd (fst X) = false /\ dev (fst (snd X)) = Some h /\ live (w_log (snd (snd X))) = [h]) \/
  (snd (fst X) = true /\ live (w_log (snd (snd X))) = []) ->
  live (w_log (snd (snd (close_unless (fst X) (snd X))))) = [].
Proof.
  intros H. apply (@close_unless_releases _ _ h).
  - intros Hf. destruct H as [[_ H] | [H _]]; [exact H | congruence].
  - intros Ht. destruct H as [[H _] | [_ H]]; [congruence | exact H].
Qed.

Lemma confirmed_request_releases (keep : bool) (invalid : option error)
      (build : GoRet (list Frame)) (s : St) :
  single_handle s ->
  live (w_log (snd (snd (confirmed_request C keep invalid build s)))) = [].
Proof.
  intros Hs. unfold confirmed_request. rewrite bind_eq.
  pose proof (preserves_Connect Hs) as Hs1.
  destruct (Connect_cases Hs) as [[e [Hr Hl]] | [h [Hr [Hd Hl]]]]; rewrite Hr.
  - exact Hl.
  - set (s1 := snd (Connect s)) in *. rewrite bind_eq.
    apply (@close_unless_cases _ _ h).
    destruct invalid; [left; auto|].
    destruct (snd build); [left; auto|].
    pose proof (@keeps_SendToDevice _ _ (dev (fst s1)) (fst build) s1 (keeps_here s1))
      as [Hdev Hlive].
    pose proof (@preserves_SendToDevice (dev (fst s1)) (fst build) s1 Hs1) as Hs2.
    unfold bind, get_device, ret. cbn [fst snd].
    destruct (snd (fst (SendToDevice (dev (fst s1)) (fst build) s1))); cbn [fst snd];
      [left; rewrite Hdev, Hlive; auto|].
    destruct (Kind (fst (fst (SendToDevice (dev (fst s1)) (fst build) s1)))); cbn [fst snd];
      try (left; rewrite Hdev, Hlive; auto).
    right. split; [reflexivity|]. apply ButtonAck_releases. exact Hs2.
Qed.

Lemma Backup_loop_post (fuel : nat) :
  forall (m : Message) (disconnected : bool) (s : St),
    single_handle s ->
    List.length (w_reads (snd s)) < fuel ->
    (snd (fst (Backup_loop C fuel m disconnected s)) = disconnected /\
     snd (Backup_loop C fuel m disconnected s) = s) \/
    (snd (fst (Backup_loop C fuel m disconnected s)) = true /\
     live (w_log (snd (snd (Backup_loop C fuel m disconnected s)))) = []).
Proof.
  induction fuel as [|fuel IH]; intros m disconnected s Hs Hfuel; [lia|].
  simpl. destruct (Kind m); try (left; split; reflexivity).
  rewrite bind_eq.
  pose proof (ButtonAck_releases Hs) as Hrel.
  pose proof (preserves_ButtonAck C Hs) as Hs1.
  pose proof (@ButtonAck_consumes C (List.length (w_reads (snd s))) s (le_n _)) as Hc.
  destruct (snd (fst (ButtonAck C s))) as [e|].
  - right. split; [reflexivity | exact Hrel].
  - specialize (Hc eq_refl).
    destruct (IH (fst (fst (ButtonAck C s))) true (snd (ButtonAck C s)) Hs1 ltac:(lia))
      as [[H1 H2] | [H1 H2]]; right; split; auto.
    rewrite H2. exact Hrel.
Qed.

Lemma Backup_releases (s : St) :
  single_handle s -> live (w_log (snd (snd (Backup C s)))) = [].
Proof.
  intros Hs. unfold Backup. rewrite bind_eq.
  pose proof (preserves_Connect Hs) as Hs1.
  destruct (Connect_cases Hs) as [[e [Hr Hl]] | [h [Hr [Hd Hl]]]]; rewrite Hr.
  - exact Hl.
  - set (s1 := snd (Connect s)) in *. rewrite bind_eq.
    apply (@close_unless_cases _ _ h).
    destruct (snd (MessageBackup C)); [left; auto|].
    pose proof (@keeps_SendToDevice _ _ (dev (fst s1)) (fst (MessageBackup C)) s1
                  (keeps_here s1)) as [Hdev Hlive].
    pose proof (@preserves_SendToDevice (dev (fst s1)) (fst (MessageBackup C)) s1 Hs1)
      as Hs2.
    unfold bind, get_device, with_fuel, ret. cbn [fst snd].
    destruct (snd (fst (SendToDevice (dev (fst s1)) (fst (MessageBackup C)) s1)));
      cbn [fst snd]; [left; rewrite Hdev, Hlive; auto|].
    set (s2 := snd (SendToDevice (dev (fst s1)) (fst (MessageBackup C)) s1)) in *.
    destruct (@Backup_loop_post (S (List.length (w_reads (snd s2))))
                (fst (fst (SendToDevice (dev (fst s1)) (fst (MessageBackup C)) s1)))
                false s2 Hs2 (Nat.lt_succ_diag_r _)) as [[H1 H2] | [H1 H2]].
    + left. rewrite H1, H2, Hdev, Hlive. auto.
    + right. auto.
Qed.

Lemma FirmwareUpload_releases (payload hash : list byte) (s : St) :
  single_handle s -> Driver (fst s) = DeviceTypeUSB ->
  live (w_log (snd (snd (FirmwareUpload C payload hash s)))) = [].
Proof.
  intros Hs Hdrv. unfold FirmwareUpload. rewrite bind_eq.
  unfold get_device. cbn [fst snd]. rewrite (DeviceType_eqb_USB Hdrv). cbn [negb].
  rewrite bind_eq.
  destruct (Connect_cases Hs) as [[e [Hr Hl]] | [h [Hr [Hd Hl]]]]; rewrite Hr.
  - exact Hl.
  - rewrite bind_eq. cbn [fst snd]. rewrite Hd.
    apply released_tail; [exact Hl|]. unfold FirmwareUpload_upload. pres.
Qed.

(** X10: every method that opens a device for one request is done with it when
    it returns: started in a state that keeps the single-handle discipline,
    it leaves no handle open, whatever the device answers and on every error
    path.  ([d.dev] may still name the closed handle.) *)
Theorem requests_release_handle (op : Op) (s : St) :
  single_handle s ->
  releases op s = true ->
  live (w_log (snd (run C op s))) = [].
Proof.
  intros Hs Hrel.
  destruct op; simpl in Hrel; try discriminate; simpl;
    try (apply plain_request_releases; exact Hs);
    try (apply confirmed_request_releases; exact Hs).
  - apply Backup_releases; exact Hs.
  - apply FirmwareUpload_releases; [exact Hs|].
    destruct (Driver (fst s)); try discriminate. reflexivity.
  - apply ButtonAck_releases; exact Hs.
  - unfold PinMatrixAck. rewrite bind_eq. apply plain_request_releases.
    apply (preserves_emit EvSleep eq_refl). exact Hs.
Qed.

End Release.

Lemma requests_release_handle_witness :
  live (w_log (snd (run Mock.codec OpWipe
                      (Mock.usb [Got (Mock.msg MessageType_ButtonRequest "")])))) = [].
Proof.
  apply requests_release_handle; [apply single_handle_fresh | reflexivity].
Defined.

(** ** One entropy ack for each [EntropyRequest] *)

Lemma written_dev_Write (h : Handle) (f : Frame) (s : St) :
  written (w_log (snd (snd (dev_Write (Some h) f s)))) = written (w_log (snd s)) ++ [f].
Proof.
  unfold dev_Write, lift, world_Write. cbn [fst snd].
  destruct (is_live h (snd s)); [destruct (w_writes (snd s))|]; reflexivity.
Qed.


Lemma written_write_chunks (h : Handle) (chunks : list Frame) (s : St) :
  fst (write_chunks (Some h) chunks s) = None ->
  written (w_log (snd (snd (write_chunks (Some h) chunks s)))) =
    written (w_log (snd s)) ++ chunks.
Proof.
  revert s. induction chunks as [|f chunks IH]; intros s; cbn [write_chunks].
  - intros _. rewrite app_nil_r. reflexivity.
  - rewrite bind_eq. destruct (fst (dev_Write (Some h) f s)); [discriminate|].
    intros H. rewrite (IH _ H), written_dev_Write, <- app_assoc. reflexivity.
Qed.


Lemma written_wire_ReadFrom (h : Handle) (s : St) :
  written (w_log (snd (snd (wire_ReadFrom (Some h) s)))) = written (w_log (snd s)).
Proof.
  unfold wire_ReadFrom, bind, lift, world_Read. cbn [fst snd].
  destruct (is_live h (snd s)); [destruct (w_reads (snd s)) as [|[m|e] t]|]; reflexivity.
Qed.




(** ** [ButtonAck] against the scripts *)

Lemma written_dev_Close (o : option Handle) (s : St) :
  written (w_log (snd (snd (dev_Close o s)))) = written (w_log (snd s)).
Proof.
  destruct o as [h|]; unfold dev_Close, bind, emit, lift, world_Close, ret; cbn [fst snd].
  - destruct (is_live h (snd s)); [destruct (w_closes (snd s))|]; reflexivity.
  - reflexivity.
Qed.


Lemma Connect_device (s : St) :
  Driver (fst (snd (Connect s))) = Driver (fst s) /\
  simulateButtonPress (fst (snd (Connect s))) = simulateButtonPress (fst s) /\
  simulateButtonType (fst (snd (Connect s))) = simulateButtonType (fst s) /\
  w_writes (snd (snd (Connect s))) = w_writes (snd s) /\
  written (w_log (snd (snd (Connect s)))) = written (w_log (snd s)).
Proof.
  destruct s as [[dt [h0|] sp st] w];
    unfold Connect, bind, get_device, dev_Close, lift, set_dev, Driver_GetDevice,
      world_GetDevice, world_Close, ret; simpl.
  - destruct (is_live h0 w); [destruct (w_closes w) as [|c cs]|]; simpl;
      destruct (w_opens w) as [|[e|] t]; simpl; repeat split; reflexivity.
  - destruct (w_opens w) as [|[e|] t]; simpl; repeat split; reflexivity.
Qed.

Lemma dev_Write_ok (h : Handle) (f : Frame) (s : St) :
  is_live h (snd s) = true -> w_writes (snd s) = [] ->
  fst (dev_Write (Some h) f s) = None.
Proof.
  intros Hl Hw. unfold dev_Write, lift, world_Write. cbn [fst snd].
  rewrite Hl, Hw. reflexivity.
Qed.

(** The simulated press, when it is switched off, or switched on for the
    emulator with a frame that builds. *)
Lemma press_ok (C : Codec) (h : Handle) (b : bool) (s : St) :
  dev (fst s) = Some h -> is_live h (snd s) = true -> w_writes (snd s) = [] ->
  (b = true ->
   Driver (fst s) = DeviceTypeEmulator /\
   snd (MessageSimulateButtonPress C (simulateButtonType (fst s))) = None) ->
  let r := (if b then SimulateButtonPress C else ret None) s in
  fst r = None /\ fst (snd r) = fst s /\
  live (w_log (snd (snd r))) = live (w_log (snd s)) /\
  w_reads (snd (snd r)) = w_reads (snd s) /\
  written (w_log (snd (snd r))) =
    written (w_log (snd s)) ++
    (if b then [fst (MessageSimulateButtonPress C (simulateButtonType (fst s)))] else []).
Proof.
  intros Hd Hl Hw Hsim. destruct b; cbv zeta.
  - destruct (Hsim eq_refl) as [Hdrv Hb].
    pose proof (@keeps_SimulateButtonPress C _ _ s (keeps_here s)) as [Hdev Hlive].
    pose proof (@reads_SimulateButtonPress C _ s eq_refl) as Hreads.
    split; [|split; [exact Hdev|split; [exact Hlive|split; [exact Hreads|]]]];
      unfold SimulateButtonPress, bind, get_device, ret; cbn [fst snd];
      rewrite Hdrv, Hb, Hd; cbn [DeviceType_eqb negb].
    + apply dev_Write_ok; assumption.
    + apply written_dev_Write.
  - simpl. rewrite app_nil_r. repeat split; reflexivity.
Qed.



(** ** The methods that return the reply as it is *)

Lemma reads_dev_Close (o : option Handle) (s : St) :
  w_reads (snd (snd (dev_Close o s))) = w_reads (snd s).
Proof.
  destruct o as [h|]; unfold dev_Close, bind, emit, lift, world_Close, ret; cbn [fst snd].
  - destruct (is_live h (snd s)); [destruct (w_closes (snd s))|]; reflexivity.
  - reflexivity.
Qed.

Lemma written_SendToDevice_ok (h : Handle) (chunks : list Frame) (s : St) :
  is_live h (snd s) = true -> w_writes (snd s) = [] ->
  written (w_log (snd (snd (SendToDevice (Some h) chunks s)))) =
    written (w_log (snd s)) ++ chunks.
Proof.
  intros Hl Hw.
  pose proof (write_chunks_live h chunks s Hl) as Hok.
  unfold writes_succeed in Hok. rewrite Hw, firstn_nil in Hok. simpl in Hok.
  pose proof (@written_write_chunks h chunks s) as Hwr.
  unfold SendToDevice. rewrite bind_eq.
  destruct (fst (write_chunks (Some h) chunks s)); [discriminate Hok|].
  rewrite written_wire_ReadFrom. apply Hwr. reflexivity.
Qed.

Lemma plain_request_verbatim (build : GoRet (list Frame)) (s : St) (m : Message)
      (R : list (outcome Message)) :
  w_opens (snd s) = [] -> w_writes (snd s) = [] ->
  snd build = None ->
  w_reads (snd s) = Got m :: R ->
  fst (plain_request None build s) = (m, None) /\
  written (w_log (snd (snd (plain_request None build s)))) =
    written (w_log (snd s)) ++ fst build /\
  w_reads (snd (snd (plain_request None build s))) = R.
Proof.
  intros Ho Hw Hb Hr.
  destruct (@Connect_ok s Ho) as [s1 [h [Hc [Hd [Hl Hr1]]]]].
  destruct (Connect_device s) as [_ [_ [_ [Hw1 Hwr1]]]].
  rewrite Hc in Hw1, Hwr1. cbn [fst snd] in Hw1, Hwr1. rewrite Hw in Hw1.
  rewrite Hr in Hr1.
  destruct (@SendToDevice_ok h (fst build) s1 m R Hl Hw1 Hr1)
    as [s2 [Hsend [_ [_ [Hr2 _]]]]].
  pose proof (@written_SendToDevice_ok h (fst build) s1 Hl Hw1) as Hwr2.
  rewrite Hsend in Hwr2. cbn [snd] in Hwr2.
  assert (Hrun : plain_request None build s = ((m, None), snd (dev_Close (Some h) s2))).
  { unfold plain_request, bind, get_device, ret. cbn [fst snd].
    rewrite Hc. cbn [fst snd]. rewrite Hb, Hd, Hsend. reflexivity. }
  rewrite Hrun. cbn [fst snd].
  rewrite written_dev_Close, reads_dev_Close, Hwr2, Hwr1. auto.
Qed.

(** X15: AddressGen, ApplySettings, Cancel, CheckMessageSignature,
    GetFeatures, TransactionSign, PassphraseAck, WordAck and PinMatrixAck,
    with arguments that pass their checks, when the driver opens a device, the
    request is built and no write fails: the method writes the chunks of its
    request and nothing else, reads one message, and returns that message
    with a nil error, whatever its kind.  A [ButtonRequest] is not
    acknowledged and a [Failure] is not turned into an error at this
    level. *)
Theorem plain_reply_verbatim (C : Codec) (op : PlainOp) (s : St) (m : Message)
        (R : list (outcome Message)) :
  address_count_ok op = true ->
  w_opens (snd s) = [] -> w_writes (snd s) = [] ->
  snd (plain_chunks C op) = None ->
  w_reads (snd s) = Got m :: R ->
  fst (plain_method C op s) = (m, None) /\
  written (w_log (snd (snd (plain_method C op s)))) =
    written (w_log (snd s)) ++ fst (plain_chunks C op) /\
  w_reads (snd (snd (plain_method C op s))) = R.
Proof.
  intros Hok Ho Hw Hb Hr.
  destruct op; cbn [plain_method plain_chunks] in *;
    try (apply plain_request_verbatim; assumption).
  - unfold AddressGen. cbn [address_count_ok] in Hok.
    destruct (addressN =? 0)%Z; [discriminate Hok|].
    apply plain_request_verbatim; assumption.
  - unfold PinMatrixAck. rewrite bind_eq.
    apply (@plain_request_verbatim (MessagePinMatrixAck C p) (snd (emit EvSleep s)) m R);
      assumption.
Qed.

(** [AddressGen] answered with a [ButtonRequest]: the request is returned. *)
Lemma plain_reply_verbatim_witness :
  fst (AddressGen Mock.codec 1 0 true
         (Mock.usb [Got (Mock.msg MessageType_ButtonRequest "")])) =
    (Mock.msg MessageType_ButtonRequest "", None).
Proof.
  exact (proj1 (@plain_reply_verbatim Mock.codec (PoAddressGen 1 0 true)
                  (Mock.usb [Got (Mock.msg MessageType_ButtonRequest "")])
                  (Mock.msg MessageType_ButtonRequest "") []
                  eq_refl eq_refl eq_refl eq_refl eq_refl)).
Defined.

(** ** A rejected [SetAutoPressButton] *)

(** X16: on the emulator, [SetAutoPressButton(true, t)] with a kind [t] that
    is none of Left, Right, Both returns its error after it has stored the
    flag: the simulation is switched on all the same, and the button type is
    the one stored before the call. *)
Theorem SetAutoPressButton_rejected_still_enables (t : ButtonType) (s : St) :
  Driver (fst s) = DeviceTypeEmulator ->
  valid_button t = false ->
  fst (SetAutoPressButton true t s) = Some (Errorf_invalid_button_type t) /\
  simulateButtonPress (fst (snd (SetAutoPressButton true t s))) = true /\
  simulateButtonType (fst (snd (SetAutoPressButton true t s))) = simulateButtonType (fst s).
Proof.
  intros Hdrv Hv. destruct s as [[dt h sp st] w]. simpl in Hdrv. subst dt.
  unfold SetAutoPressButton, bind, get_device; simpl.
  unfold valid_button in Hv. rewrite Hv. simpl. repeat split.
Qed.

(** A fresh emulator device has button type -1; after the rejected call the
    simulation is on with that type. *)
Lemma SetAutoPressButton_rejected_still_enables_witness :
  simulateButtonPress (fst (snd (SetAutoPressButton true 7%Z (Mock.emulator [])))) = true /\
  simulateButtonType (fst (snd (SetAutoPressButton true 7%Z (Mock.emulator [])))) = (-1)%Z.
Proof.
  exact (proj2 (@SetAutoPressButton_rejected_still_enables 7%Z (Mock.emulator [])
                  eq_refl eq_refl)).
Defined.

(** ** The entropy stream only adds to the log *)

Lemma after_os_Stat (L : list Event) (n : nat) (path : string) :
  preserves (after L n) (os_Stat path).
Proof.
  apply after_lift. intros w. destruct (w_faults w) as [|[e|] t]; simpl; mono_step.
Qed.

Lemma after_os_Chmod (L : list Event) (n : nat) (path : string) (mode : Z) :
  preserves (after L n) (os_Chmod path mode).
Proof.
  apply after_lift. intros w.
  destruct (w_faults w) as [|[e|] t]; simpl; destruct (w_files w path); mono_step.
Qed.

Lemma after_file_Write (L : list Event) (n : nat) (path : string) (buf : list byte) :
  preserves (after L n) (file_Write path buf).
Proof.
  apply after_lift. intros w.
  destruct (w_faults w) as [|[e|] t]; simpl; destruct (w_files w path); mono_step.
Qed.

Lemma after_file_Close (L : list Event) (n : nat) (path : string) :
  preserves (after L n) (file_Close path).
Proof. apply after_emit. Qed.

Lemma after_fmt_Print (L : list Event) (n : nat) (buf : list byte) :
  preserves (after L n) (fmt_Print buf).
Proof. apply after_emit. Qed.

#[export] Hint Resolve after_os_Stat after_os_Chmod after_file_Write after_file_Close
  after_fmt_Print after_emit : pres.

Lemma after_Connected_drain (C : Codec) (L : list Event) (n : nat) (fuel : nat)
      (msg : Message) :
  preserves (after L n) (Connected_drain C fuel msg).
Proof. revert msg. induction fuel as [|fuel IH]; intros msg; simpl; pres. Qed.

#[export] Hint Resolve after_Connected_drain : pres.

Lemma after_Disconnect (C : Codec) (L : list Event) (n : nat) :
  preserves (after L n) (Disconnect C).
Proof. unfold Disconnect, Connected; pres. Qed.

Lemma after_processGetEntropyResponse (C : Codec) (L : list Event) (n : nat) (fuel : nat)
      (err : option error) (msg : Message) :
  preserves (after L n) (processGetEntropyResponse C fuel err msg).
Proof. revert msg. induction fuel as [|fuel IH]; intros msg; simpl; pres. Qed.

#[export] Hint Resolve after_Disconnect after_processGetEntropyResponse : pres.

Lemma after_getEntropy (C : Codec) (builder : Z -> GoRet (list Frame)) (L : list Event)
      (n : nat) (bytes : Z) :
  preserves (after L n) (getEntropy C builder bytes).
Proof. unfold getEntropy; pres. Qed.

Lemma after_checkProducedFile (L : list Event) (n : nat) (outFile : string) (T : Z) :
  preserves (after L n) (checkProducedFile outFile T).
Proof. unfold checkProducedFile; pres. Qed.

Lemma after_file_write_loop (L : list Event) (n : nat) (outFile : string) (fuel : nat)
      (buf : list byte) (wroteBytes : nat) :
  preserves (after L n) (file_write_loop outFile fuel buf wroteBytes).
Proof. revert wroteBytes. induction fuel as [|fuel IH]; intros wroteBytes; simpl; pres. Qed.

#[export] Hint Resolve after_getEntropy after_checkProducedFile after_file_write_loop : pres.

Lemma after_processBytes (L : list Event) (n : nat) (outFile : string) (buf : list byte) :
  preserves (after L n) (processBytes outFile buf).
Proof. unfold processBytes; pres. Qed.

#[export] Hint Resolve after_processBytes : pres.

Lemma after_entropy_loop (C : Codec) (outFile : string) (T : Z)
      (builder : Z -> GoRet (list Frame)) (L : list Event) (n : nat) (fuel : nat)
      (received : Z) :
  preserves (after L n) (entropy_loop C outFile T builder fuel received).
Proof. revert received. induction fuel as [|fuel IH]; intros received; simpl; pres. Qed.

#[export] Hint Resolve after_entropy_loop : pres.

Lemma written_app (post L : list Event) : written (post ++ L) = written L ++ written post.
Proof.
  induction post as [|e post IH]; simpl; [rewrite app_nil_r; reflexivity|].
  destruct e; rewrite ?IH, ?app_assoc; reflexivity.
Qed.

(** What was written up to a point of the log stays at the head of what is
    written later. *)
Lemma after_writes_begin (L : list Event) (n : nat) (s : St) :
  after L n s -> writes_begin (written L) s.
Proof.
  intros [[post Hlog] _]. exists (written post). rewrite Hlog. apply written_app.
Qed.

(** ** [ButtonRequest] messages in the entropy stream *)

Section StreamButtons.

Variable C : Codec.
Variable outFile : string.
Variable T : Z.
Variable builder : Z -> GoRet (list Frame).

Hypothesis builder_ok : forall n, snd (builder n) = None.
Hypothesis ack_ok : snd (MessageButtonAck C) = None.

Lemma sink_frame_SimulateButtonPress (F : list (option error)) (FS : string -> option File)
      (K : list (list byte)) (Q : list Z) :
  preserves (sink_frame F FS K Q) (SimulateButtonPress C).
Proof.
  intros s H. unfold SimulateButtonPress, bind, get_device, ret. cbn [fst snd].
  destruct (negb (DeviceType_eqb (Driver (fst s)) DeviceTypeEmulator)); [exact H|].
  destruct (snd (MessageSimulateButtonPress C (simulateButtonType (fst s)))); [exact H|].
  apply sink_frame_dev_Write, H.
Qed.

(** A message of the stream, with the [ButtonRequest] messages [brs] before
    the reply [m] that carries entropy: [cur] is the first of them, [ahead]
    the ones still to be read. *)
Lemma processGetEntropyResponse_buttons (h : Handle) (m : Message)
      (R : list (outcome Message)) (data : list byte) :
  entropy_reply C m ->
  forall (brs : list Message) (cur : Message) (ahead : list Message) (fuel : nat) (s : St),
    cur :: ahead = brs ++ [m] ->
    Forall (fun b => Kind b = MessageType_ButtonRequest) brs ->
    streaming outFile h (map (@Got Message) ahead ++ R) data s ->
    (simulateButtonPress (fst s) = true ->
     Driver (fst s) = DeviceTypeEmulator /\
     snd (MessageSimulateButtonPress C (simulateButtonType (fst s))) = None) ->
    List.length brs < fuel ->
    exists s',
      processGetEntropyResponse C fuel None cur s = ((payload C m, None), s') /\
      streaming outFile h R data s' /\
      fst s' = fst s /\
      sunk (w_log (snd s')) = sunk (w_log (snd s)) /\
      requested (w_log (snd s')) = requested (w_log (snd s)) /\
      written (w_log (snd s')) =
        written (w_log (snd s)) ++
        List.concat (repeat (fst (MessageButtonAck C) ++ press_frames C (fst s))
                            (List.length brs)).
Proof.
  intros [Hk Hdec].
  induction brs as [|b brs IH]; intros cur ahead fuel s Heq Hall Hst Hsim Hfuel;
    (destruct fuel as [|fuel]; [simpl in Hfuel; lia|]).
  - injection Heq as -> ->. exists s. cbn [processGetEntropyResponse].
    rewrite Hk, Hdec. simpl. rewrite app_nil_r.
    repeat split; try reflexivity; try apply Hst.
  - cbn [app] in Heq. injection Heq as -> ->.
    inversion Hall as [|b' brs' Hb Hbrs]; subst.
    destruct Hst as [Hd [Hl [Hw [Hf [Hr Hfile]]]]].
    (* the ack *)
    pose proof (write_chunks_live h (fst (MessageButtonAck C)) s Hl) as Hok.
    unfold writes_succeed in Hok. rewrite Hw, firstn_nil in Hok. simpl in Hok.
    pose proof (@keeps_write_chunks _ _ (Some h) (fst (MessageButtonAck C)) s (keeps_here s))
      as [Hdev1 Hlive1].
    pose proof (@reads_write_chunks _ (Some h) (fst (MessageButtonAck C)) s eq_refl) as Hreads1.
    pose proof (@sink_frame_write_chunks _ _ _ _ (Some h) (fst (MessageButtonAck C)) s
                  (sink_frame_here s Hw)) as [Hw1 [Hf1 [Hfs1 [Hk1 Hq1]]]].
    pose proof (@written_write_chunks h (fst (MessageButtonAck C)) s) as Hwr1.
    unfold reads_are in Hreads1.
    destruct (fst (write_chunks (Some h) (fst (MessageButtonAck C)) s)) as [e|] eqn:Hres;
      [discriminate Hok|].
    specialize (Hwr1 eq_refl).
    set (s1 := snd (write_chunks (Some h) (fst (MessageButtonAck C)) s)) in *.
    assert (Hl1 : is_live h (snd s1) = true).
    { rewrite <- Hl. apply is_live_of_live, Hlive1. }
    assert (Hd1 : dev (fst s1) = Some h) by (rewrite Hdev1; exact Hd).
    (* the press *)
    assert (Hsim1 : simulateButtonPress (fst s) = true ->
                    Driver (fst s1) = DeviceTypeEmulator /\
                    snd (MessageSimulateButtonPress C (simulateButtonType (fst s1))) = None)
      by (rewrite Hdev1; exact Hsim).
    pose proof (@press_ok C h (simulateButtonPress (fst s)) s1 Hd1 Hl1 Hw1 Hsim1) as Hpress.
    cbv zeta in Hpress. destruct Hpress as [Hp [Hdev2 [Hlive2 [Hreads2 Hwr2]]]].
    assert (Hframe2 : sink_frame (w_faults (snd s1)) (w_files (snd s1))
                        (sunk (w_log (snd s1))) (requested (w_log (snd s1)))
                        (snd ((if simulateButtonPress (fst s)
                               then SimulateButtonPress C else ret None) s1))).
    { destruct (simulateButtonPress (fst s)).
      - apply sink_frame_SimulateButtonPress, sink_frame_here, Hw1.
      - apply sink_frame_here, Hw1. }
    destruct Hframe2 as [Hw2 [Hf2 [Hfs2 [Hk2 Hq2]]]].
    set (s2 := snd ((if simulateButtonPress (fst s)
                     then SimulateButtonPress C else ret None) s1)) in *.
    assert (Hl2 : is_live h (snd s2) = true).
    { rewrite <- Hl1. apply is_live_of_live, Hlive2. }
    (* the read *)
    pose proof (wire_ReadFrom_live h s2 Hl2) as Hread.
    pose proof (written_wire_ReadFrom h s2) as Hwr3.
    rewrite Hreads2, Hreads1, Hr in Hread.
    destruct (brs ++ [m]) as [|x ahead'] eqn:Eahead;
      [destruct brs; discriminate Eahead|].
    cbn [map app] in Hread.
    set (s3 := (fst s2, log_event (EvRead h (Got x))
                          (set_reads (map (@Got Message) ahead' ++ R) (snd s2)))) in *.
    rewrite Hread in Hwr3. cbn [snd] in Hwr3.
    assert (Hst3 : streaming outFile h (map (@Got Message) ahead' ++ R) data s3).
    { repeat split.
      - simpl. rewrite Hdev2. exact Hd1.
      - rewrite <- Hl2. apply is_live_of_live. reflexivity.
      - exact Hw2.
      - simpl. rewrite Hf2, Hf1. exact Hf.
      - intros Hu. simpl. rewrite Hfs2, Hfs1. apply Hfile, Hu. }
    assert (Hdev3 : fst s3 = fst s) by (simpl; rewrite Hdev2; exact Hdev1).
    assert (Hsim3 : simulateButtonPress (fst s3) = true ->
                    Driver (fst s3) = DeviceTypeEmulator /\
                    snd (MessageSimulateButtonPress C (simulateButtonType (fst s3))) = None)
      by (rewrite Hdev3; exact Hsim).
    destruct (IH x ahead' fuel s3 eq_refl Hbrs Hst3 Hsim3 ltac:(simpl in Hfuel; lia))
      as [s' [Hrun [Hst' [Hdev' [Hk' [Hq' Hwr']]]]]].
    exists s'. split; [|split; [exact Hst'|split; [|split; [|split]]]].
    + cbn [processGetEntropyResponse]. rewrite Hb, ack_ok.
      unfold bind, get_device, sendToDeviceNoAnswer. cbn [fst snd]. rewrite Hd, Hres.
      fold s1. rewrite Hp. fold s2. rewrite Hread. cbn [fst snd]. exact Hrun.
    + rewrite Hdev'. exact Hdev3.
    + rewrite Hk'. simpl. rewrite Hk2. exact Hk1.
    + rewrite Hq'. simpl. rewrite Hq2. exact Hq1.
    + rewrite Hwr', Hdev3. change (written (w_log (snd s3))) with (written (w_log (snd s2))).
      rewrite Hwr2, Hwr1, Hdev1. cbn [List.length repeat List.concat].
      unfold press_frames. rewrite <- !app_assoc. reflexivity.
Qed.

(** One request answered by the [ButtonRequest] messages [brs] and then by a
    reply that carries entropy. *)
Lemma getEntropy_buttons (h : Handle) (brs : list Message) (m : Message)
      (R : list (outcome Message)) (data : list byte) (s : St) (n : Z) :
  streaming outFile h (map (@Got Message) brs ++ Got m :: R) data s ->
  Forall (fun b => Kind b = MessageType_ButtonRequest) brs ->
  entropy_reply C m ->
  (simulateButtonPress (fst s) = true ->
   Driver (fst s) = DeviceTypeEmulator /\
   snd (MessageSimulateButtonPress C (simulateButtonType (fst s))) = None) ->
  exists s',
    getEntropy C builder n s = ((payload C m, None), s') /\
    streaming outFile h R data s' /\
    sunk (w_log (snd s')) = sunk (w_log (snd s)) /\
    requested (w_log (snd s')) = requested (w_log (snd s)) ++ [n] /\
    written (w_log (snd s')) =
      written (w_log (snd s)) ++ fst (builder n) ++
      List.concat (repeat (fst (MessageButtonAck C) ++ press_frames C (fst s))
                          (List.length brs)).
Proof.
  intros [Hd [Hl [Hw [Hf [Hr Hfile]]]]] Hall Hm Hsim.
  set (se := (fst s, log_event (EvGetEntropyMsgBuilder n) (snd s))).
  assert (Hle : is_live h (snd se) = true) by exact Hl.
  destruct (brs ++ [m]) as [|cur ahead] eqn:Eq; [destruct brs; discriminate Eq|].
  assert (Hr' : w_reads (snd se) = Got cur :: map (@Got Message) ahead ++ R).
  { change (w_reads (snd se)) with (w_reads (snd s)). rewrite Hr.
    change (Got m :: R) with (map (@Got Message) [m] ++ R).
    rewrite app_assoc, <- map_app, Eq. reflexivity. }
  destruct (@SendToDevice_ok h (fst (builder n)) se cur (map (@Got Message) ahead ++ R)
              Hle Hw Hr')
    as [s1 [Hsend [Hdev [Hlive [Hreads [Hw' [Hf' [Hfs' [Hs' Hq']]]]]]]]].
  pose proof (@written_SendToDevice_ok h (fst (builder n)) se Hle Hw) as Hwr.
  rewrite Hsend in Hwr. cbn [snd] in Hwr.
  assert (Hst1 : streaming outFile h (map (@Got Message) ahead ++ R) data s1).
  { repeat split.
    - rewrite Hdev. exact Hd.
    - rewrite <- Hle. apply is_live_of_live, Hlive.
    - exact Hw'.
    - rewrite Hf'. exact Hf.
    - exact Hreads.
    - intros Hu. rewrite Hfs'. apply Hfile, Hu. }
  assert (Hsim1 : simulateButtonPress (fst s1) = true ->
                  Driver (fst s1) = DeviceTypeEmulator /\
                  snd (MessageSimulateButtonPress C (simulateButtonType (fst s1))) = None)
    by (rewrite Hdev; exact Hsim).
  assert (Hfuel : List.length brs < S (List.length (w_reads (snd s1)))).
  { rewrite Hreads, length_app, length_map.
    assert (List.length (cur :: ahead) = List.length brs + 1)
      by (rewrite <- Eq, length_app; reflexivity).
    simpl in H. lia. }
  destruct (@processGetEntropyResponse_buttons h m R data Hm brs cur ahead
              (S (List.length (w_reads (snd s1)))) s1 (eq_sym Eq) Hall Hst1 Hsim1 Hfuel)
    as [s' [Hrun [Hst' [Hdev' [Hk' [Hq2 Hwr']]]]]].
  exists s'. split; [|split; [exact Hst'|split; [|split]]].
  - unfold getEntropy, bind, emit, lift, get_device, with_fuel, ret. cbn [fst snd].
    rewrite builder_ok. fold se. cbn [fst snd].
    change (dev (fst se)) with (dev (fst s)). rewrite Hd.
    rewrite Hsend. cbn [fst snd]. exact Hrun.
  - rewrite Hk', Hs'. reflexivity.
  - rewrite Hq2, Hq'. reflexivity.
  - rewrite Hwr', Hwr, Hdev. change (fst se) with (fst s).
    rewrite <- app_assoc. reflexivity.
Qed.
(** The stream from [Connect] to the deferred [Disconnect], with the
    [ButtonRequest] messages [brs] before the first reply. *)
Lemma entropy_stream_buttons (brs : list Message) (m : Message) (ms : list Message)
      (rest : list (outcome Message)) (s : St) :
  (T < 4294967296)%Z ->
  Forall (fun b => Kind b = MessageType_ButtonRequest) brs ->
  Forall (entropy_reply C) (m :: ms) ->
  exact_rounds T (map (payload C) (m :: ms)) = true ->
  (simulateButtonPress (fst s) = true ->
   Driver (fst s) = DeviceTypeEmulator /\
   snd (MessageSimulateButtonPress C (simulateButtonType (fst s))) = None) ->
  w_opens (snd s) = [] -> w_writes (snd s) = [] -> w_faults (snd s) = [] ->
  w_reads (snd s) = map (@Got Message) brs ++ map (@Got Message) (m :: ms) ++ rest ->
  (usingStdout outFile = false ->
   exists mode, w_files (snd s) outFile = Some {| f_data := []; f_mode := mode |}) ->
  exists sd,
    entropy_stream C outFile T builder s = (None, sd) /\
    w_faults (snd sd) = [] /\
    (usingStdout outFile = false ->
     exists mode, w_files (snd sd) outFile =
                  Some {| f_data := List.concat (map (payload C) (m :: ms));
                          f_mode := mode |}) /\
    sunk (w_log (snd sd)) =
      sunk (w_log (snd s)) ++ sink_view outFile (map (payload C) (m :: ms)) /\
    requested (w_log (snd sd)) =
      requested (w_log (snd s)) ++ remaining T (map (payload C) (m :: ms)) /\
    writes_begin (written (w_log (snd s)) ++ fst (builder T) ++
                  List.concat (repeat (fst (MessageButtonAck C) ++ press_frames C (fst s))
                                      (List.length brs))) sd.
Proof.
  intros HT Hbrs Hall Hexact Hsim Ho Hw Hf Hr Hfile.
  inversion Hall as [|m' ms' Hm Hms]; subst.
  unfold exact_rounds in Hexact. cbn [map] in Hexact.
  pose proof (still_needed_nonneg _ _ Hexact) as Hroom.
  pose proof (len_nonneg (payload C m)) as Hp.
  destruct (@Connect_ok s Ho) as [s1 [h [Hc [Hd [Hl Hr1]]]]].
  destruct (Connect_device s) as [Hdrv [Hsp [Hsty [_ Hwr1]]]].
  pose proof (@sink_frame_Connect _ _ _ _ s (sink_frame_here s Hw))
    as [Hw1 [Hf1 [Hfs1 [Hk1 Hq1]]]].
  rewrite Hc in Hw1, Hf1, Hfs1, Hk1, Hq1, Hdrv, Hsp, Hsty, Hwr1.
  cbn [fst snd] in Hw1, Hf1, Hfs1, Hk1, Hq1, Hdrv, Hsp, Hsty, Hwr1.
  assert (Hst1 : streaming outFile h
                   (map (@Got Message) brs ++ Got m :: map (@Got Message) ms ++ rest) [] s1).
  { repeat split; auto.
    - rewrite Hf1. exact Hf.
    - rewrite Hr1. exact Hr.
    - intros Hu. rewrite Hfs1. apply Hfile, Hu. }
  assert (Hsim1 : simulateButtonPress (fst s1) = true ->
                  Driver (fst s1) = DeviceTypeEmulator /\
                  snd (MessageSimulateButtonPress C (simulateButtonType (fst s1))) = None)
    by (rewrite Hdrv, Hsp, Hsty; exact Hsim).
  destruct (@getEntropy_buttons h brs m (map (@Got Message) ms ++ rest) [] s1 T
              Hst1 Hbrs Hm Hsim1)
    as [s2 [Hget [Hst2 [Hk2 [Hq2 Hwr2]]]]].
  destruct (@processBytes_ok outFile h (map (@Got Message) ms ++ rest) [] s2 (payload C m) Hst2)
    as [s3 [Hproc [Hst3 [Hk3 Hq3]]]].
  assert (Hfuel : List.length ms < S (List.length (w_reads (snd s3)))).
  { destruct Hst3 as [_ [_ [_ [_ [Hr3 _]]]]]. rewrite Hr3, length_app, length_map. lia. }
  assert (Hneed : still_needed (T - len (payload C m)) (map (payload C) ms) = true)
    by exact Hexact.
  destruct (@entropy_loop_ok C outFile T builder builder_ok h rest HT ms (len (payload C m))
              (S (List.length (w_reads (snd s3)))) ([] ++ payload C m) s3
              Hms Hneed Hp (fun _ => eq_refl) Hst3 Hfuel)
    as [s4 [Hloop [Hst4 [Hk4 Hq4]]]].
  destruct Hst4 as [Hd4 [Hl4 [Hw4 [Hf4 [Hr4 Hfile4]]]]].
  pose proof (@sink_frame_Disconnect _ _ _ _ C s4 (sink_frame_here s4 Hw4))
    as [Hw5 [Hf5 [Hfs5 [Hk5 Hq5]]]].
  assert (Hrun : entropy_stream C outFile T builder s = (None, snd (Disconnect C s4))).
  { unfold entropy_stream, bind, with_fuel, ret. rewrite Hc. cbn [fst snd].
    rewrite Hget. cbn [fst snd]. rewrite Hproc. cbn [fst snd].
    fold (len (payload C m)). rewrite (@uint32_small (len (payload C m))) by lia.
    rewrite Hloop. reflexivity. }
  exists (snd (Disconnect C s4)).
  split; [exact Hrun|split; [|split; [|split; [|split]]]].
  - rewrite Hf5. exact Hf4.
  - intros Hu. rewrite Hfs5. destruct (Hfile4 Hu) as [mode Hfs4].
    exists mode. rewrite Hfs4. reflexivity.
  - rewrite Hk5, Hk4, Hk3, Hk2, Hk1. cbn [map].
    rewrite (sink_view_cons outFile (payload C m) (map (payload C) ms)), app_assoc.
    reflexivity.
  - rewrite Hq5, Hq4, Hq3, Hq2, Hq1. cbn [map remaining]. rewrite <- app_assoc. reflexivity.
  - assert (Hafter : after (w_log (snd s2)) (List.length (w_reads (snd s2)))
                       (snd (Disconnect C s4))).
    { pose proof (after_here s2) as H2.
      pose proof (@after_processBytes _ _ outFile (payload C m) s2 H2) as H3.
      rewrite Hproc in H3. cbn [snd] in H3.
      pose proof (@after_entropy_loop C outFile T builder _ _
                    (S (List.length (w_reads (snd s3)))) (len (payload C m)) s3 H3) as H4.
      rewrite Hloop in H4. cbn [snd] in H4.
      exact (@after_Disconnect C _ _ s4 H4). }
    apply after_writes_begin in Hafter. rewrite Hwr2, Hwr1 in Hafter.
    unfold press_frames in *. rewrite Hsp, Hsty in Hafter.
    exact Hafter.
Qed.
Lemma create_device (s : St) :
  w_faults (snd s) = [] ->
  fst (snd ((st <- os_Stat outFile ;;
             (match st with
              | Got _ => _ <- os_Chmod outFile 511 ;; ret tt
              | Failed _ => ret tt
              end) ;;
             os_Create outFile) s)) = fst s /\
  written (w_log (snd (snd ((st <- os_Stat outFile ;;
                             (match st with
                              | Got _ => _ <- os_Chmod outFile 511 ;; ret tt
                              | Failed _ => ret tt
                              end) ;;
                             os_Create outFile) s)))) = written (w_log (snd s)).
Proof.
  intros Hf. unfold bind, os_Stat, os_Chmod, os_Create, lift, ret. cbn [fst snd].
  rewrite Hf. cbn [pop fst snd].
  destruct (w_files (snd s) outFile) as [f|] eqn:Hfs; cbn [fst snd pop set_faults w_faults];
    cbn [log_event set_faults w_files w_faults]; rewrite Hfs; cbn;
    rewrite ?String.eqb_refl; cbn; split; reflexivity.
Qed.

Lemma writes_begin_after (W : list Frame) (n : nat) (s s' : St) :
  writes_begin W s -> after (w_log (snd s)) n s' -> writes_begin W s'.
Proof.
  intros [tail Hs] [[post Hlog] _]. exists (tail ++ written post).
  rewrite Hlog, written_app, Hs, app_assoc. reflexivity.
Qed.

(** X18: [ButtonRequest] messages in the entropy stream.  The device answers
    the first request with the [ButtonRequest] messages [brs] and then sends
    the replies [ms] as in the stream that succeeds.  The button ack builds,
    and if the simulated press is on the driver is the emulator and the press
    frame builds.  Then each [ButtonRequest] is answered on the open device
    by one button ack, followed by the press frame if simulation is on; these
    frames come right after the frames of the first request.  A
    [ButtonRequest] counts for nothing: the builder is asked as without them,
    the same payloads reach the sink, and the method returns nil. *)
Theorem SaveDeviceEntropyInFile_buttons (brs ms : list Message)
        (rest : list (outcome Message)) (s : St) :
  (T < 4294967296)%Z ->
  Forall (fun b => Kind b = MessageType_ButtonRequest) brs ->
  Forall (entropy_reply C) ms ->
  exact_rounds T (map (payload C) ms) = true ->
  (simulateButtonPress (fst s) = true ->
   Driver (fst s) = DeviceTypeEmulator /\
   snd (MessageSimulateButtonPress C (simulateButtonType (fst s))) = None) ->
  w_opens (snd s) = [] -> w_writes (snd s) = [] -> w_faults (snd s) = [] ->
  w_reads (snd s) = map (@Got Message) brs ++ map (@Got Message) ms ++ rest ->
  fst (SaveDeviceEntropyInFile C outFile T builder s) = None /\
  requested (w_log (snd (snd (SaveDeviceEntropyInFile C outFile T builder s)))) =
    requested (w_log (snd s)) ++ remaining T (map (payload C) ms) /\
  sunk (w_log (snd (snd (SaveDeviceEntropyInFile C outFile T builder s)))) =
    sunk (w_log (snd s)) ++ sink_view outFile (map (payload C) ms) /\
  writes_begin (written (w_log (snd s)) ++ fst (builder T) ++
                List.concat (repeat (fst (MessageButtonAck C) ++ press_frames C (fst s))
                                    (List.length brs)))
               (snd (SaveDeviceEntropyInFile C outFile T builder s)) /\
  (if usingStdout outFile then True
   else w_files (snd (snd (SaveDeviceEntropyInFile C outFile T builder s))) outFile =
        Some {| f_data := List.concat (map (payload C) ms); f_mode := 292 |}).
Proof.
  intros HT Hbrs Hall Hexact Hsim Ho Hw Hf Hr.
  destruct ms as [|m ms]; [discriminate Hexact|].
  destruct (usingStdout outFile) eqn:Hu.
  - assert (Hfile : usingStdout outFile = false ->
                    exists mode, w_files (snd s) outFile =
                                 Some {| f_data := []; f_mode := mode |})
      by (intros H; congruence).
    destruct (@entropy_stream_buttons brs m ms rest s HT Hbrs Hall Hexact Hsim
                Ho Hw Hf Hr Hfile)
      as [sd [Hrun [_ [_ [Hk [Hq Hwb]]]]]].
    unfold SaveDeviceEntropyInFile. rewrite Hu, Hrun. cbn [fst snd]. auto.
  - destruct (@create_ok outFile s Hf)
      as [sc [mode [Hcreate [Ho' [Hw' [Hr' [Hf' [Hfs' [Hk' Hq']]]]]]]]].
    destruct (create_device s Hf) as [Hdc Hwc].
    rewrite Hcreate in Hdc, Hwc. cbn [snd] in Hdc, Hwc.
    assert (Hfile : usingStdout outFile = false ->
                    exists mode, w_files (snd sc) outFile =
                                 Some {| f_data := []; f_mode := mode |})
      by (intros _; exists mode; exact Hfs').
    rewrite <- Ho' in Ho. rewrite <- Hw' in Hw. rewrite <- Hr' in Hr.
    rewrite <- Hdc in Hsim.
    destruct (@entropy_stream_buttons brs m ms rest sc HT Hbrs Hall Hexact Hsim
                Ho Hw Hf' Hr Hfile)
      as [sd [Hrun [Hfd [Hfsd [Hk [Hq Hwb]]]]]].
    destruct (Hfsd Hu) as [mode' Hfiled].
    destruct (@finish_ok outFile T (option error) None _ mode' sd Hfd Hfiled)
      as [sf [Hfin [Hfsf [Hkf Hqf]]]].
    pose proof (@SaveDeviceEntropyInFile_file C outFile T builder None s sc sd sf
                  Hu Hcreate Hrun Hfin) as Hall_run.
    assert (Hafter : after (w_log (snd sd)) (List.length (w_reads (snd sd))) sf).
    { assert (Hp : preserves (after (w_log (snd sd)) (List.length (w_reads (snd sd))))
                     (file_Close outFile ;; _ <- os_Chmod outFile 292 ;;
                      _ <- checkProducedFile outFile T ;; ret (@None error))) by pres.
      specialize (Hp sd (after_here sd)). rewrite Hfin in Hp. exact Hp. }
    rewrite Hall_run. cbn [fst snd].
    split; [reflexivity|]. split; [|split; [|split; [|exact Hfsf]]].
    + rewrite Hqf, Hq, Hq'. reflexivity.
    + rewrite Hkf, Hk, Hk'. reflexivity.
    + rewrite Hwc, Hdc in Hwb. exact (@writes_begin_after _ _ sd sf Hwb Hafter).
Qed.

End StreamButtons.

(** Three bytes asked of the emulator with the simulated press on; the device
    asks for the button once and then sends "abc". *)
Lemma SaveDeviceEntropyInFile_buttons_witness :
  let s := snd (SetAutoPressButton true 1%Z (Mock.emulator
                  [Got (Mock.msg MessageType_ButtonRequest "");
                   Got (Mock.msg MessageType_Entropy "abc")])) in
  let run := SaveDeviceEntropyInFile Mock.codec "-" 3 (fun _ => Mock.tag Byte.x30) s in
  fst run = None /\
  requested (w_log (snd (snd run))) = [3%Z] /\
  sunk (w_log (snd (snd run))) = [list_byte_of_string "abc"] /\
  writes_begin [[Byte.x30]; [Byte.x04]; [Byte.x23]] (snd run).
Proof.
  assert (Hb : Forall (fun b => Kind b = MessageType_ButtonRequest)
                 [Mock.msg MessageType_ButtonRequest ""]) by (repeat constructor).
  assert (Hall : Forall (entropy_reply Mock.codec) [Mock.msg MessageType_Entropy "abc"])
    by (repeat constructor).
  pose proof (@SaveDeviceEntropyInFile_buttons Mock.codec "-" 3
                (fun _ => Mock.tag Byte.x30) (fun _ => eq_refl) eq_refl
                [Mock.msg MessageType_ButtonRequest ""]
                [Mock.msg MessageType_Entropy "abc"] []
                (snd (SetAutoPressButton true 1%Z (Mock.emulator
                        [Got (Mock.msg MessageType_ButtonRequest "");
                         Got (Mock.msg MessageType_Entropy "abc")])))
                eq_refl Hb Hall eq_refl (fun _ => conj eq_refl eq_refl)
                eq_refl eq_refl eq_refl eq_refl)
    as [H1 [H2 [H3 [H4 _]]]].
  cbv zeta. repeat split; assumption.
Defined.


(** ** [GetUsbInfo] *)

(** X19: [GetUsbInfo] on the USB driver asks the device before it asks the
    driver.  When [Connect] succeeds and the liveness probe that [Disconnect]
    runs answers false, the method returns "device is not connected": the
    driver is not asked for its list of devices (the run ends with the probe),
    and the handle that [Connect] opened is still held and still open. *)
Theorem GetUsbInfo_needs_probe (C : Codec) (s s1 : St) :
  Driver (fst s) = DeviceTypeUSB ->
  Connect s = (None, s1) ->
  fst (Connected C s1) = false ->
  GetUsbInfo C s = (([], Some ErrNotConnected), snd (Connected C s1)) /\
  exists h, dev (fst (snd (GetUsbInfo C s))) = Some h /\
            is_live h (snd (snd (GetUsbInfo C s))) = true.
Proof.
  intros Hdrv Hc Hprobe.
  assert (Hrun : GetUsbInfo C s = (([], Some ErrNotConnected), snd (Connected C s1))).
  { unfold GetUsbInfo, bind, get_device. cbn [fst snd]. rewrite Hdrv. cbn [DeviceType_eqb].
    rewrite Hc. cbn [fst snd]. unfold Disconnect, bind. rewrite Hprobe. reflexivity. }
  split; [exact Hrun|].
  destruct (@Connect_success s s1 Hc) as [h [pre [Hdev Hlog]]].
  destruct (keeps_Connected C (keeps_here s1)) as [Hd Hl].
  exists h. rewrite Hrun. cbn [fst snd]. split.
  - rewrite Hd. exact Hdev.
  - unfold is_live. rewrite Hl, Hlog. simpl. rewrite Nat.eqb_refl. reflexivity.
Qed.

(** The device answers the probe with a [Failure]. *)
Lemma GetUsbInfo_needs_probe_witness :
  fst (GetUsbInfo Mock.codec (Mock.usb [Got (Mock.msg MessageType_Failure "busy")])) =
    ([], Some ErrNotConnected) /\
  live (w_log (snd (snd (GetUsbInfo Mock.codec
                           (Mock.usb [Got (Mock.msg MessageType_Failure "busy")]))))) = [0].
Proof.
  pose (s := Mock.usb [Got (Mock.msg MessageType_Failure "busy")]).
  let x := eval vm_compute in (snd (Connect s)) in pose (s1 := x).
  assert (Hc : Connect s = (None, s1)) by (vm_compute; reflexivity).
  assert (Hp : fst (Connected Mock.codec s1) = false) by (vm_compute; reflexivity).
  destruct (@GetUsbInfo_needs_probe Mock.codec s s1 eq_refl Hc Hp) as [Hrun _].
  fold s. rewrite Hrun. split; vm_compute; reflexivity.
Defined.
